(** * nhl_predictors: the shot scraper and the feature processor

    A shallow embedding of [src/shot_scraper.py] (class [NHLShotScraper]) and
    [src/feature_processor.py] (class [XGProcessor]), and the properties of
    the event-to-feature pipeline proved over it.

    Conventions of the embedding.
    - A Python [str] is a [string]; characters are code points below 256.
    - A Python [int] is a [Z].  The flags the code returns as [0]/[1] stay
      integers.
    - A JSON object is a record whose optional keys are [option] fields:
      [d["k"]] on an absent key raises [KeyError], [d.get("k")] gives [None].
      A key that is present holds a value of its type.
    - An exception is a value of [exn]; a call that may raise returns a
      [result].
    - The league client is external: its two calls are parameters of the
      development, and every call is recorded in a trace. *)

From Stdlib Require Import ZArith QArith List Ascii String Bool Lia PrimFloat Uint63.
From stdpp Require Import base option gmap strings list.

Local Open Scope string_scope.
Local Open Scope Z_scope.
Local Set Warnings "-inexact-float".

(** ** Exceptions *)

Inductive exn : Type :=
| KeyError
| IndexError
| ValueError
| ProviderError.

Inductive result (A : Type) : Type :=
| Ok (a : A)
| Raise (e : exn).
Arguments Ok {A} a.
Arguments Raise {A} e.

Definition rbind {A B : Type} (r : result A) (k : A -> result B) : result B :=
  match r with
  | Ok a => k a
  | Raise e => Raise e
  end.

Notation "'do' x <- r ; k" := (rbind r (fun x => k))
  (at level 10, x name, r at level 100, k at level 200).

(** [d["k"]] on a JSON object. *)
Definition getitem {A : Type} (o : option A) : result A :=
  match o with
  | Some a => Ok a
  | None => Raise KeyError
  end.

(** [s[i]] on a string, [i] non-negative. *)
Definition str_index (s : string) (i : nat) : result ascii :=
  match String.get i s with
  | Some c => Ok c
  | None => Raise IndexError
  end.

Definition b2z (b : bool) : Z := if b then 1 else 0.

(** ** [int(str)], base ten

    Python's [int] skips white space on both sides, takes an optional sign,
    then decimal digits among which single underscores may stand between two
    digits.  The strings converted here have one or two characters, far
    below the interpreter's limit on the number of digits. *)

Definition is_digit (c : ascii) : bool :=
  let n := nat_of_ascii c in (48 <=? n)%nat && (n <=? 57)%nat.

Definition digit_val (c : ascii) : Z := Z.of_nat (nat_of_ascii c) - 48.

(** White space for [int]: tab, line feed, vertical tab, form feed, carriage
    return, space, and of the code points from 128 to 255 the next-line and
    no-break-space characters. *)
Definition is_space (c : ascii) : bool :=
  let n := nat_of_ascii c in
  ((9 <=? n)%nat && (n <=? 13)%nat) || (n =? 32)%nat || (n =? 133)%nat || (n =? 160)%nat.

Fixpoint all_space (s : string) : bool :=
  match s with
  | EmptyString => true
  | String c s' => is_space c && all_space s'
  end.

Fixpoint lstrip (s : string) : string :=
  match s with
  | EmptyString => EmptyString
  | String c s' => if is_space c then lstrip s' else s
  end.

(** The digits after a first digit: [acc] is the value read so far. *)
Fixpoint int_digits (acc : Z) (s : string) : option Z :=
  match s with
  | EmptyString => Some acc
  | String c s' =>
      if is_digit c then int_digits (10 * acc + digit_val c) s'
      else if Ascii.eqb c "_" then
        match s' with
        | String d s'' =>
            if is_digit d then int_digits (10 * acc + digit_val d) s'' else None
        | EmptyString => None
        end
      else if is_space c then (if all_space s' then Some acc else None)
      else None
  end.

Definition int_unsigned (s : string) : option Z :=
  match s with
  | String c s' => if is_digit c then int_digits (digit_val c) s' else None
  | EmptyString => None
  end.

Definition py_int (s : string) : result Z :=
  let r :=
    match lstrip s with
    | String c s' =>
        if Ascii.eqb c "-" then option_map Z.opp (int_unsigned s')
        else if Ascii.eqb c "+" then int_unsigned s'
        else int_unsigned (String c s')
    | EmptyString => None
    end in
  match r with
  | Some z => Ok z
  | None => Raise ValueError
  end.

(** ** TimeWindow: [second_diff] *)

(** [time[:2]] and [time[3:5]]: slices are clipped to the string. *)
Definition slice_0_2 (t : string) : string := substring 0 2 t.
Definition slice_3_5 (t : string) : string := substring 3 2 t.

Definition second_diff (time1 time2 : string) : result Z :=
  do m1 <- py_int (slice_0_2 time1);
  do s1 <- py_int (slice_3_5 time1);
  do m2 <- py_int (slice_0_2 time2);
  do s2 <- py_int (slice_3_5 time2);
  Ok (Z.abs ((m2 * 60 + s2) - (m1 * 60 + s1))).

(** ** ContextClassifier: [get_danger_zone]

    The coordinates of the play-by-play feed are integers.  The boundary
    [-0.8*x_abs + 77.2] is computed in binary64, as Python does; the integers
    converted to floating point there lie between 7 and 89. *)

Definition float_of_Z (z : Z) : float := PrimFloat.of_uint63 (Uint63.of_Z z).

Definition get_danger_zone (x y : Z) : string :=
  let x_abs := Z.abs x in
  let y_abs := Z.abs y in
  if (69 <=? x_abs) && (x_abs <=? 89) && (y_abs <=? 6) then "high"
  else if (69 <=? x_abs) && (x_abs <=? 89) && (6 <? y_abs) && (y_abs <=? 22) then
    let y_boundary := PrimFloat.add (PrimFloat.mul (PrimFloat.opp 0.8%float) (float_of_Z x_abs)) 77.2%float in
    if PrimFloat.leb (float_of_Z y_abs) y_boundary then "med" else "low"
  else if (44 <=? x_abs) && (x_abs <? 69) && (y_abs <=? 22) then "med"
  else "low".

(** ** The play-by-play data model *)

(** [play["details"]]: all keys optional. *)
Record Details : Type := mkDetails {
  eventOwnerTeamId : option Z;
  scoringPlayerId : option Z;
  shootingPlayerId : option Z;
  goalieInNetId : option Z;
  xCoord : option Z;
  yCoord : option Z;
  shotType : option string;
  zoneCode : option string
}.

(** One event of a game's play sequence.  [typeDescKey] is read outside the
    per-event handler and is always there. *)
Record Play : Type := mkPlay {
  typeDescKey : string;
  timeInPeriod : option string;
  situationCode : option string;
  homeTeamDefendingSide : option string;
  details : option Details
}.

(** The answer of the play-by-play call for one game, taken to carry the
    three keys the extractor subscripts before its per-event [try] (lines
    157 to 159): [homeTeam.id], [awayTeam.id] and [plays]. *)
Record GameData : Type := mkGameData {
  homeTeam_id : Z;
  awayTeam_id : Z;
  plays : list Play
}.

(** [player_info["featuredStats"]["regularSeason"]["career"]], of which the
    scraper reads two figures with [.get]. *)
Record CareerStats : Type := mkCareerStats {
  savePctg : option Q;
  shootingPctg : option Q
}.

(** The answer of the player-stats call.  Every key the scraper reads with a
    subscript may be absent, and the subscript then raises [KeyError]:
    [firstName.default], [lastName.default], [position], [shootsCatches]
    and the chain [featuredStats.regularSeason.career]. *)
Record PlayerInfo : Type := mkPlayerInfo {
  firstName_default : option string;
  lastName_default : option string;
  info_position : option string;
  shootsCatches : option string;
  career : option CareerStats
}.

(** The three-element list [stats]; its entries are [None] in the
    placeholder the extractor uses for a missing goaltender. *)
Definition stats_triple : Type := (option string * option string * option Q)%type.

(** The display name and the stats triple read off an answer of the
    player-stats call (lines 60 to 73 of the scraper): a goaltender gets the
    career save percentage, anyone else the career shooting percentage. *)
Definition player_entry (player_info : PlayerInfo) : result (string * stats_triple) :=
  do first <- getitem (firstName_default player_info);
  do last <- getitem (lastName_default player_info);
  let name := first +:+ " " +:+ last in
  do pos <- getitem (info_position player_info);
  if (pos =? "G")%string then
    do pos0 <- getitem (info_position player_info);
    do hand <- getitem (shootsCatches player_info);
    do stats <- getitem (career player_info);
    Ok (name, (Some pos0, Some hand, savePctg stats))
  else
    do pos0 <- getitem (info_position player_info);
    do hand <- getitem (shootsCatches player_info);
    do stats <- getitem (career player_info);
    Ok (name, (Some pos0, Some hand, shootingPctg stats)).

(** ** ContextClassifier: [is_rebound] and [is_rush] *)

(** [self.second_diff(play["timeInPeriod"], prev_play["timeInPeriod"])]. *)
Definition time_diff_of (play prev_play : Play) : result Z :=
  do t1 <- getitem (timeInPeriod play);
  do t2 <- getitem (timeInPeriod prev_play);
  second_diff t1 t2.

Definition is_rebound (play : Play) (prev_play : option Play) : result Z :=
  match prev_play with
  | None => Ok 0
  | Some prev =>
      do time_diff <- time_diff_of play prev;
      if (typeDescKey prev =? "blocked-shot")%string && (time_diff <=? 2) then Ok 1
      else if ((typeDescKey prev =? "missed-shot")%string
               || (typeDescKey prev =? "shot-on-goal")%string) && (time_diff <=? 3) then Ok 1
      else Ok 0
  end.

Definition stoppages : list string :=
  ["stoppage"; "faceoff"; "goal"; "penalty"; "period-start"; "period-end"; "game-end"].

Definition str_in (s : string) (l : list string) : bool :=
  existsb (String.eqb s) l.

(** [play.get("details", {}).get(key)]. *)
Definition details_get {A : Type} (key : Details -> option A) (play : Play) : option A :=
  match details play with
  | Some d => key d
  | None => None
  end.

(** Equality of two values that may be [None]. *)
Definition opt_Z_eqb (a b : option Z) : bool :=
  match a, b with
  | Some x, Some y => x =? y
  | None, None => true
  | _, _ => false
  end.

Definition is_rush (play : Play) (prev_play : option Play) : result Z :=
  match prev_play with
  | None => Ok 0
  | Some prev =>
      if str_in (typeDescKey prev) stoppages then Ok 0
      else
        do time_diff <- time_diff_of play prev;
        if 4 <? time_diff then Ok 0
        else
          do det <- getitem (details play);
          let shooting_team_id := eventOwnerTeamId det in
          let prev_zone := details_get zoneCode prev in
          let prev_owner := details_get eventOwnerTeamId prev in
          match prev_zone with
          | None => Ok 0
          | Some z =>
              if (z =? "N")%string then Ok 1
              else if (z =? "D")%string && opt_Z_eqb prev_owner shooting_team_id then Ok 1
              else if (z =? "O")%string && negb (opt_Z_eqb prev_owner shooting_team_id) then Ok 1
              else Ok 0
          end
  end.

(** ** ShotRecord: one row of the extractor's table *)

Record ShotRecord : Type := mkShotRecord {
  game_id : Z;
  team_id : Z;
  home : Z;
  home_def_side : string;
  last_play : option string;
  rebound : Z;
  rush : Z;
  home_skaters : Z;
  away_skaters : Z;
  x_coord : Z;
  y_coord : Z;
  shooter_id : Z;
  shooter : string;
  position : option string;
  shoots : option string;
  career_shooting_pct : option Q;
  goalie_id : option Z;
  goalie : option string;
  goalie_catches : option string;
  career_save_pct : option Q;
  shot_type : option string;
  zone : option string;
  shot_class : string;
  danger_zone : string
}.

(** A pandas frame built from a list of row dictionaries: an empty list gives
    the frame without rows and without columns, as [pd.DataFrame()] does. *)
Inductive DataFrame (R : Type) : Type :=
| NoColumns
| Frame (rows : list R).
Arguments NoColumns {R}.
Arguments Frame {R} rows.

Definition pd_DataFrame {R : Type} (rows : list R) : DataFrame R :=
  match rows with
  | [] => NoColumns
  | _ :: _ => Frame rows
  end.

Definition frame_rows {R : Type} (df : DataFrame R) : list R :=
  match df with
  | NoColumns => []
  | Frame rows => rows
  end.

(** ** The scraper's state and the external calls *)

(** A call to the league client, with whether it answered or raised. *)
Inductive ext_call : Type :=
| PlayerCall (player_id : Z) (answered : bool)
| GameCall (game : Z) (answered : bool).

(** [self.player_dict], [self.player_stats_cache], and the calls made so far,
    newest first. *)
Record State : Type := mkState {
  player_dict : gmap Z string;
  player_stats_cache : gmap Z stats_triple;
  trace : list ext_call
}.

Definition init_state : State :=
  {| player_dict := ∅; player_stats_cache := ∅; trace := [] |}.

Definition is_ok {A : Type} (r : result A) : bool :=
  match r with
  | Ok _ => true
  | Raise _ => false
  end.

Definition log_call (c : ext_call) (st : State) : State :=
  {| player_dict := player_dict st;
     player_stats_cache := player_stats_cache st;
     trace := c :: trace st |}.

(** The control flow of the body of the per-event loop: a value, a
    [continue], or an exception on its way to the handler. *)
Inductive flow (A : Type) : Type :=
| Ret (a : A)
| Continue
| Exc (e : exn).
Arguments Ret {A} a.
Arguments Continue {A}.
Arguments Exc {A} e.

Definition M (A : Type) : Type := State -> State * flow A.

Definition ret {A : Type} (a : A) : M A := fun st => (st, Ret a).
Definition continue {A : Type} : M A := fun st => (st, Continue).
Definition bind {A B : Type} (m : M A) (k : A -> M B) : M B :=
  fun st =>
    match m st with
    | (st', Ret a) => k a st'
    | (st', Continue) => (st', Continue)
    | (st', Exc e) => (st', Exc e)
    end.

(** A computation that reads no state. *)
Definition pure_of {A : Type} (r : result A) : M A :=
  fun st => match r with Ok a => (st, Ret a) | Raise e => (st, Exc e) end.

(** A stateful call that returns or raises. *)
Definition call_of {A : Type} (f : State -> State * result A) : M A :=
  fun st => match f st with
            | (st', Ok a) => (st', Ret a)
            | (st', Raise e) => (st', Exc e)
            end.

Notation "'let*' x := m 'in' k" := (bind m (fun x => k))
  (at level 10, x name, m at level 100, k at level 200).
Notation "'let*' ' p := m 'in' k" := (bind m (fun x => match x with p => k end))
  (at level 10, p pattern, m at level 100, k at level 200).

(** [a and b], [a or b]: the right operand is evaluated only when needed. *)
Definition py_and (a : bool) (b : M bool) : M bool :=
  if a then b else ret false.
Definition py_or (a b : M bool) : M bool :=
  let* x := a in if x then ret true else b.

Definition qualifying : list string := ["missed-shot"; "goal"; "shot-on-goal"].

(** [play["situationCode"][i]]. *)
Definition situation_char (play : Play) (i : nat) : result ascii :=
  do code <- getitem (situationCode play);
  str_index code i.

(** The test that skips an event before anything is looked up:
    [(home == 1 and play["situationCode"][0] == "0") or
     (away == 1 and play["situationCode"][3] == "0")]. *)
Definition situation_skip (play : Play) (home_flag away_flag : Z) : M bool :=
  py_or
    (py_and (home_flag =? 1)
       (let* c := pure_of (situation_char play 0) in ret (Ascii.eqb c "0")))
    (py_and (away_flag =? 1)
       (let* c := pure_of (situation_char play 3) in ret (Ascii.eqb c "0"))).

(** The placeholder [[None, None, None]] for the stats of a goaltender that
    is not there; [if goalie_id:] is false for [None] and for [0]. *)
Definition no_goalie_stats : stats_triple := (None, None, None).

Section Scraper.

(** [self.client.stats.player_career_stats] and
    [self.client.game_center.play_by_play]: what they answer may depend on
    the calls made before. *)
Variable player_career_stats : list ext_call -> Z -> result PlayerInfo.
Variable play_by_play : list ext_call -> Z -> result GameData.

(** *** PlayerStatsCache: [get_player_stats] *)

Definition get_player_stats (pid : Z) (st : State) : State * result (string * stats_triple) :=
  match player_dict st !! pid with
  | Some name =>
      match player_stats_cache st !! pid with
      | Some stats => (st, Ok (name, stats))
      | None => (st, Raise KeyError)
      end
  | None =>
      let answer := player_career_stats (trace st) pid in
      let st1 := log_call (PlayerCall pid (is_ok answer)) st in
      match answer with
      | Raise e => (st1, Raise e)
      | Ok player_info =>
          match player_entry player_info with
          | Raise e => (st1, Raise e)
          | Ok (name, stats) =>
              ({| player_dict := <[pid := name]> (player_dict st1);
                  player_stats_cache := <[pid := stats]> (player_stats_cache st1);
                  trace := trace st1 |},
               Ok (name, stats))
          end
      end
  end.

(** *** ShotEventExtractor: the body of the per-event loop, inside [try] *)

(** The goaltender of a shot: looked up when [goalie_id] is truthy, else no
    name and the placeholder. *)
Definition goalie_lookup (goalie_id : option Z) : M (option string * stats_triple) :=
  match goalie_id with
  | Some g =>
      if g =? 0 then ret (None, no_goalie_stats)
      else let* '(n, s) := call_of (get_player_stats g) in ret (Some n, s)
  | None => ret (None, no_goalie_stats)
  end.

Definition process_play (gid home_id away_id : Z) (pbp : list Play) (idx : nat) (play : Play)
  : M ShotRecord :=
  let* det := pure_of (getitem (details play)) in
  let* team := pure_of (getitem (eventOwnerTeamId det)) in
  let home_flag := b2z (team =? home_id) in
  let away_flag := b2z (team =? away_id) in
  let* home_side := pure_of (getitem (homeTeamDefendingSide play)) in
  let* skip := situation_skip play home_flag away_flag in
  if skip : bool then continue
  else
    match (if (typeDescKey play =? "goal")%string
           then scoringPlayerId det else shootingPlayerId det) with
    | None => continue
    | Some sid =>
        let* '(shooter_name, shooter_stats) := call_of (get_player_stats sid) in
        let prev_play := match idx with O => None | S i => pbp !! i end in
        let* rb := pure_of (is_rebound play prev_play) in
        let* ru := pure_of (is_rush play prev_play) in
        match xCoord det, yCoord det with
        | Some x, Some y =>
            let danger := get_danger_zone x y in
            let* c2 := pure_of (situation_char play 2) in
            let* hs := pure_of (py_int (String c2 EmptyString)) in
            let* c1 := pure_of (situation_char play 1) in
            let* aws := pure_of (py_int (String c1 EmptyString)) in
            let gk := goalieInNetId det in
            let* '(goalie_name, goalie_stats) := goalie_lookup gk in
            ret {| game_id := gid;
                   team_id := team;
                   home := home_flag;
                   home_def_side := home_side;
                   last_play := option_map typeDescKey prev_play;
                   rebound := rb;
                   rush := ru;
                   home_skaters := hs;
                   away_skaters := aws;
                   x_coord := x;
                   y_coord := y;
                   shooter_id := sid;
                   shooter := shooter_name;
                   position := fst (fst shooter_stats);
                   shoots := snd (fst shooter_stats);
                   career_shooting_pct := snd shooter_stats;
                   goalie_id := gk;
                   goalie := goalie_name;
                   goalie_catches := snd (fst goalie_stats);
                   career_save_pct := snd goalie_stats;
                   shot_type := shotType det;
                   zone := zoneCode det;
                   shot_class := typeDescKey play;
                   danger_zone := danger |}
        | _, _ => continue
        end
    end.

(** The per-event loop of one game: [for idx, play in enumerate(pbp)].  An
    exception of the body is caught by the handler, which logs a warning (not
    modelled) and goes on with the next event. *)
Fixpoint plays_loop (gid home_id away_id : Z) (pbp : list Play)
    (idx : nat) (rest : list Play) (rows : list ShotRecord) (st : State)
  : State * list ShotRecord :=
  match rest with
  | [] => (st, rows)
  | play :: rest' =>
      if negb (str_in (typeDescKey play) qualifying)
      then plays_loop gid home_id away_id pbp (S idx) rest' rows st
      else
        match process_play gid home_id away_id pbp idx play st with
        | (st', Ret row) => plays_loop gid home_id away_id pbp (S idx) rest' (rows ++ [row]) st'
        | (st', Continue) => plays_loop gid home_id away_id pbp (S idx) rest' rows st'
        | (st', Exc _) => plays_loop gid home_id away_id pbp (S idx) rest' rows st'
        end
  end.

(** The per-game loop: a failed fetch returns [pd.DataFrame()] at once. *)
Fixpoint games_loop (game_ids : list Z) (rows : list ShotRecord) (st : State)
  : State * DataFrame ShotRecord :=
  match game_ids with
  | [] => (st, pd_DataFrame rows)
  | gid :: rest =>
      let answer := play_by_play (trace st) gid in
      let st1 := log_call (GameCall gid (is_ok answer)) st in
      match answer with
      | Raise _ => (st1, NoColumns)
      | Ok game_data =>
          let '(st2, rows') :=
            plays_loop gid (homeTeam_id game_data) (awayTeam_id game_data)
              (plays game_data) 0 (plays game_data) rows st1 in
          games_loop rest rows' st2
      end
  end.

Definition scrape_fenwick_shots (game_ids : list Z) (st : State)
  : State * DataFrame ShotRecord :=
  games_loop game_ids [] st.

End Scraper.

(** ** FeatureProcessor *)

Module Feature.

(** A row of the model-ready table: the columns that survive the final
    [drop], then the derived ones.  [F] is the type of the floating-point
    columns. *)
Record row (F : Type) : Type := mkRow {
  home : Z;
  last_play : option string;
  rebound : Z;
  rush : Z;
  home_skaters : Z;
  away_skaters : Z;
  position : option string;
  career_shooting_pct : option Q;
  career_save_pct : option Q;
  shot_type : option string;
  shot_class : string;
  danger_zone : string;
  shot_on_glove : option string;
  distance : F;
  shot_angle : F;
  danger_numeric : option Z;
  shot_value : option Z;
  situation : string
}.
Arguments mkRow {F}.
Arguments home {F} r.
Arguments last_play {F} r.
Arguments rebound {F} r.
Arguments rush {F} r.
Arguments home_skaters {F} r.
Arguments away_skaters {F} r.
Arguments position {F} r.
Arguments career_shooting_pct {F} r.
Arguments career_save_pct {F} r.
Arguments shot_type {F} r.
Arguments shot_class {F} r.
Arguments danger_zone {F} r.
Arguments shot_on_glove {F} r.
Arguments distance {F} r.
Arguments shot_angle {F} r.
Arguments danger_numeric {F} r.
Arguments shot_value {F} r.
Arguments situation {F} r.

End Feature.

(** [self.danger_map]. *)
Definition danger_map : gmap string Z :=
  <["low" := 1]> (<["med" := 2]> (<["high" := 3]> ∅)).

(** [a + b] on two object columns of strings, row by row: pandas applies the
    operator where both entries are present and leaves the entry missing
    where either is [None] (the masked fallback of its object arithmetic). *)
Definition series_add_str (a b : option string) : option string :=
  match a, b with
  | Some x, Some y => Some (x +:+ y)
  | _, _ => None
  end.

(** [Series.notnull], entry by entry. *)
Definition notnull {A : Type} (o : option A) : bool :=
  match o with
  | Some _ => true
  | None => false
  end.

(** [a + b] on numeric columns where an entry may be missing. *)
Definition series_add_num (a : option Z) (b : Z) : option Z :=
  option_map (fun x => x + b) a.

Section Processor.

(** The floating-point column operations of numpy, which the properties
    below do not look into: [np.sqrt] of an integer, the arctangent of
    [(|y|, |dx|)] in degrees, the constant [90.0], and rounding to three
    decimals. *)
Variable F : Type.
Variable np_sqrt : Z -> F.
Variable arctan2_degrees : Z -> Z -> F.
Variable ninety : F.
Variable round3 : F -> F.

(** A frame on its way through [processFenwick] keeps the raw columns [raw]
    and gains columns on the right: a row is the raw record paired with the
    columns added so far. *)

Definition add_distance {E : Type} (df : list (ShotRecord * E)) : list (ShotRecord * (E * F)) :=
  map (fun '(r, e) => (r, (e, np_sqrt (x_coord r ^ 2 + y_coord r ^ 2)))) df.

Definition angle_of (x_coord y_coord : Z) : F :=
  let x := Z.abs x_coord in
  let y := y_coord in
  let dx := 89 - x in
  let behind := dx <=? 0 in
  let angle := arctan2_degrees (Z.abs y) (Z.abs dx) in
  round3 (if behind then ninety else angle).

Definition add_shot_angle {E : Type} (df : list (ShotRecord * E)) : list (ShotRecord * (E * F)) :=
  map (fun '(r, e) => (r, (e, angle_of (x_coord r) (y_coord r)))) df.

(** Adds [danger_numeric], then [shot_value]. *)
Definition add_shot_value {E : Type} (df : list (ShotRecord * E))
  : list (ShotRecord * (E * option Z * option Z)) :=
  map (fun '(r, e) =>
         let danger_numeric := danger_map !! danger_zone r in
         (r, (e, danger_numeric,
              series_add_num (series_add_num danger_numeric (rebound r)) (rush r)))) df.

(** Adds [situation]; the two helper columns are dropped again. *)
Definition add_situation {E : Type} (df : list (ShotRecord * E)) : list (ShotRecord * (E * string)) :=
  map (fun '(r, e) =>
         let shooting_team_skaters := if home r =? 1 then home_skaters r else away_skaters r in
         let defending_team_skaters := if home r =? 1 then away_skaters r else home_skaters r in
         let situation := "EV" in
         let situation :=
           if defending_team_skaters <? shooting_team_skaters then "PP" else situation in
         let situation :=
           if shooting_team_skaters <? defending_team_skaters then "SH" else situation in
         (r, (e, situation))) df.

(** The final [drop] of the identifier columns. *)
Definition drop_cols
    (w : ShotRecord * (option string * F * F * option Z * option Z * string))
  : Feature.row F :=
  let '(r, (shot_on_glove, distance, shot_angle, danger_numeric, shot_value, situation)) := w in
  Feature.mkRow (home r) (last_play r) (rebound r) (rush r)
    (home_skaters r) (away_skaters r) (position r)
    (career_shooting_pct r) (career_save_pct r)
    (shot_type r) (shot_class r) (danger_zone r)
    shot_on_glove distance shot_angle danger_numeric shot_value situation.

(** [processFenwick].  The two [astype(int)] leave integer columns as they
    are.  A frame without columns has no ["shoots"] to read. *)
Definition processFenwick (df : DataFrame ShotRecord) : result (DataFrame (Feature.row F)) :=
  match df with
  | NoColumns => Raise KeyError
  | Frame rows =>
      let df := map (fun r => (r, series_add_str (shoots r) (goalie_catches r))) rows in
      let df := List.filter (fun w => 3 <=? home_skaters (fst w)) df in
      let df := List.filter (fun w => 3 <=? away_skaters (fst w)) df in
      let df := List.filter (fun w => notnull (goalie_id (fst w))) df in
      let df := add_distance df in
      let df := add_shot_angle df in
      let df := add_shot_value df in
      let df := add_situation df in
      Ok (Frame (map drop_cols df))
  end.

(** The closed form of the table [processFenwick] returns, used to state
    its properties: which raw rows are retained, and the feature row each
    gives. *)
Definition retained (r : ShotRecord) : bool :=
  (3 <=? home_skaters r) && (3 <=? away_skaters r) && notnull (goalie_id r).

Definition situation_of (r : ShotRecord) : string :=
  let shooting := if home r =? 1 then home_skaters r else away_skaters r in
  let defending := if home r =? 1 then away_skaters r else home_skaters r in
  if shooting <? defending then "SH"
  else if defending <? shooting then "PP"
  else "EV".

Definition feature_of (r : ShotRecord) : Feature.row F :=
  Feature.mkRow (home r) (last_play r) (rebound r) (rush r)
    (home_skaters r) (away_skaters r) (position r)
    (career_shooting_pct r) (career_save_pct r)
    (shot_type r) (shot_class r) (danger_zone r)
    (series_add_str (shoots r) (goalie_catches r))
    (np_sqrt (x_coord r ^ 2 + y_coord r ^ 2))
    (angle_of (x_coord r) (y_coord r))
    (danger_map !! danger_zone r)
    (series_add_num (series_add_num (danger_map !! danger_zone r) (rebound r)) (rush r))
    (situation_of r).

End Processor.

(** ** Definitions the statements use *)

(** A well-formed [MM:SS] timestamp: two digits, a colon, two digits. *)
Definition is_mmss (t : string) : bool :=
  match t with
  | String m1 (String m2 (String sep (String s1 (String s2 EmptyString)))) =>
      is_digit m1 && is_digit m2 && Ascii.eqb sep ":" && is_digit s1 && is_digit s2
  | _ => false
  end.

(** The seconds on the period clock that a well-formed timestamp denotes. *)
Definition clock_seconds (t : string) : Z :=
  match t with
  | String m1 (String m2 (String _ (String s1 (String s2 _)))) =>
      60 * (10 * digit_val m1 + digit_val m2) + (10 * digit_val s1 + digit_val s2)
  | _ => 0
  end.

(** The characters [int] can accept at all. *)
Definition int_char (c : ascii) : bool :=
  is_digit c || is_space c || Ascii.eqb c "+" || Ascii.eqb c "-" || Ascii.eqb c "_".

Fixpoint str_mem (c : ascii) (s : string) : bool :=
  match s with
  | EmptyString => false
  | String d s' => Ascii.eqb c d || str_mem c s'
  end.

(** The integers [lo, lo+1, ..., lo+n-1]. *)
Definition Zrange (lo : Z) (n : nat) : list Z :=
  map (fun k => lo + Z.of_nat k) (seq 0 n).

(** Whether the binary64 test of the slanted boundary agrees with the exact
    one, [|y| <= -0.8*|x| + 77.2], that is [5*|y| + 4*|x| <= 386]. *)
Definition boundary_agrees (x_abs y_abs : Z) : bool :=
  Bool.eqb
    (PrimFloat.leb (float_of_Z y_abs)
       (PrimFloat.add (PrimFloat.mul (PrimFloat.opp 0.8%float) (float_of_Z x_abs)) 77.2%float))
    (5 * y_abs + 4 * x_abs <=? 386).

(** The spec's [numeric] on danger labels. *)
Definition numeric (label : string) : Z :=
  if (label =? "low")%string then 1
  else if (label =? "med")%string then 2
  else if (label =? "high")%string then 3
  else 0.

Definition is_danger_label (label : string) : Prop :=
  label = "low" \/ label = "med" \/ label = "high".

(** How many calls of the player-stats provider a trace holds for one id:
    all of them, and those that were answered. *)
Fixpoint player_calls (pid : Z) (tr : list ext_call) : nat :=
  match tr with
  | [] => 0
  | PlayerCall p _ :: tr' => (if Z.eqb p pid then S (player_calls pid tr') else player_calls pid tr')
  | GameCall _ _ :: tr' => player_calls pid tr'
  end.

Fixpoint answered_calls (pid : Z) (tr : list ext_call) : nat :=
  match tr with
  | [] => 0
  | PlayerCall p true :: tr' => (if Z.eqb p pid then S (answered_calls pid tr') else answered_calls pid tr')
  | _ :: tr' => answered_calls pid tr'
  end.

(** A run of lookups, one after the other, whatever each returns. *)
Fixpoint lookups (player_career_stats : list ext_call -> Z -> result PlayerInfo)
    (pids : list Z) (st : State) : State :=
  match pids with
  | [] => st
  | pid :: rest =>
      lookups player_career_stats rest (fst (get_player_stats player_career_stats pid st))
  end.

(** Whether a trace holds a play-by-play call that raised. *)
Definition fetch_failed (tr : list ext_call) : bool :=
  existsb (fun c => match c with GameCall _ false => true | _ => false end) tr.

(** The cache invariant: the two maps have the same keys. *)
Definition cache_inv (st : State) : Prop :=
  forall pid,
    is_Some (player_dict st !! pid) <-> is_Some (player_stats_cache st !! pid).

(** For one id: no call of the provider while it is not cached, and at most
    one call in all. *)
Definition calls_inv (pid : Z) (st : State) : Prop :=
  (player_dict st !! pid = None -> player_calls pid (trace st) = 0%nat)
  /\ (player_calls pid (trace st) <= 1)%nat.

(** The provider answers every call for an id with a record that has all
    the keys the scraper reads. *)
Definition reliable_for (player_career_stats : list ext_call -> Z -> result PlayerInfo)
    (pid : Z) : Prop :=
  forall tr, exists info entry,
    player_career_stats tr pid = Ok info /\ player_entry info = Ok entry.

(** A computation of the loop body keeps a relation between the state before
    and the state after. *)
Definition respects (R : State -> State -> Prop) {A : Type} (m : M A) : Prop :=
  forall st, R st (fst (m st)).

(** The failed fetches in the trace are the same before and after. *)
Definition same_fetches (st st' : State) : Prop :=
  fetch_failed (trace st') = fetch_failed (trace st).

(** An entry of the cache is still there, unchanged, afterwards. *)
Definition keeps_entry (pid : Z) (name : string) (stats : stats_triple) (st st' : State) : Prop :=
  player_dict st !! pid = Some name /\ player_stats_cache st !! pid = Some stats ->
  player_dict st' !! pid = Some name /\ player_stats_cache st' !! pid = Some stats.

(** The cache invariant is carried from the state before to the state after. *)
Definition carries_inv (st st' : State) : Prop := cache_inv st -> cache_inv st'.

(** The per-id invariant on calls is carried likewise. *)
Definition carries_calls_inv (pid : Z) (st st' : State) : Prop :=
  calls_inv pid st -> calls_inv pid st'.

(** An id that is cached stays cached, and no further call is made for it. *)
Definition cached_quiet (pid : Z) (st st' : State) : Prop :=
  is_Some (player_dict st !! pid) /\ is_Some (player_stats_cache st !! pid) ->
  is_Some (player_dict st' !! pid) /\ is_Some (player_stats_cache st' !! pid)
  /\ player_calls pid (trace st') = player_calls pid (trace st).

(** Every value a computation of the loop body returns satisfies [Q]. *)
Definition ensures {A : Type} (Q : A -> Prop) (m : M A) : Prop :=
  forall st st' a, m st = (st', Ret a) -> Q a.

(** ** Fixtures: a small league *)

Definition shooter_info : PlayerInfo :=
  mkPlayerInfo (Some "Ada") (Some "Shooter") (Some "C") (Some "L")
    (Some (mkCareerStats None (Some (12 # 100)))).

Definition keeper_info : PlayerInfo :=
  mkPlayerInfo (Some "Bo") (Some "Keeper") (Some "G") (Some "L")
    (Some (mkCareerStats (Some (91 # 100)) None)).

(** A provider that knows player 11 and goaltender 30. *)
Definition roster (tr : list ext_call) (pid : Z) : result PlayerInfo :=
  if pid =? 11 then Ok shooter_info
  else if pid =? 30 then Ok keeper_info
  else Raise ProviderError.

(** A provider whose answers lack the career figures. *)
Definition roster_partial (tr : list ext_call) (pid : Z) : result PlayerInfo :=
  Ok (mkPlayerInfo (Some "Cy") (Some "Rookie") (Some "D") (Some "R") None).

(** A provider that is down. *)
Definition roster_down (tr : list ext_call) (pid : Z) : result PlayerInfo :=
  Raise ProviderError.

(** A shot on goal by player 11 of team 1 from (80, 3), goaltender 30 in
    net, at 05:00, under the given situation code. *)
Definition shot_with (code : string) : Play :=
  mkPlay "shot-on-goal" (Some "05:00") (Some code) (Some "left")
    (Some (mkDetails (Some 1) None (Some 11) (Some 30) (Some 80) (Some 3)
             (Some "wrist") (Some "O"))).

(** The same shot with no goaltender in net. *)
Definition open_net_shot : Play :=
  mkPlay "shot-on-goal" (Some "05:00") (Some "1551") (Some "left")
    (Some (mkDetails (Some 1) None (Some 11) None (Some 80) (Some 3)
             (Some "wrist") (Some "O"))).

(** Team 1 is at home, team 2 away.  Game 100 has the shot at even strength,
    game 101 has it with "0" as the home skater digit, game 102 has it with
    "0" as the first digit, game 103 has the shot without a goaltender; no
    other game can be fetched. *)
Definition schedule (tr : list ext_call) (gid : Z) : result GameData :=
  if gid =? 100 then Ok (mkGameData 1 2 [shot_with "1551"])
  else if gid =? 101 then Ok (mkGameData 1 2 [shot_with "1501"])
  else if gid =? 102 then Ok (mkGameData 1 2 [shot_with "0551"])
  else if gid =? 103 then Ok (mkGameData 1 2 [open_net_shot])
  else Raise ProviderError.

(** The rows the extractor gives for the shots of games 100 and 103. *)
Definition kept_row : ShotRecord :=
  mkShotRecord 100 1 1 "left" None 0 0 5 5 80 3 11 "Ada Shooter"
    (Some "C") (Some "L") (Some (12 # 100))
    (Some 30) (Some "Bo Keeper") (Some "L") (Some (91 # 100))
    (Some "wrist") (Some "O") "shot-on-goal" "high".

Definition keeperless_row : ShotRecord :=
  mkShotRecord 103 1 1 "left" None 0 0 5 5 80 3 11 "Ada Shooter"
    (Some "C") (Some "L") (Some (12 # 100))
    None None None None
    (Some "wrist") (Some "O") "shot-on-goal" "high".

(** Events around a shot by team 10 at 10:03. *)
Definition rush_shot : Play :=
  mkPlay "shot-on-goal" (Some "10:03") None None
    (Some (mkDetails (Some 10) None (Some 8471) None (Some 80) (Some 2) None (Some "O"))).

Definition prev_miss : Play := mkPlay "missed-shot" (Some "10:00") None None None.
Definition prev_miss_far : Play := mkPlay "missed-shot" (Some "09:59") None None None.
Definition prev_block : Play := mkPlay "blocked-shot" (Some "10:01") None None None.
Definition prev_block_far : Play := mkPlay "blocked-shot" (Some "10:00") None None None.

(** ** Game ids: [get_game_ids] *)

Module Schedule.

(** A team of [client.teams.teams()] and a game of a team's season
    schedule, with the keys the scraper reads. *)
Record team : Type := mkTeam { abbr : string }.
Record game : Type := mkGame { id : Z; gameType : Z }.

End Schedule.

(** Before the 2024-25 season the schedule of "UTA" is asked for as "ARI". *)
Definition remap_abbrev (abbrev : string) (season : Z) : string :=
  if (abbrev =? "UTA")%string && (season <? 20242025) then "ARI" else abbrev.

(** [game["id"] for game in games if game["gameType"] != 1]. *)
Definition counted_ids (games : list Schedule.game) : list Z :=
  map Schedule.id (List.filter (fun g => negb (Schedule.gameType g =? 1)) games).

Section GameIds.

(** [self.client.teams.teams()], the ["games"] of
    [self.client.schedule.team_season_schedule(team_abbr, season)], and
    [self.seasons].  The schedule provider answers a request the same way
    each time it is asked. *)
Variable teams : result (list Schedule.team).
Variable team_season_schedule : string -> Z -> result (list Schedule.game).
Variable seasons : list Z.

(** The loop over [product(team_abbrs, self.seasons)], updating
    [self.game_ids]; a call that raises leaves the set as it is by then. *)
Fixpoint schedule_loop (pairs : list (string * Z)) (game_ids : gset Z) : gset Z * result unit :=
  match pairs with
  | [] => (game_ids, Ok tt)
  | (abbrev, season) :: rest =>
      let abbrev := remap_abbrev abbrev season in
      match team_season_schedule abbrev season with
      | Raise e => (game_ids, Raise e)
      | Ok games => schedule_loop rest (game_ids ∪ list_to_set (counted_ids games))
      end
  end.

(** An id is listed by one of the requests of the loop: it is the id of a
    game, not of type 1, in the schedule answered for a pair. *)
Definition listed_in (pairs : list (string * Z)) (g : Z) : Prop :=
  exists abbrev season games gm,
    In (abbrev, season) pairs
    /\ team_season_schedule (remap_abbrev abbrev season) season = Ok games
    /\ In gm games /\ Schedule.gameType gm <> 1 /\ Schedule.id gm = g.

(** [get_game_ids], from the set [self.game_ids] so far to the set after and
    the list returned.  [list(self.game_ids)] lists the set in an order of
    its own; the model lists it with [elements]. *)
Definition get_game_ids (game_ids : gset Z) : gset Z * result (list Z) :=
  match teams with
  | Raise e => (game_ids, Raise e)
  | Ok ts =>
      let team_abbrs := map Schedule.abbr ts in
      match schedule_loop (list_prod team_abbrs seasons) game_ids with
      | (s, Ok _) => (s, Ok (elements s))
      | (s, Raise e) => (s, Raise e)
      end
  end.

End GameIds.

(** The schedules of a two-team league: games 1 and 20 are listed under two
    teams, and game 1 is of type 1. *)
Definition two_teams : result (list Schedule.team) :=
  Ok [Schedule.mkTeam "UTA"; Schedule.mkTeam "BOS"].

Definition season_schedule (abbrev : string) (season : Z) : result (list Schedule.game) :=
  if (abbrev =? "ARI")%string then Ok [Schedule.mkGame 1 1; Schedule.mkGame 20 2]
  else if (abbrev =? "UTA")%string then Ok [Schedule.mkGame 40 2]
  else if (abbrev =? "BOS")%string then Ok [Schedule.mkGame 1 1; Schedule.mkGame 20 2; Schedule.mkGame 30 3]
  else Raise ProviderError.

(** ** Definitions the further statements use *)

(** Every entry of the cache is still there, unchanged, afterwards. *)
Definition keeps_all (st st' : State) : Prop :=
  forall pid name stats, keeps_entry pid name stats st st'.

(** The cache holds what a row says of its shooter and, when the row has a
    goaltender that was looked up, of its goaltender. *)
Definition row_cached (st : State) (row : ShotRecord) : Prop :=
  player_dict st !! shooter_id row = Some (shooter row)
  /\ player_stats_cache st !! shooter_id row
     = Some (position row, shoots row, career_shooting_pct row)
  /\ (forall g, goalie_id row = Some g -> g <> 0 ->
        exists n pos,
          goalie row = Some n /\ player_dict st !! g = Some n
          /\ player_stats_cache st !! g = Some (pos, goalie_catches row, career_save_pct row)).

(** The games fetched in a trace, oldest first. *)
Fixpoint game_fetches (tr : list ext_call) : list Z :=
  match tr with
  | [] => []
  | GameCall g _ :: tr' => game_fetches tr' ++ [g]
  | PlayerCall _ _ :: tr' => game_fetches tr'
  end.

(** The fetched games are the same before and after. *)
Definition same_game_fetches (st st' : State) : Prop :=
  game_fetches (trace st') = game_fetches (trace st).

(** The trace afterwards is the trace before with calls of the player-stats
    provider added, and no play-by-play call. *)
Definition adds_player_calls (st st' : State) : Prop :=
  exists calls : list ext_call,
    trace st' = (calls ++ trace st)%list
    /\ game_fetches calls = [] /\ fetch_failed calls = false.

(** The number of events of a game that are of a qualifying shot type, and
    that number for a game id under a play-by-play provider that answers a
    game the same way each time (0 when the fetch raises). *)
Definition qualifying_events (game_data : GameData) : nat :=
  length (List.filter (fun play => str_in (typeDescKey play) qualifying) (plays game_data)).

Definition qualifying_events_of (fetch : Z -> result GameData) (gid : Z) : nat :=
  match fetch gid with
  | Ok game_data => qualifying_events game_data
  | Raise _ => 0%nat
  end.

(** A row with its x coordinate, or its y coordinate, negated: the same
    shot seen from the other end, or the other side, of the rink. *)
Definition flip_x (r : ShotRecord) : ShotRecord :=
  mkShotRecord (game_id r) (team_id r) (home r) (home_def_side r) (last_play r)
    (rebound r) (rush r) (home_skaters r) (away_skaters r)
    (- x_coord r) (y_coord r)
    (shooter_id r) (shooter r) (position r) (shoots r) (career_shooting_pct r)
    (goalie_id r) (goalie r) (goalie_catches r) (career_save_pct r)
    (shot_type r) (zone r) (shot_class r) (danger_zone r).

Definition flip_y (r : ShotRecord) : ShotRecord :=
  mkShotRecord (game_id r) (team_id r) (home r) (home_def_side r) (last_play r)
    (rebound r) (rush r) (home_skaters r) (away_skaters r)
    (x_coord r) (- y_coord r)
    (shooter_id r) (shooter r) (position r) (shoots r) (career_shooting_pct r)
    (goalie_id r) (goalie r) (goalie_catches r) (career_save_pct r)
    (shot_type r) (zone r) (shot_class r) (danger_zone r).

(** The skaters of the shooting team and of the defending team, as a row of
    the model-ready table has them. *)
Definition shooting_skaters {F : Type} (r : Feature.row F) : Z :=
  if Feature.home r =? 1 then Feature.home_skaters r else Feature.away_skaters r.

Definition defending_skaters {F : Type} (r : Feature.row F) : Z :=
  if Feature.home r =? 1 then Feature.away_skaters r else Feature.home_skaters r.

(** A goal event that names a shooting player but no scoring player. *)
Definition goal_without_scorer : Play :=
  mkPlay "goal" (Some "05:00") (Some "1551") (Some "left")
    (Some (mkDetails (Some 1) None (Some 11) (Some 30) (Some 80) (Some 3)
             (Some "wrist") (Some "O"))).

(** The number of calls of the player-stats provider in a trace. *)
Fixpoint player_call_count (tr : list ext_call) : nat :=
  match tr with
  | [] => 0
  | PlayerCall _ _ :: tr' => S (player_call_count tr')
  | GameCall _ _ :: tr' => player_call_count tr'
  end.

(** A computation of the loop body makes at most [n] calls of the
    player-stats provider. *)
Definition adds_calls (n : nat) {A : Type} (m : M A) : Prop :=
  forall st,
    (player_call_count (trace (fst (m st))) <= player_call_count (trace st) + n)%nat.

(** * Properties *)

(** ** TimeWindow *)

Lemma digit_not_other (c : ascii) :
  is_digit c = true ->
  is_space c = false /\ Ascii.eqb c "-" = false /\ Ascii.eqb c "+" = false
  /\ Ascii.eqb c "_" = false.
Proof.
  destruct c as [[] [] [] [] [] [] [] []]; vm_compute; intros H;
    try discriminate H; repeat split.
Qed.

Lemma py_int_two_digits (a b : ascii) :
  is_digit a = true -> is_digit b = true ->
  py_int (String a (String b EmptyString)) = Ok (10 * digit_val a + digit_val b).
Proof.
  intros Ha Hb.
  destruct (digit_not_other a Ha) as (Hs & Hm & Hp & _).
  unfold py_int. cbn [lstrip]. rewrite Hs, Hm, Hp.
  cbn [int_unsigned int_digits]. rewrite Ha, Hb. reflexivity.
Qed.

Lemma is_mmss_inv (t : string) :
  is_mmss t = true ->
  exists m1 m2 s1 s2,
    t = String m1 (String m2 (String ":" (String s1 (String s2 EmptyString))))
    /\ is_digit m1 = true /\ is_digit m2 = true
    /\ is_digit s1 = true /\ is_digit s2 = true.
Proof.
  destruct t as [|m1 [|m2 [|sep [|s1 [|s2 [|? ?]]]]]]; cbn; try discriminate.
  intros H. rewrite !andb_true_iff in H.
  destruct H as ((((Hm1 & Hm2) & Hsep) & Hs1) & Hs2).
  exists m1, m2, s1, s2.
  apply Ascii.eqb_eq in Hsep. subst sep. repeat split; assumption.
Qed.

Lemma second_diff_mmss (t1 t2 : string) :
  is_mmss t1 = true -> is_mmss t2 = true ->
  second_diff t1 t2 = Ok (Z.abs (clock_seconds t2 - clock_seconds t1)).
Proof.
  intros H1 H2.
  destruct (is_mmss_inv t1 H1) as (a1 & b1 & c1 & d1 & -> & Ha1 & Hb1 & Hc1 & Hd1).
  destruct (is_mmss_inv t2 H2) as (a2 & b2 & c2 & d2 & -> & Ha2 & Hb2 & Hc2 & Hd2).
  unfold second_diff, slice_0_2, slice_3_5. cbn [substring].
  rewrite !py_int_two_digits by assumption.
  cbn [rbind clock_seconds]. f_equal. f_equal. lia.
Qed.

Lemma py_int_cases (s : string) :
  (exists z, py_int s = Ok z) \/ py_int s = Raise ValueError.
Proof.
  unfold py_int.
  match goal with |- context [match ?r with Some _ => _ | None => _ end] => destruct r end;
    [left; eexists; reflexivity | right; reflexivity].
Qed.

(** [second_diff] raises as soon as one of its four conversions does. *)
Lemma second_diff_raises (t1 t2 : string) :
  py_int (slice_0_2 t1) = Raise ValueError \/ py_int (slice_3_5 t1) = Raise ValueError
  \/ py_int (slice_0_2 t2) = Raise ValueError \/ py_int (slice_3_5 t2) = Raise ValueError ->
  second_diff t1 t2 = Raise ValueError.
Proof.
  intros H. unfold second_diff.
  destruct (py_int_cases (slice_0_2 t1)) as [[m1 E1] | E1]; rewrite E1; cbn; [|reflexivity].
  destruct (py_int_cases (slice_3_5 t1)) as [[s1 E2] | E2]; rewrite E2; cbn; [|reflexivity].
  destruct (py_int_cases (slice_0_2 t2)) as [[m2 E3] | E3]; rewrite E3; cbn; [|reflexivity].
  destruct (py_int_cases (slice_3_5 t2)) as [[s2 E4] | E4]; rewrite E4; cbn; [|reflexivity].
  destruct H as [H | [H | [H | H]]]; congruence.
Qed.

Lemma slice_3_5_short (t : string) :
  (String.length t < 4)%nat -> slice_3_5 t = EmptyString.
Proof.
  unfold slice_3_5.
  destruct t as [|a [|b [|c [|d t]]]]; cbn; intros H; try reflexivity; lia.
Qed.

Lemma all_space_chars (s : string) (c : ascii) :
  all_space s = true -> str_mem c s = true -> is_space c = true.
Proof.
  induction s as [|d s IH]; cbn; [discriminate|].
  intros Hs Hc. apply andb_prop in Hs. destruct Hs as [Hd Hs].
  apply orb_prop in Hc. destruct Hc as [Hc | Hc]; [|auto].
  apply Ascii.eqb_eq in Hc. subst. assumption.
Qed.

Lemma int_char_space (c : ascii) : is_space c = true -> int_char c = true.
Proof. unfold int_char. intros ->. rewrite orb_true_r. reflexivity. Qed.

Lemma int_char_digit (c : ascii) : is_digit c = true -> int_char c = true.
Proof. unfold int_char. intros ->. reflexivity. Qed.

Lemma int_digits_chars (n : nat) :
  forall (s : string) (acc z : Z) (c : ascii),
    (String.length s <= n)%nat ->
    int_digits acc s = Some z -> str_mem c s = true -> int_char c = true.
Proof.
  induction n as [|n IH]; intros s acc z c Hlen Hd Hc.
  - destruct s; cbn in *; [discriminate | lia].
  - destruct s as [|d s]; cbn in Hc; [discriminate|].
    cbn in Hlen. cbn [int_digits] in Hd.
    destruct (is_digit d) eqn:Edig.
    + apply orb_prop in Hc. destruct Hc as [Hc | Hc].
      * apply Ascii.eqb_eq in Hc. subst. apply int_char_digit. assumption.
      * eapply IH; [|exact Hd|exact Hc]. lia.
    + destruct (Ascii.eqb d "_") eqn:Eus.
      * destruct s as [|e s]; [discriminate|].
        destruct (is_digit e) eqn:Edig2; [|discriminate].
        apply orb_prop in Hc. destruct Hc as [Hc | Hc].
        { apply Ascii.eqb_eq in Hc. subst. unfold int_char. rewrite Eus.
          rewrite !orb_true_r. reflexivity. }
        cbn in Hc. apply orb_prop in Hc. destruct Hc as [Hc | Hc].
        { apply Ascii.eqb_eq in Hc. subst. apply int_char_digit. assumption. }
        eapply IH; [|exact Hd|exact Hc]. cbn in Hlen. lia.
      * destruct (is_space d) eqn:Esp; [|discriminate].
        destruct (all_space s) eqn:Eall; [|discriminate].
        apply orb_prop in Hc. destruct Hc as [Hc | Hc].
        { apply Ascii.eqb_eq in Hc. subst. apply int_char_space. assumption. }
        apply int_char_space. eapply all_space_chars; eassumption.
Qed.

Lemma int_unsigned_chars (s : string) (z : Z) (c : ascii) :
  int_unsigned s = Some z -> str_mem c s = true -> int_char c = true.
Proof.
  destruct s as [|d s]; cbn; [discriminate|].
  destruct (is_digit d) eqn:Ed; [|discriminate].
  intros Hd Hc. apply orb_prop in Hc. destruct Hc as [Hc | Hc].
  - apply Ascii.eqb_eq in Hc. subst. apply int_char_digit. assumption.
  - eapply int_digits_chars; [apply Nat.le_refl | exact Hd | exact Hc].
Qed.

Lemma lstrip_mem (s : string) (c : ascii) :
  str_mem c s = true -> is_space c = true \/ str_mem c (lstrip s) = true.
Proof.
  induction s as [|d s IH]; cbn; [discriminate|].
  intros Hc. destruct (is_space d) eqn:Ed.
  - apply orb_prop in Hc. destruct Hc as [Hc | Hc]; [|auto].
    apply Ascii.eqb_eq in Hc. subst. left. assumption.
  - right. exact Hc.
Qed.

(** [int] accepts a string only if each of its characters is a digit, white
    space, a sign or an underscore. *)
Lemma py_int_chars (s : string) (z : Z) (c : ascii) :
  py_int s = Ok z -> str_mem c s = true -> int_char c = true.
Proof.
  unfold py_int. intros H Hc.
  destruct (lstrip_mem s c Hc) as [Hsp | Hm]; [apply int_char_space; assumption|].
  destruct (lstrip s) as [|d s']; [discriminate|].
  cbn in Hm.
  destruct (Ascii.eqb d "-") eqn:Eminus.
  - apply orb_prop in Hm. destruct Hm as [Hm | Hm].
    + apply Ascii.eqb_eq in Hm. subst. unfold int_char. rewrite Eminus.
      rewrite !orb_true_r. reflexivity.
    + destruct (int_unsigned s') as [u|] eqn:Eu; [|discriminate].
      eapply int_unsigned_chars; eassumption.
  - destruct (Ascii.eqb d "+") eqn:Eplus.
    + apply orb_prop in Hm. destruct Hm as [Hm | Hm].
      * apply Ascii.eqb_eq in Hm. subst. unfold int_char. rewrite Eplus.
        rewrite !orb_true_r. reflexivity.
      * destruct (int_unsigned s') as [u|] eqn:Eu; [|discriminate].
        eapply int_unsigned_chars; eassumption.
    + destruct (int_unsigned (String d s')) as [u|] eqn:Eu; [|discriminate].
      eapply int_unsigned_chars; [exact Eu|]. cbn. exact Hm.
Qed.

Lemma py_int_bad_char (s : string) (c : ascii) :
  str_mem c s = true -> int_char c = false -> py_int s = Raise ValueError.
Proof.
  intros Hc Hbad.
  destruct (py_int_cases s) as [[z Hz] | Hr]; [|exact Hr].
  rewrite (py_int_chars s z c Hz Hc) in Hbad. discriminate.
Qed.

(** C9 (as amended): on well-formed [MM:SS] timestamps [second_diff]
    returns the absolute difference of the two clock readings in seconds; it
    raises when a timestamp has fewer than four characters, and when one of
    the slices [time[:2]], [time[3:5]] holds a character that is not a digit,
    white space, a sign or an underscore.  Length and separator are not
    checked beyond that. *)
Theorem second_diff_contract :
  (forall t1 t2 : string,
      is_mmss t1 = true -> is_mmss t2 = true ->
      second_diff t1 t2 = Ok (Z.abs (clock_seconds t2 - clock_seconds t1)))
  /\ (forall t1 t2 : string,
         (String.length t1 < 4)%nat \/ (String.length t2 < 4)%nat ->
         second_diff t1 t2 = Raise ValueError)
  /\ (forall (t1 t2 : string) (c : ascii),
         int_char c = false ->
         str_mem c (slice_0_2 t1) = true \/ str_mem c (slice_3_5 t1) = true
         \/ str_mem c (slice_0_2 t2) = true \/ str_mem c (slice_3_5 t2) = true ->
         second_diff t1 t2 = Raise ValueError).
Proof.
  split; [exact second_diff_mmss|]. split.
  - intros t1 t2 [H | H]; apply second_diff_raises.
    + right; left. rewrite (slice_3_5_short t1 H). reflexivity.
    + right; right; right. rewrite (slice_3_5_short t2 H). reflexivity.
  - intros t1 t2 c Hbad H. apply second_diff_raises.
    destruct H as [H | [H | [H | H]]];
      [left | right; left | right; right; left | right; right; right];
      eapply py_int_bad_char; eassumption.
Qed.

Lemma second_diff_contract_witness :
  second_diff "10:00" "10:04" = Ok 4
  /\ second_diff "9:5" "10:04" = Raise ValueError
  /\ second_diff "1a:00" "10:04" = Raise ValueError.
Proof.
  destruct second_diff_contract as (Hwf & Hshort & Hbad).
  split; [|split].
  - apply (Hwf "10:00" "10:04"); reflexivity.
  - apply (Hshort "9:5" "10:04"). left. vm_compute. lia.
  - apply (Hbad "1a:00" "10:04" "a"%char); [reflexivity | left; reflexivity].
Defined.

(** C9, as stated, fails: an input of the wrong length, or with a wrong
    separator, is not rejected when the two slices can still be read. *)
Lemma second_diff_accepts_malformed :
  is_mmss "12:345" = false /\ second_diff "12:345" "00:00" = Ok 754
  /\ is_mmss "12x34" = false /\ second_diff "12x34" "00:00" = Ok 754
  /\ is_mmss "12:3" = false /\ second_diff "12:3" "00:00" = Ok 723
  /\ is_mmss "-5:30" = false /\ second_diff "-5:30" "00:00" = Ok 270.
Proof. repeat split. Qed.

(** ** ContextClassifier: danger zone *)

Lemma Zrange_In (lo : Z) (n : nat) (z : Z) :
  lo <= z < lo + Z.of_nat n -> In z (Zrange lo n).
Proof.
  intros H. unfold Zrange. apply in_map_iff.
  exists (Z.to_nat (z - lo)). split; [lia|].
  apply in_seq. lia.
Qed.

(** On the integer points of the band [69 <= |x| <= 89], [6 < |y| <= 22] the
    binary64 comparison decides exactly as the real one. *)
Lemma boundary_table :
  forallb (fun x => forallb (boundary_agrees x) (Zrange 7 16)) (Zrange 69 21) = true.
Proof. vm_compute. reflexivity. Qed.

Lemma boundary_exact (x_abs y_abs : Z) :
  69 <= x_abs <= 89 -> 6 < y_abs <= 22 ->
  PrimFloat.leb (float_of_Z y_abs)
    (PrimFloat.add (PrimFloat.mul (PrimFloat.opp 0.8%float) (float_of_Z x_abs)) 77.2%float)
  = (5 * y_abs + 4 * x_abs <=? 386).
Proof.
  intros Hx Hy.
  pose proof boundary_table as T. rewrite forallb_forall in T.
  specialize (T x_abs (Zrange_In 69 21 x_abs ltac:(lia))).
  rewrite forallb_forall in T.
  specialize (T y_abs (Zrange_In 7 16 y_abs ltac:(lia))).
  unfold boundary_agrees in T. apply Bool.eqb_prop in T. exact T.
Qed.

Lemma danger_zone_high (x y : Z) :
  69 <= Z.abs x <= 89 -> Z.abs y <= 6 -> get_danger_zone x y = "high".
Proof.
  intros Hx Hy. unfold get_danger_zone.
  replace (69 <=? Z.abs x) with true by (symmetry; apply Z.leb_le; lia).
  replace (Z.abs x <=? 89) with true by (symmetry; apply Z.leb_le; lia).
  replace (Z.abs y <=? 6) with true by (symmetry; apply Z.leb_le; lia).
  reflexivity.
Qed.

Lemma danger_zone_band (x y : Z) :
  69 <= Z.abs x <= 89 -> 6 < Z.abs y <= 22 ->
  get_danger_zone x y = if 5 * Z.abs y + 4 * Z.abs x <=? 386 then "med" else "low".
Proof.
  intros Hx Hy. unfold get_danger_zone.
  replace (69 <=? Z.abs x) with true by (symmetry; apply Z.leb_le; lia).
  replace (Z.abs x <=? 89) with true by (symmetry; apply Z.leb_le; lia).
  replace (Z.abs y <=? 6) with false by (symmetry; apply Z.leb_gt; lia).
  replace (6 <? Z.abs y) with true by (symmetry; apply Z.ltb_lt; lia).
  replace (Z.abs y <=? 22) with true by (symmetry; apply Z.leb_le; lia).
  cbn [andb]. rewrite (boundary_exact _ _ Hx Hy). reflexivity.
Qed.

Lemma danger_zone_outer (x y : Z) :
  44 <= Z.abs x < 69 ->
  get_danger_zone x y = if Z.abs y <=? 22 then "med" else "low".
Proof.
  intros Hx. unfold get_danger_zone.
  replace (69 <=? Z.abs x) with false by (symmetry; apply Z.leb_gt; lia).
  replace (44 <=? Z.abs x) with true by (symmetry; apply Z.leb_le; lia).
  replace (Z.abs x <? 69) with true by (symmetry; apply Z.ltb_lt; lia).
  cbn [andb]. reflexivity.
Qed.

Lemma danger_zone_far (x y : Z) :
  89 < Z.abs x \/ Z.abs x < 44 -> get_danger_zone x y = "low".
Proof.
  intros Hx. unfold get_danger_zone.
  destruct Hx as [Hx | Hx].
  - replace (Z.abs x <=? 89) with false by (symmetry; apply Z.leb_gt; lia).
    replace (Z.abs x <? 69) with false by (symmetry; apply Z.ltb_ge; lia).
    rewrite !andb_false_r. reflexivity.
  - replace (69 <=? Z.abs x) with false by (symmetry; apply Z.leb_gt; lia).
    replace (44 <=? Z.abs x) with false by (symmetry; apply Z.leb_gt; lia).
    reflexivity.
Qed.

(** The classifier only ever answers with one of the three labels. *)
Lemma danger_zone_label (x y : Z) : is_danger_label (get_danger_zone x y).
Proof.
  unfold get_danger_zone, is_danger_label.
  repeat match goal with |- context [if ?b then _ else _] => destruct b end; auto.
Qed.

(** The real-number reading of the slanted boundary. *)
Lemma boundary_Q (x_abs y_abs : Z) :
  (inject_Z y_abs <= - (8 # 10) * inject_Z x_abs + (772 # 10))%Q
  <-> 5 * y_abs + 4 * x_abs <= 386.
Proof.
  unfold Qle, Qplus, Qmult, Qopp, inject_Z. cbn. lia.
Qed.

(** C2 (as amended): for every coordinate pair with [69 <= |x| <= 89] and
    [|y| <= 6] the danger-zone classifier returns "high"; beyond [|x| = 89]
    it returns "low". *)
Theorem danger_zone_high_band (x y : Z) :
  (69 <= Z.abs x <= 89 -> Z.abs y <= 6 -> get_danger_zone x y = "high")
  /\ (89 < Z.abs x -> get_danger_zone x y = "low").
Proof.
  split.
  - apply danger_zone_high.
  - intros H. apply danger_zone_far. left. exact H.
Qed.

Lemma danger_zone_high_band_witness :
  get_danger_zone 85 (-3) = "high" /\ get_danger_zone (-95) 2 = "low".
Proof.
  split.
  - apply (proj1 (danger_zone_high_band 85 (-3))); cbn; lia.
  - apply (proj2 (danger_zone_high_band (-95) 2)); cbn; lia.
Defined.

(** C2, as stated, fails: there is an upper bound on [|x|]. *)
Lemma danger_zone_behind_net_not_high :
  69 <= Z.abs 90 /\ Z.abs 0 <= 6 /\ get_danger_zone 90 0 = "low"
  /\ get_danger_zone 90 0 <> "high".
Proof. repeat split; try (cbn; lia). discriminate. Qed.

(** C3: in the band [69 <= |x| <= 89], [6 < |y| <= 22] the classifier
    returns "med" when [|y| <= -0.8*|x| + 77.2] and "low" otherwise; for
    [44 <= |x| < 69] it returns "med" when [|y| <= 22] and "low" when
    [|y| > 22]. *)
Theorem danger_zone_med_low (x y : Z) :
  (69 <= Z.abs x <= 89 -> 6 < Z.abs y <= 22 ->
     ((inject_Z (Z.abs y) <= - (8 # 10) * inject_Z (Z.abs x) + (772 # 10))%Q ->
        get_danger_zone x y = "med")
     /\ (~ (inject_Z (Z.abs y) <= - (8 # 10) * inject_Z (Z.abs x) + (772 # 10))%Q ->
           get_danger_zone x y = "low"))
  /\ (44 <= Z.abs x < 69 -> Z.abs y <= 22 -> get_danger_zone x y = "med")
  /\ (44 <= Z.abs x < 69 -> 22 < Z.abs y -> get_danger_zone x y = "low").
Proof.
  split; [|split].
  - intros Hx Hy. rewrite (danger_zone_band x y Hx Hy). rewrite boundary_Q. split; intros H.
    + replace (5 * Z.abs y + 4 * Z.abs x <=? 386) with true
        by (symmetry; apply Z.leb_le; lia). reflexivity.
    + replace (5 * Z.abs y + 4 * Z.abs x <=? 386) with false
        by (symmetry; apply Z.leb_gt; lia). reflexivity.
  - intros Hx Hy. rewrite (danger_zone_outer x y Hx).
    replace (Z.abs y <=? 22) with true by (symmetry; apply Z.leb_le; lia). reflexivity.
  - intros Hx Hy. rewrite (danger_zone_outer x y Hx).
    replace (Z.abs y <=? 22) with false by (symmetry; apply Z.leb_gt; lia). reflexivity.
Qed.

Lemma danger_zone_med_low_witness :
  get_danger_zone 69 22 = "med" /\ get_danger_zone (-80) 14 = "low"
  /\ get_danger_zone 50 (-22) = "med" /\ get_danger_zone (-68) 23 = "low".
Proof.
  split; [|split; [|split]].
  - apply (proj1 (proj1 (danger_zone_med_low 69 22) ltac:(cbn; lia) ltac:(cbn; lia))).
    unfold Qle. cbn. lia.
  - apply (proj2 (proj1 (danger_zone_med_low (-80) 14) ltac:(cbn; lia) ltac:(cbn; lia))).
    unfold Qle. cbn. lia.
  - apply (proj1 (proj2 (danger_zone_med_low 50 (-22)))); cbn; lia.
  - apply (proj2 (proj2 (danger_zone_med_low (-68) 23))); cbn; lia.
Defined.

(** ** ContextClassifier: rebound and rush *)

Lemma str_in_In (s : string) (l : list string) : str_in s l = true <-> In s l.
Proof.
  unfold str_in. rewrite existsb_exists. split.
  - intros (x & Hx & Heq). apply String.eqb_eq in Heq. subst. exact Hx.
  - intros H. exists s. split; [exact H | apply String.eqb_refl].
Qed.

Lemma str_in_not_In (s : string) (l : list string) : str_in s l = false <-> ~ In s l.
Proof.
  rewrite <- str_in_In. destruct (str_in s l); split; intros H; congruence.
Qed.


Lemma is_rebound_value (play prev : Play) (d : Z) :
  time_diff_of play prev = Ok d ->
  is_rebound play (Some prev)
  = Ok (b2z (((typeDescKey prev =? "blocked-shot")%string && (d <=? 2))
             || (((typeDescKey prev =? "missed-shot")%string
                  || (typeDescKey prev =? "shot-on-goal")%string) && (d <=? 3)))).
Proof.
  intros Hd. unfold is_rebound. rewrite Hd. cbn [rbind].
  destruct ((typeDescKey prev =? "blocked-shot")%string && (d <=? 2)); [reflexivity|].
  destruct (((typeDescKey prev =? "missed-shot")%string
             || (typeDescKey prev =? "shot-on-goal")%string) && (d <=? 3)); reflexivity.
Qed.

Lemma is_rebound_raises (play prev : Play) (e : exn) :
  time_diff_of play prev = Raise e -> is_rebound play (Some prev) = Raise e.
Proof. intros H. unfold is_rebound. rewrite H. reflexivity. Qed.

(** The rebound test in terms of the elapsed time the classifier computes. *)
Lemma is_rebound_by_time_diff (play : Play) :
  is_rebound play None = Ok 0
  /\ (forall prev_play : option Play,
         is_rebound play prev_play = Ok 1 <->
         exists prev d,
           prev_play = Some prev /\ time_diff_of play prev = Ok d
           /\ ((typeDescKey prev = "blocked-shot" /\ d <= 2)
               \/ ((typeDescKey prev = "missed-shot" \/ typeDescKey prev = "shot-on-goal")
                   /\ d <= 3)))
  /\ (forall (prev : Play) (d : Z),
         time_diff_of play prev = Ok d ->
         is_rebound play (Some prev) = Ok 1 \/ is_rebound play (Some prev) = Ok 0).
Proof.
  split; [reflexivity|]. split.
  - intros [prev|]; [|split; [discriminate | intros (? & ? & ? & _); discriminate]].
    destruct (time_diff_of play prev) as [d|e] eqn:Hd.
    + rewrite (is_rebound_value play prev d Hd). split.
      * intros H. exists prev, d. split; [reflexivity|]. split; [exact Hd|].
        destruct (typeDescKey prev =? "blocked-shot")%string eqn:E1;
          destruct (d <=? 2) eqn:E2; cbn in H.
        1: { left. split; [apply String.eqb_eq; exact E1 | apply Z.leb_le; exact E2]. }
        all: right;
          destruct ((typeDescKey prev =? "missed-shot")%string
                    || (typeDescKey prev =? "shot-on-goal")%string) eqn:E3;
          destruct (d <=? 3) eqn:E4; cbn in H; try discriminate H;
          (split; [|apply Z.leb_le; exact E4]);
          apply orb_prop in E3; destruct E3 as [E3 | E3]; apply String.eqb_eq in E3; auto.
      * intros (prev' & d' & Hp & Hd' & Hc). inversion Hp; subst prev'.
        assert (d' = d) by congruence. subst d'. f_equal.
        destruct Hc as [[Ht Hle] | [Ht Hle]].
        -- apply String.eqb_eq in Ht. rewrite Ht.
           replace (d <=? 2) with true by (symmetry; apply Z.leb_le; exact Hle).
           reflexivity.
        -- replace (d <=? 3) with true by (symmetry; apply Z.leb_le; exact Hle).
           assert (((typeDescKey prev =? "missed-shot")%string
                    || (typeDescKey prev =? "shot-on-goal")%string) = true) as ->.
           { destruct Ht as [Ht | Ht]; apply String.eqb_eq in Ht; rewrite Ht;
               [reflexivity | apply orb_true_r]. }
           cbn. rewrite orb_true_r. reflexivity.
    + rewrite (is_rebound_raises play prev e Hd). split; [discriminate|].
      intros (prev' & d' & Hp & Hd' & _). inversion Hp; subst prev'. congruence.
  - intros prev d Hd. rewrite (is_rebound_value play prev d Hd).
    match goal with |- context [b2z ?b] => destruct b end; cbn; auto.
Qed.

(** The elapsed time between two events is [second_diff] of their two
    timestamps, and on well-formed timestamps the absolute difference of the
    two clock readings. *)
Lemma time_diff_of_Ok (play prev : Play) (d : Z) :
  time_diff_of play prev = Ok d <->
  exists t1 t2,
    timeInPeriod play = Some t1 /\ timeInPeriod prev = Some t2 /\ second_diff t1 t2 = Ok d.
Proof.
  unfold time_diff_of.
  destruct (timeInPeriod play) as [t1|]; cbn [getitem rbind].
  - destruct (timeInPeriod prev) as [t2|]; cbn [getitem rbind].
    + split.
      * intros H. exists t1, t2. auto.
      * intros (a & b & Ha & Hb & H). inversion Ha. inversion Hb. subst. exact H.
    + split; [discriminate | intros (a & b & _ & Hb & _); discriminate Hb].
  - split; [discriminate | intros (a & b & Ha & _); discriminate Ha].
Qed.

Lemma time_diff_of_mmss (play prev : Play) (t1 t2 : string) :
  timeInPeriod play = Some t1 -> timeInPeriod prev = Some t2 ->
  is_mmss t1 = true -> is_mmss t2 = true ->
  time_diff_of play prev = Ok (Z.abs (clock_seconds t2 - clock_seconds t1)).
Proof.
  intros H1 H2 Hw1 Hw2. apply time_diff_of_Ok. exists t1, t2.
  split; [exact H1|]. split; [exact H2|]. apply second_diff_mmss; assumption.
Qed.

(** C4: the rebound test returns 0 when there is no preceding event.  It
    returns 1 exactly when there is a preceding event, both events carry a
    timestamp, [second_diff] of the two timestamps returns the elapsed time
    [d], and the preceding event is a blocked shot with [d <= 2] or a missed
    shot or shot on goal with [d <= 3].  On well-formed [MM:SS] timestamps
    the elapsed time is the absolute difference of the two clock readings in
    seconds, and the test returns 1 under that condition and 0 otherwise. *)
Theorem is_rebound_spec (play : Play) :
  is_rebound play None = Ok 0
  /\ (forall prev_play : option Play,
         is_rebound play prev_play = Ok 1 <->
         exists prev t1 t2 d,
           prev_play = Some prev
           /\ timeInPeriod play = Some t1 /\ timeInPeriod prev = Some t2
           /\ second_diff t1 t2 = Ok d
           /\ ((typeDescKey prev = "blocked-shot" /\ d <= 2)
               \/ ((typeDescKey prev = "missed-shot" \/ typeDescKey prev = "shot-on-goal")
                   /\ d <= 3)))
  /\ (forall (prev : Play) (t1 t2 : string),
         timeInPeriod play = Some t1 -> timeInPeriod prev = Some t2 ->
         is_mmss t1 = true -> is_mmss t2 = true ->
         (is_rebound play (Some prev) = Ok 1 <->
          (typeDescKey prev = "blocked-shot"
           /\ Z.abs (clock_seconds t2 - clock_seconds t1) <= 2)
          \/ ((typeDescKey prev = "missed-shot" \/ typeDescKey prev = "shot-on-goal")
              /\ Z.abs (clock_seconds t2 - clock_seconds t1) <= 3))
         /\ (is_rebound play (Some prev) = Ok 1 \/ is_rebound play (Some prev) = Ok 0)).
Proof.
  destruct (is_rebound_by_time_diff play) as (Hnone & Hiff & Htot).
  split; [exact Hnone|]. split.
  - intros prev_play. rewrite Hiff. split.
    + intros (prev & d & Hp & Hd & Hc). apply time_diff_of_Ok in Hd.
      destruct Hd as (t1 & t2 & H1 & H2 & Hd). exists prev, t1, t2, d. auto.
    + intros (prev & t1 & t2 & d & Hp & H1 & H2 & Hd & Hc). exists prev, d.
      split; [exact Hp|]. split; [|exact Hc]. apply time_diff_of_Ok. exists t1, t2. auto.
  - intros prev t1 t2 H1 H2 Hw1 Hw2.
    pose proof (time_diff_of_mmss play prev t1 t2 H1 H2 Hw1 Hw2) as Hd.
    split; [|exact (Htot prev _ Hd)].
    rewrite Hiff. split.
    + intros (prev' & d & Hp & Hd' & Hc). inversion Hp; subst prev'.
      rewrite Hd in Hd'. inversion Hd'; subst d. exact Hc.
    + intros Hc. exists prev, (Z.abs (clock_seconds t2 - clock_seconds t1)). auto.
Qed.

Lemma is_rebound_spec_witness :
  is_rebound rush_shot (Some prev_miss) = Ok 1
  /\ is_rebound rush_shot (Some prev_miss_far) = Ok 0
  /\ is_rebound rush_shot (Some prev_block) = Ok 1
  /\ is_rebound rush_shot (Some prev_block_far) = Ok 0.
Proof.
  destruct (is_rebound_spec rush_shot) as (_ & _ & Hwf).
  split; [|split; [|split]].
  - apply (proj1 (Hwf prev_miss "10:03" "10:00" eq_refl eq_refl eq_refl eq_refl)).
    right. split; [left; reflexivity | vm_compute; discriminate].
  - destruct (Hwf prev_miss_far "10:03" "09:59" eq_refl eq_refl eq_refl eq_refl)
      as [Hiff [H1 | H0]]; [|exact H0].
    exfalso. apply Hiff in H1. destruct H1 as [[Ht _] | [_ Hle]];
      [discriminate Ht | vm_compute in Hle; apply Hle; reflexivity].
  - apply (proj1 (Hwf prev_block "10:03" "10:01" eq_refl eq_refl eq_refl eq_refl)).
    left. split; [reflexivity | vm_compute; discriminate].
  - destruct (Hwf prev_block_far "10:03" "10:00" eq_refl eq_refl eq_refl eq_refl)
      as [Hiff [H1 | H0]]; [|exact H0].
    exfalso. apply Hiff in H1. destruct H1 as [[_ Hle] | [[Ht | Ht] _]];
      [vm_compute in Hle; apply Hle; reflexivity | discriminate Ht | discriminate Ht].
Defined.









(** ** State relations kept by the extractor *)

Section Respects.

Variable R : State -> State -> Prop.
Hypothesis R_refl : forall st, R st st.
Hypothesis R_trans : forall a b c, R a b -> R b c -> R a c.

Lemma respects_ret {A : Type} (a : A) : respects R (ret a).
Proof. intros st. apply R_refl. Qed.

Lemma respects_continue {A : Type} : respects R (@continue A).
Proof. intros st. apply R_refl. Qed.

Lemma respects_pure_of {A : Type} (r : result A) : respects R (pure_of r).
Proof. intros st. unfold pure_of. destruct r; apply R_refl. Qed.

Lemma respects_bind {A B : Type} (m : M A) (k : A -> M B) :
  respects R m -> (forall a, respects R (k a)) -> respects R (bind m k).
Proof.
  intros Hm Hk st. unfold bind. specialize (Hm st).
  destruct (m st) as [st' [a | | e]]; cbn in *; [|assumption|assumption].
  eapply R_trans; [exact Hm | apply Hk].
Qed.

Lemma respects_call_of {A : Type} (f : State -> State * result A) :
  (forall st, R st (fst (f st))) -> respects R (call_of f).
Proof.
  intros Hf st. unfold call_of. specialize (Hf st).
  destruct (f st) as [st' [a | e]]; exact Hf.
Qed.

Lemma respects_py_and (a : bool) (b : M bool) : respects R b -> respects R (py_and a b).
Proof. intros Hb. unfold py_and. destruct a; [exact Hb | apply respects_ret]. Qed.

Lemma respects_py_or (a b : M bool) :
  respects R a -> respects R b -> respects R (py_or a b).
Proof.
  intros Ha Hb. unfold py_or. apply respects_bind; [exact Ha|].
  intros []; [apply respects_ret | exact Hb].
Qed.

Variable player_career_stats : list ext_call -> Z -> result PlayerInfo.
Hypothesis R_lookup :
  forall pid st, R st (fst (get_player_stats player_career_stats pid st)).

Ltac respects_step :=
  first
    [ apply respects_ret
    | apply respects_continue
    | apply respects_pure_of
    | apply respects_call_of; intros; apply R_lookup
    | apply respects_py_or
    | apply respects_py_and
    | apply respects_bind; [|intros ?] ].

Lemma process_play_respects (gid home_id away_id : Z) (pbp : list Play) (idx : nat)
    (play : Play) :
  respects R (process_play player_career_stats gid home_id away_id pbp idx play).
Proof.
  unfold process_play, situation_skip, goalie_lookup.
  repeat first
    [ respects_step
    | match goal with
      | |- respects R (match ?x with _ => _ end) => destruct x
      | |- respects R (if ?x then _ else _) => destruct x
      end ].
Qed.

Lemma plays_loop_respects (gid home_id away_id : Z) (pbp : list Play) :
  forall (rest : list Play) (idx : nat) (rows : list ShotRecord) (st : State),
    R st (fst (plays_loop player_career_stats gid home_id away_id pbp idx rest rows st)).
Proof.
  induction rest as [|play rest IH]; intros idx rows st; cbn [plays_loop]; [apply R_refl|].
  destruct (negb (str_in (typeDescKey play) qualifying)); [apply IH|].
  pose proof (process_play_respects gid home_id away_id pbp idx play st) as Hp.
  destruct (process_play player_career_stats gid home_id away_id pbp idx play st)
    as [st' [row | | e]]; cbn in Hp; (eapply R_trans; [exact Hp | apply IH]).
Qed.

End Respects.

(** ** ShotEventExtractor: a failed fetch *)

Section FetchFailure.

Variable player_career_stats : list ext_call -> Z -> result PlayerInfo.
Variable play_by_play : list ext_call -> Z -> result GameData.

Lemma lookup_same_fetches (pid : Z) (st : State) :
  same_fetches st (fst (get_player_stats player_career_stats pid st)).
Proof.
  unfold same_fetches, get_player_stats.
  destruct (player_dict st !! pid).
  - destruct (player_stats_cache st !! pid); reflexivity.
  - destruct (player_career_stats (trace st) pid) as [info|e];
      [destruct (player_entry info) as [[name stats]|e]|]; reflexivity.
Qed.

Lemma plays_loop_same_fetches (gid home_id away_id : Z) (pbp rest : list Play)
    (idx : nat) (rows : list ShotRecord) (st : State) :
  same_fetches st
    (fst (plays_loop player_career_stats gid home_id away_id pbp idx rest rows st)).
Proof.
  apply plays_loop_respects.
  - intros s. reflexivity.
  - intros a b c Hab Hbc. unfold same_fetches in *. congruence.
  - apply lookup_same_fetches.
Qed.

(** A run in which no fetch fails leaves no failed fetch in the trace. *)
Lemma games_loop_failed (game_ids : list Z) :
  forall (rows : list ShotRecord) (st : State),
    fetch_failed (trace st) = false ->
    fetch_failed
      (trace (fst (games_loop player_career_stats play_by_play game_ids rows st))) = true ->
    snd (games_loop player_career_stats play_by_play game_ids rows st) = NoColumns.
Proof.
  induction game_ids as [|gid rest IH]; intros rows st Hst Hend; cbn [games_loop] in *.
  - cbn in Hend. congruence.
  - destruct (play_by_play (trace st) gid) as [game_data | e]; [|reflexivity].
    pose proof (plays_loop_same_fetches gid (homeTeam_id game_data) (awayTeam_id game_data)
                  (plays game_data) (plays game_data) 0 rows
                  (log_call (GameCall gid (is_ok (Ok game_data))) st)) as Hsame.
    destruct (plays_loop player_career_stats gid (homeTeam_id game_data)
                (awayTeam_id game_data) (plays game_data) 0 (plays game_data) rows
                (log_call (GameCall gid (is_ok (Ok game_data))) st)) as [st2 rows'].
    cbn [fst] in Hsame. apply IH; [|exact Hend].
    unfold same_fetches in Hsame. rewrite Hsame. cbn. exact Hst.
Qed.

(** A game whose fetch raises whenever it is tried ends the run. *)
Lemma games_loop_failing_game (game_ids : list Z) (g : Z) :
  In g game_ids ->
  (forall tr, is_ok (play_by_play tr g) = false) ->
  forall (rows : list ShotRecord) (st : State),
    snd (games_loop player_career_stats play_by_play game_ids rows st) = NoColumns.
Proof.
  intros Hin Hfail.
  induction game_ids as [|gid rest IH]; intros rows st; [destruct Hin|].
  cbn [games_loop].
  destruct (play_by_play (trace st) gid) as [game_data | e] eqn:Ea; [|reflexivity].
  destruct Hin as [-> | Hin].
  - specialize (Hfail (trace st)). rewrite Ea in Hfail. discriminate.
  - destruct (plays_loop player_career_stats gid (homeTeam_id game_data)
                (awayTeam_id game_data) (plays game_data) 0 (plays game_data) rows
                (log_call (GameCall gid (is_ok (Ok game_data))) st)) as [st2 rows'].
    apply IH. exact Hin.
Qed.

(** C6: if the fetch of a game's play sequence fails during a run, the
    extractor returns the empty table, whatever rows the games before had
    given: both when a fetch is seen to fail in the trace of the run, and
    when a game in the list is one whose fetch fails whenever it is tried. *)
Theorem fetch_failure_returns_empty (game_ids : list Z) (st : State) :
  (fetch_failed (trace st) = false ->
   fetch_failed
     (trace (fst (scrape_fenwick_shots player_career_stats play_by_play game_ids st))) = true ->
   snd (scrape_fenwick_shots player_career_stats play_by_play game_ids st) = NoColumns)
  /\ (forall g : Z,
         In g game_ids ->
         (forall tr, is_ok (play_by_play tr g) = false) ->
         snd (scrape_fenwick_shots player_career_stats play_by_play game_ids st) = NoColumns).
Proof.
  unfold scrape_fenwick_shots. split.
  - apply games_loop_failed.
  - intros g Hin Hfail. eapply games_loop_failing_game; eassumption.
Qed.

End FetchFailure.

Lemma fetch_failure_returns_empty_witness :
  snd (scrape_fenwick_shots roster schedule [100; 999] init_state) = NoColumns
  /\ snd (scrape_fenwick_shots roster schedule [100; 101; 7] init_state) = NoColumns
  /\ snd (scrape_fenwick_shots roster schedule [100] init_state) = Frame [kept_row].
Proof.
  split; [|split].
  - apply (proj1 (fetch_failure_returns_empty roster schedule [100; 999] init_state));
      vm_compute; reflexivity.
  - apply (proj2 (fetch_failure_returns_empty roster schedule [100; 101; 7] init_state) 7).
    + cbn. auto.
    + intros tr. reflexivity.
  - vm_compute. reflexivity.
Defined.

(** ** PlayerStatsCache *)

Section Cache.

Variable player_career_stats : list ext_call -> Z -> result PlayerInfo.

Lemma cache_inv_init : cache_inv init_state.
Proof.
  intros pid. cbn. rewrite !lookup_empty. split; intros [? H]; discriminate H.
Qed.

Lemma get_player_stats_hit (pid : Z) (st : State) (name : string) (stats : stats_triple) :
  player_dict st !! pid = Some name -> player_stats_cache st !! pid = Some stats ->
  get_player_stats player_career_stats pid st = (st, Ok (name, stats)).
Proof. intros Hn Hs. unfold get_player_stats. rewrite Hn, Hs. reflexivity. Qed.

(** What a lookup returns is in the cache afterwards. *)
Lemma get_player_stats_stored (pid : Z) (st st' : State) (name : string)
    (stats : stats_triple) :
  get_player_stats player_career_stats pid st = (st', Ok (name, stats)) ->
  player_dict st' !! pid = Some name /\ player_stats_cache st' !! pid = Some stats.
Proof.
  unfold get_player_stats.
  destruct (player_dict st !! pid) as [n|] eqn:En.
  - destruct (player_stats_cache st !! pid) as [s|] eqn:Es; intros H; inversion H; subst.
    split; assumption.
  - destruct (player_career_stats (trace st) pid) as [info|e]; [|discriminate].
    destruct (player_entry info) as [[n s]|e]; intros H; inversion H; subst.
    cbn. rewrite !lookup_insert_eq. split; reflexivity.
Qed.

Lemma get_player_stats_keeps (q pid : Z) (name : string) (stats : stats_triple) (st : State) :
  keeps_entry pid name stats st (fst (get_player_stats player_career_stats q st)).
Proof.
  unfold keeps_entry, get_player_stats. intros [Hn Hs].
  destruct (player_dict st !! q) as [n|] eqn:En.
  - destruct (player_stats_cache st !! q); cbn; split; assumption.
  - assert (q <> pid) as Hne by (intros ->; congruence).
    destruct (player_career_stats (trace st) q) as [info|e]; cbn; [|split; assumption].
    destruct (player_entry info) as [[n s]|e]; cbn; [|split; assumption].
    rewrite !lookup_insert_ne by exact Hne. split; assumption.
Qed.

(** A lookup leaves the two maps with the same keys. *)
Lemma get_player_stats_inv (q : Z) (st : State) :
  carries_inv st (fst (get_player_stats player_career_stats q st)).
Proof.
  unfold carries_inv, get_player_stats. intros Hinv.
  destruct (player_dict st !! q) as [n|] eqn:En.
  - destruct (player_stats_cache st !! q); exact Hinv.
  - destruct (player_career_stats (trace st) q) as [info|e]; cbn [fst]; [|exact Hinv].
    destruct (player_entry info) as [[n s]|e]; cbn [fst]; [|exact Hinv].
    intros pid. cbn [player_dict player_stats_cache log_call].
    destruct (decide (q = pid)) as [-> | Hne].
    + rewrite !lookup_insert_eq. split; eauto.
    + rewrite !lookup_insert_ne by exact Hne. apply Hinv.
Qed.

Lemma player_calls_other (pid q : Z) (b : bool) (tr : list ext_call) :
  q <> pid -> player_calls pid (PlayerCall q b :: tr) = player_calls pid tr.
Proof.
  intros Hne. cbn [player_calls].
  replace (q =? pid) with false by (symmetry; apply Z.eqb_neq; exact Hne). reflexivity.
Qed.

(** Once an id is cached, a lookup of any id makes no call for it. *)
Lemma get_player_stats_quiet (q pid : Z) (st : State) :
  cached_quiet pid st (fst (get_player_stats player_career_stats q st)).
Proof.
  unfold cached_quiet, get_player_stats. intros [[n Hn] [c Hc]].
  destruct (player_dict st !! q) as [m|] eqn:En.
  - destruct (player_stats_cache st !! q); cbn [fst]; rewrite Hn, Hc; eauto.
  - assert (q <> pid) as Hne by (intros ->; congruence).
    destruct (player_career_stats (trace st) q) as [info|e]; cbn [fst].
    + destruct (player_entry info) as [[m s]|e]; cbn [fst player_dict player_stats_cache
                                                      trace log_call].
      * rewrite !lookup_insert_ne by exact Hne. rewrite Hn, Hc.
        rewrite (player_calls_other pid q _ _ Hne). eauto.
      * rewrite Hn, Hc. rewrite (player_calls_other pid q _ _ Hne). eauto.
    + cbn [player_dict player_stats_cache trace log_call].
      rewrite Hn, Hc. rewrite (player_calls_other pid q _ _ Hne). eauto.
Qed.

(** With a provider that is reliable for an id, a lookup keeps the count of
    calls for that id at 0 until it is cached, and at 1 from then on. *)
Lemma get_player_stats_calls_inv (q pid : Z) (st : State) :
  reliable_for player_career_stats pid ->
  carries_calls_inv pid st (fst (get_player_stats player_career_stats q st)).
Proof.
  unfold carries_calls_inv, calls_inv, get_player_stats. intros Hrel [Hzero Hle].
  destruct (player_dict st !! q) as [m|] eqn:En.
  - destruct (player_stats_cache st !! q); cbn [fst]; auto.
  - destruct (decide (q = pid)) as [-> | Hne].
    + destruct (Hrel (trace st)) as (info & entry & Hans & Hentry).
      rewrite Hans, Hentry. destruct entry as [name stats].
      cbn [fst player_dict trace log_call player_calls]. rewrite Z.eqb_refl.
      rewrite lookup_insert_eq. rewrite (Hzero En). split; [discriminate | lia].
    + destruct (player_career_stats (trace st) q) as [info|e]; cbn [fst].
      * destruct (player_entry info) as [[m s]|e];
          cbn [fst player_dict trace log_call];
          rewrite ?lookup_insert_ne by exact Hne;
          rewrite (player_calls_other pid q _ _ Hne); auto.
      * cbn [player_dict trace log_call].
        rewrite (player_calls_other pid q _ _ Hne). auto.
Qed.

Lemma calls_inv_init (pid : Z) : calls_inv pid init_state.
Proof. split; cbn; [reflexivity | lia]. Qed.

Lemma lookups_keeps (pid : Z) (name : string) (stats : stats_triple) (pids : list Z) :
  forall st, keeps_entry pid name stats st (lookups player_career_stats pids st).
Proof.
  induction pids as [|q pids IH]; intros st H; cbn [lookups]; [exact H|].
  apply IH. apply get_player_stats_keeps. exact H.
Qed.

Lemma lookups_quiet (pid : Z) (pids : list Z) :
  forall st, cached_quiet pid st (lookups player_career_stats pids st).
Proof.
  induction pids as [|q pids IH]; intros st H; cbn [lookups].
  - destruct H as [Hd Hc]. auto.
  - destruct (get_player_stats_quiet q pid st H) as (Hd & Hc & Heq).
    destruct (IH _ (conj Hd Hc)) as (Hd' & Hc' & Heq').
    split; [exact Hd'|]. split; [exact Hc' | congruence].
Qed.

Lemma lookups_calls_inv (pid : Z) (pids : list Z) :
  reliable_for player_career_stats pid ->
  forall st, carries_calls_inv pid st (lookups player_career_stats pids st).
Proof.
  intros Hrel. induction pids as [|q pids IH]; intros st H; cbn [lookups]; [exact H|].
  apply IH. apply get_player_stats_calls_inv; assumption.
Qed.

Variable play_by_play : list ext_call -> Z -> result GameData.

(** A relation that every lookup and every logged fetch keeps is kept by a
    run of the extractor. *)
Lemma games_loop_respects (R : State -> State -> Prop) :
  (forall st, R st st) ->
  (forall a b c, R a b -> R b c -> R a c) ->
  (forall pid st, R st (fst (get_player_stats player_career_stats pid st))) ->
  (forall gid b st, R st (log_call (GameCall gid b) st)) ->
  forall (game_ids : list Z) (rows : list ShotRecord) (st : State),
    R st (fst (games_loop player_career_stats play_by_play game_ids rows st)).
Proof.
  intros Hrefl Htrans Hlookup Hlog.
  induction game_ids as [|gid rest IH]; intros rows st; cbn [games_loop]; [apply Hrefl|].
  destruct (play_by_play (trace st) gid) as [game_data | e]; [|apply Hlog].
  pose proof (plays_loop_respects R Hrefl Htrans player_career_stats Hlookup
                gid (homeTeam_id game_data) (awayTeam_id game_data) (plays game_data)
                (plays game_data) 0 rows
                (log_call (GameCall gid (is_ok (Ok game_data))) st)) as Hp.
  destruct (plays_loop player_career_stats gid (homeTeam_id game_data)
              (awayTeam_id game_data) (plays game_data) 0 (plays game_data) rows
              (log_call (GameCall gid (is_ok (Ok game_data))) st)) as [st2 rows'].
  cbn [fst] in Hp.
  eapply Htrans; [apply Hlog|]. eapply Htrans; [exact Hp | apply IH].
Qed.

Lemma games_loop_quiet (pid : Z) (game_ids : list Z) (rows : list ShotRecord) (st : State) :
  cached_quiet pid st (fst (games_loop player_career_stats play_by_play game_ids rows st)).
Proof.
  apply games_loop_respects.
  - intros s [Hd Hc]. auto.
  - intros a b c Hab Hbc H. destruct (Hab H) as (Hd & Hc & Heq).
    destruct (Hbc (conj Hd Hc)) as (Hd' & Hc' & Heq').
    split; [exact Hd'|]. split; [exact Hc' | congruence].
  - intros q s. apply get_player_stats_quiet.
  - intros gid b s [Hd Hc]. cbn. auto.
Qed.

Lemma games_loop_calls_inv (pid : Z) (game_ids : list Z) (rows : list ShotRecord)
    (st : State) :
  reliable_for player_career_stats pid ->
  carries_calls_inv pid st
    (fst (games_loop player_career_stats play_by_play game_ids rows st)).
Proof.
  intros Hrel. apply games_loop_respects.
  - intros s H. exact H.
  - intros a b c Hab Hbc H. apply Hbc, Hab, H.
  - intros q s. apply get_player_stats_calls_inv. exact Hrel.
  - intros gid b s H. exact H.
Qed.

(** C7 (as amended): when a lookup returns a pair of display name and
    stats triple, every later lookup of the same id, after any run of
    lookups, returns that pair and leaves the state as it is; once an id is
    cached, no run of lookups and no run of the extractor calls the provider
    for it again; and when the provider answers every call for an id with a
    record that has all the keys read, at most one call is made for that id,
    over any run of lookups and any run of the extractor from a fresh
    scraper. *)
Theorem player_stats_cached_once :
  (forall (st st' : State) (pid : Z) (v : string * stats_triple),
      get_player_stats player_career_stats pid st = (st', Ok v) ->
      forall pids : list Z,
        get_player_stats player_career_stats pid (lookups player_career_stats pids st')
        = (lookups player_career_stats pids st', Ok v))
  /\ (forall (st : State) (pid : Z),
         is_Some (player_dict st !! pid) -> is_Some (player_stats_cache st !! pid) ->
         (forall pids : list Z,
             player_calls pid (trace (lookups player_career_stats pids st))
             = player_calls pid (trace st))
         /\ (forall game_ids : list Z,
                player_calls pid
                  (trace (fst (scrape_fenwick_shots player_career_stats play_by_play
                                 game_ids st)))
                = player_calls pid (trace st)))
  /\ (forall pid : Z,
         reliable_for player_career_stats pid ->
         (forall pids : list Z,
             (player_calls pid (trace (lookups player_career_stats pids init_state))
              <= 1)%nat)
         /\ (forall game_ids : list Z,
                (player_calls pid
                   (trace (fst (scrape_fenwick_shots player_career_stats play_by_play
                                  game_ids init_state))) <= 1)%nat)).
Proof.
  split; [|split].
  - intros st st' pid [name stats] Hget pids.
    destruct (lookups_keeps pid name stats pids st'
                (get_player_stats_stored pid st st' name stats Hget)) as [Hn Hs].
    apply get_player_stats_hit; assumption.
  - intros st pid Hd Hc. split.
    + intros pids. apply (lookups_quiet pid pids st (conj Hd Hc)).
    + intros game_ids. unfold scrape_fenwick_shots.
      apply (games_loop_quiet pid game_ids [] st (conj Hd Hc)).
  - intros pid Hrel. split.
    + intros pids. apply (lookups_calls_inv pid pids Hrel init_state (calls_inv_init pid)).
    + intros game_ids. unfold scrape_fenwick_shots.
      apply (games_loop_calls_inv pid game_ids [] init_state Hrel (calls_inv_init pid)).
Qed.

End Cache.

Lemma player_stats_cached_once_witness :
  get_player_stats roster 11 (lookups roster [30; 7; 11] (fst (get_player_stats roster 11 init_state)))
  = (lookups roster [30; 7; 11] (fst (get_player_stats roster 11 init_state)),
     Ok ("Ada Shooter", (Some "C", Some "L", Some (12 # 100))))
  /\ Nat.le (player_calls 11 (trace (lookups roster [11; 30; 7; 11; 11] init_state))) 1%nat
  /\ player_calls 11
       (trace (fst (scrape_fenwick_shots roster schedule [100; 103]
                      (fst (get_player_stats roster 11 init_state)))))
     = player_calls 11 (trace (fst (get_player_stats roster 11 init_state))).
Proof.
  destruct (player_stats_cached_once roster schedule) as (Hagain & Hquiet & Honce).
  split; [|split].
  - apply (Hagain init_state (fst (get_player_stats roster 11 init_state)) 11
             ("Ada Shooter", (Some "C", Some "L", Some (12 # 100)))).
    vm_compute. reflexivity.
  - apply (proj1 (Honce 11
                    (fun tr => ex_intro _ shooter_info
                                 (ex_intro _ ("Ada Shooter", (Some "C", Some "L", Some (12 # 100)))
                                    (conj eq_refl eq_refl))))).
  - apply (proj2 (Hquiet (fst (get_player_stats roster 11 init_state)) 11
                    ltac:(vm_compute; eexists; reflexivity)
                    ltac:(vm_compute; eexists; reflexivity))).
Defined.

(** C7, as stated, fails: a lookup that raises stores nothing, so the next
    lookup of the same id calls the provider again; that is so when the
    provider call raises, and when the provider answers with a record that
    lacks a key the lookup reads. *)
Lemma failed_lookup_calls_again :
  snd (get_player_stats roster_down 7 init_state) = Raise ProviderError
  /\ player_calls 7 (trace (lookups roster_down [7; 7] init_state)) = 2%nat
  /\ answered_calls 7 (trace (lookups roster_down [7; 7] init_state)) = 0%nat
  /\ snd (get_player_stats roster_partial 7 init_state) = Raise KeyError
  /\ player_calls 7 (trace (lookups roster_partial [7; 7] init_state)) = 2%nat
  /\ answered_calls 7 (trace (lookups roster_partial [7; 7] init_state)) = 2%nat.
Proof. vm_compute. repeat split. Qed.

(** ** ShotEventExtractor: the situation test *)

Lemma bind_Ret {A B : Type} (m : M A) (k : A -> M B) (st st' : State) (a : A) :
  m st = (st', Ret a) -> bind m k st = k a st'.
Proof. intros H. unfold bind. rewrite H. reflexivity. Qed.

Lemma pure_of_Ok {A : Type} (r : result A) (a : A) (st : State) :
  r = Ok a -> pure_of r st = (st, Ret a).
Proof. intros ->. reflexivity. Qed.

Lemma call_of_Ok {A : Type} (f : State -> State * result A) (st st' : State) (a : A) :
  f st = (st', Ok a) -> call_of f st = (st', Ret a).
Proof. intros H. unfold call_of. rewrite H. reflexivity. Qed.

Lemma get_3_get_0 (code : string) (c : ascii) :
  String.get 3 code = Some c -> exists c0, String.get 0 code = Some c0.
Proof. destruct code as [|c0 code]; cbn; [discriminate | eauto]. Qed.

(** The skip test holds when the owner is the home team and the first
    character of the situation code is "0", or the owner is the away team
    and the fourth character is "0". *)
Lemma situation_skip_true (play : Play) (code : string) (home_flag away_flag : Z) (st : State) :
  situationCode play = Some code ->
  (home_flag = 1 /\ String.get 0 code = Some "0"%char)
  \/ (away_flag = 1 /\ String.get 3 code = Some "0"%char) ->
  situation_skip play home_flag away_flag st = (st, Ret true).
Proof.
  intros Hcode Hgate.
  unfold situation_skip, py_or, py_and, situation_char, str_index, bind, pure_of, ret.
  rewrite Hcode. cbn [getitem rbind].
  destruct Hgate as [[-> H0] | [-> H3]].
  - rewrite H0. reflexivity.
  - destruct (get_3_get_0 code _ H3) as [c0 H0]. rewrite H0, H3.
    destruct (home_flag =? 1); [destruct (Ascii.eqb c0 "0")|]; reflexivity.
Qed.

(** It fails when neither holds, provided the code has its four characters. *)
Lemma situation_skip_false (play : Play) (code : string) (home_flag away_flag : Z) (st : State) :
  situationCode play = Some code -> String.length code = 4%nat ->
  ~ ((home_flag = 1 /\ String.get 0 code = Some "0"%char)
     \/ (away_flag = 1 /\ String.get 3 code = Some "0"%char)) ->
  situation_skip play home_flag away_flag st = (st, Ret false).
Proof.
  intros Hcode Hlen Hgate.
  unfold situation_skip, py_or, py_and, situation_char, str_index, bind, pure_of, ret.
  rewrite Hcode. cbn [getitem rbind].
  destruct code as [|c0 [|c1 [|c2 [|c3 [|? ?]]]]]; try discriminate Hlen.
  cbn [String.get Nat.eqb] in *.
  assert ((home_flag =? 1) = true -> Ascii.eqb c0 "0" = false) as Hh.
  { intros E. apply Z.eqb_eq in E. destruct (Ascii.eqb c0 "0") eqn:E0; [|reflexivity].
    apply Ascii.eqb_eq in E0. subst. exfalso. apply Hgate. left. split; reflexivity. }
  assert ((away_flag =? 1) = true -> Ascii.eqb c3 "0" = false) as Ha.
  { intros E. apply Z.eqb_eq in E. destruct (Ascii.eqb c3 "0") eqn:E3; [|reflexivity].
    apply Ascii.eqb_eq in E3. subst. exfalso. apply Hgate. right. split; reflexivity. }
  destruct (home_flag =? 1); [rewrite Hh by reflexivity|];
    (destruct (away_flag =? 1); [rewrite Ha by reflexivity|]); reflexivity.
Qed.

Section Gate.

Variable player_career_stats : list ext_call -> Z -> result PlayerInfo.

Lemma process_play_skipped (gid home_id away_id : Z) (pbp : list Play) (idx : nat)
    (play : Play) (det : Details) (team : Z) (side code : string) (st : State) :
  details play = Some det -> eventOwnerTeamId det = Some team ->
  homeTeamDefendingSide play = Some side -> situationCode play = Some code ->
  (b2z (team =? home_id) = 1 /\ String.get 0 code = Some "0"%char)
  \/ (b2z (team =? away_id) = 1 /\ String.get 3 code = Some "0"%char) ->
  process_play player_career_stats gid home_id away_id pbp idx play st = (st, Continue).
Proof.
  intros Hdet Hteam Hside Hcode Hgate. unfold process_play.
  rewrite (bind_Ret _ _ st st det) by (apply pure_of_Ok; rewrite Hdet; reflexivity).
  rewrite (bind_Ret _ _ st st team) by (apply pure_of_Ok; rewrite Hteam; reflexivity).
  cbv zeta.
  rewrite (bind_Ret _ _ st st side) by (apply pure_of_Ok; rewrite Hside; reflexivity).
  rewrite (bind_Ret _ _ st st true) by (eapply situation_skip_true; eassumption).
  reflexivity.
Qed.

Lemma process_play_emitted (gid home_id away_id : Z) (pbp : list Play) (idx : nat)
    (play : Play) (det : Details) (team : Z) (side code : string) (st st1 st2 : State)
    (sid : Z) (name : string) (stats : stats_triple) (rb ru x y hs aws : Z)
    (c1 c2 : ascii) (keeper : option string * stats_triple) :
  details play = Some det -> eventOwnerTeamId det = Some team ->
  homeTeamDefendingSide play = Some side -> situationCode play = Some code ->
  String.length code = 4%nat ->
  ~ ((b2z (team =? home_id) = 1 /\ String.get 0 code = Some "0"%char)
     \/ (b2z (team =? away_id) = 1 /\ String.get 3 code = Some "0"%char)) ->
  (if (typeDescKey play =? "goal")%string then scoringPlayerId det else shootingPlayerId det)
  = Some sid ->
  get_player_stats player_career_stats sid st = (st1, Ok (name, stats)) ->
  is_rebound play (match idx with O => None | S i => pbp !! i end) = Ok rb ->
  is_rush play (match idx with O => None | S i => pbp !! i end) = Ok ru ->
  xCoord det = Some x -> yCoord det = Some y ->
  String.get 2 code = Some c2 -> py_int (String c2 EmptyString) = Ok hs ->
  String.get 1 code = Some c1 -> py_int (String c1 EmptyString) = Ok aws ->
  goalie_lookup player_career_stats (goalieInNetId det) st1 = (st2, Ret keeper) ->
  exists row,
    process_play player_career_stats gid home_id away_id pbp idx play st = (st2, Ret row)
    /\ home row = b2z (team =? home_id)
    /\ home_skaters row = hs /\ away_skaters row = aws
    /\ rebound row = rb /\ rush row = ru
    /\ danger_zone row = get_danger_zone x y
    /\ shot_class row = typeDescKey play.
Proof.
  intros Hdet Hteam Hside Hcode Hlen Hgate Hsid Hget Hrb Hru Hx Hy Hc2 Hhs Hc1 Haws Hkeep.
  unfold process_play.
  rewrite (bind_Ret _ _ st st det) by (apply pure_of_Ok; rewrite Hdet; reflexivity).
  rewrite (bind_Ret _ _ st st team) by (apply pure_of_Ok; rewrite Hteam; reflexivity).
  cbv zeta.
  rewrite (bind_Ret _ _ st st side) by (apply pure_of_Ok; rewrite Hside; reflexivity).
  rewrite (bind_Ret _ _ st st false) by (eapply situation_skip_false; eassumption).
  rewrite Hsid.
  rewrite (bind_Ret _ _ st st1 (name, stats)) by (apply call_of_Ok; exact Hget).
  rewrite (bind_Ret _ _ st1 st1 rb) by (apply pure_of_Ok; exact Hrb).
  rewrite (bind_Ret _ _ st1 st1 ru) by (apply pure_of_Ok; exact Hru).
  rewrite Hx, Hy.
  rewrite (bind_Ret _ _ st1 st1 c2)
    by (apply pure_of_Ok; unfold situation_char, str_index; rewrite Hcode; cbn; rewrite Hc2;
        reflexivity).
  rewrite (bind_Ret _ _ st1 st1 hs) by (apply pure_of_Ok; exact Hhs).
  rewrite (bind_Ret _ _ st1 st1 c1)
    by (apply pure_of_Ok; unfold situation_char, str_index; rewrite Hcode; cbn; rewrite Hc1;
        reflexivity).
  rewrite (bind_Ret _ _ st1 st1 aws) by (apply pure_of_Ok; exact Haws).
  rewrite (bind_Ret _ _ st1 st2 keeper) by exact Hkeep.
  destruct keeper as [goalie_name goalie_stats]. unfold ret.
  eexists. split; [reflexivity|]. cbn. repeat split; reflexivity.
Qed.

End Gate.

(** C1 (as amended): for a qualifying event that carries its details, an
    owner team, a defending side and a situation code, the extractor skips
    the event at the situation test, emitting no record and making no
    lookup, when [home = 1] and the first character of the situation code is
    "0", or [away = 1] and its fourth character is "0".  When neither holds
    and the rest of the event resolves (shooter, context flags, coordinates,
    skater digits, goaltender), a record is emitted, with [home_skaters] read
    from the third character and [away_skaters] from the second: the skater
    digits take no part in the test. *)
Theorem situation_test_decides_skip
    (player_career_stats : list ext_call -> Z -> result PlayerInfo)
    (gid home_id away_id : Z) (pbp : list Play) (idx : nat)
    (play : Play) (det : Details) (team : Z) (side code : string) (st : State) :
  details play = Some det -> eventOwnerTeamId det = Some team ->
  homeTeamDefendingSide play = Some side -> situationCode play = Some code ->
  ((b2z (team =? home_id) = 1 /\ String.get 0 code = Some "0"%char)
   \/ (b2z (team =? away_id) = 1 /\ String.get 3 code = Some "0"%char) ->
   process_play player_career_stats gid home_id away_id pbp idx play st = (st, Continue))
  /\ (~ ((b2z (team =? home_id) = 1 /\ String.get 0 code = Some "0"%char)
         \/ (b2z (team =? away_id) = 1 /\ String.get 3 code = Some "0"%char)) ->
      String.length code = 4%nat ->
      forall (st1 st2 : State) (sid : Z) (name : string) (stats : stats_triple)
             (rb ru x y hs aws : Z) (c1 c2 : ascii) (keeper : option string * stats_triple),
        (if (typeDescKey play =? "goal")%string
         then scoringPlayerId det else shootingPlayerId det) = Some sid ->
        get_player_stats player_career_stats sid st = (st1, Ok (name, stats)) ->
        is_rebound play (match idx with O => None | S i => pbp !! i end) = Ok rb ->
        is_rush play (match idx with O => None | S i => pbp !! i end) = Ok ru ->
        xCoord det = Some x -> yCoord det = Some y ->
        String.get 2 code = Some c2 -> py_int (String c2 EmptyString) = Ok hs ->
        String.get 1 code = Some c1 -> py_int (String c1 EmptyString) = Ok aws ->
        goalie_lookup player_career_stats (goalieInNetId det) st1 = (st2, Ret keeper) ->
        exists row,
          process_play player_career_stats gid home_id away_id pbp idx play st = (st2, Ret row)
          /\ home row = b2z (team =? home_id)
          /\ home_skaters row = hs /\ away_skaters row = aws
          /\ rebound row = rb /\ rush row = ru
          /\ danger_zone row = get_danger_zone x y
          /\ shot_class row = typeDescKey play).
Proof.
  intros Hdet Hteam Hside Hcode. split.
  - intros Hgate. eapply process_play_skipped; eassumption.
  - intros Hgate Hlen st1 st2 sid name stats rb ru x y hs aws c1 c2 keeper
           Hsid Hget Hrb Hru Hx Hy Hc2 Hhs Hc1 Haws Hkeep.
    eapply process_play_emitted; eassumption.
Qed.

Lemma situation_test_decides_skip_witness :
  process_play roster 102 1 2 [shot_with "0551"] 0 (shot_with "0551") init_state
  = (init_state, Continue)
  /\ exists st2 row,
       process_play roster 101 1 2 [shot_with "1501"] 0 (shot_with "1501") init_state
       = (st2, Ret row)
       /\ home row = 1 /\ home_skaters row = 0 /\ away_skaters row = 5.
Proof.
  split.
  - refine (proj1 (situation_test_decides_skip roster 102 1 2 [shot_with "0551"] 0
                     (shot_with "0551") _ 1 "left" "0551" init_state
                     eq_refl eq_refl eq_refl eq_refl) _).
    left. split; reflexivity.
  - destruct (get_player_stats roster 11 init_state) as [st1 r1] eqn:E1.
    destruct (goalie_lookup roster (Some 30) st1) as [st2 r2] eqn:E2.
    assert (r1 = Ok ("Ada Shooter", (Some "C", Some "L", Some (12 # 100)))) as ->
      by (vm_compute in E1; congruence).
    assert (r2 = Ret (Some "Bo Keeper", (Some "G", Some "L", Some (91 # 100)))) as ->.
    { assert (st1 = fst (get_player_stats roster 11 init_state)) as -> by (rewrite E1; reflexivity).
      vm_compute in E2. congruence. }
    destruct (proj2 (situation_test_decides_skip roster 101 1 2 [shot_with "1501"] 0
                       (shot_with "1501") _ 1 "left" "1501" init_state
                       eq_refl eq_refl eq_refl eq_refl)
                ltac:(intros [[_ H] | [H _]]; discriminate H) eq_refl
                st1 st2 11 _ _ 0 0 80 3 0 5 "5"%char "0"%char _
                eq_refl E1 eq_refl eq_refl eq_refl eq_refl eq_refl eq_refl eq_refl eq_refl E2)
      as (row & Hrow & Hhome & Hhs & Haws & _).
    exists st2, row. repeat split; assumption.
Defined.

(** C1, as stated, fails: a shot by the home team under a situation code
    whose home skater digit is "0" is emitted, with [home = 1] and
    [home_skaters = 0]; what excludes a home shot is a "0" in first place. *)
Lemma home_zero_skaters_emitted :
  exists row,
    frame_rows (snd (scrape_fenwick_shots roster schedule [101] init_state)) = [row]
    /\ home row = 1 /\ home_skaters row = 0 /\ shot_class row = "shot-on-goal"
    /\ frame_rows (snd (scrape_fenwick_shots roster schedule [102] init_state)) = [].
Proof. eexists. vm_compute. repeat split. Qed.

(** ** ShotEventExtractor: what every emitted row satisfies *)

Lemma ensures_ret {A : Type} (Q : A -> Prop) (a : A) : Q a -> ensures Q (ret a).
Proof. intros H st st' b E. inversion E. subst. exact H. Qed.

Lemma ensures_continue {A : Type} (Q : A -> Prop) : ensures Q (@continue A).
Proof. intros st st' b E. discriminate E. Qed.

Lemma ensures_bind {A B : Type} (Q : B -> Prop) (m : M A) (k : A -> M B) :
  (forall a, ensures Q (k a)) -> ensures Q (bind m k).
Proof.
  intros Hk st st' b E. unfold bind in E.
  destruct (m st) as [st1 [a | | e]]; [|discriminate E|discriminate E].
  eapply Hk. exact E.
Qed.

Section EmittedRows.

Variable player_career_stats : list ext_call -> Z -> result PlayerInfo.
Variable play_by_play : list ext_call -> Z -> result GameData.

Lemma process_play_danger_label (gid home_id away_id : Z) (pbp : list Play) (idx : nat)
    (play : Play) :
  ensures (fun row => is_danger_label (danger_zone row))
    (process_play player_career_stats gid home_id away_id pbp idx play).
Proof.
  unfold process_play.
  repeat first
    [ apply ensures_continue
    | apply ensures_ret; cbn; apply danger_zone_label
    | apply ensures_bind; intros ?
    | match goal with
      | |- ensures _ (match ?x with _ => _ end) => destruct x
      | |- ensures _ (if ?x then _ else _) => destruct x
      end ].
Qed.

Lemma plays_loop_danger_label (gid home_id away_id : Z) (pbp : list Play) :
  forall (rest : list Play) (idx : nat) (rows : list ShotRecord) (st : State),
    Forall (fun row => is_danger_label (danger_zone row)) rows ->
    Forall (fun row => is_danger_label (danger_zone row))
      (snd (plays_loop player_career_stats gid home_id away_id pbp idx rest rows st)).
Proof.
  induction rest as [|play rest IH]; intros idx rows st Hrows; cbn [plays_loop]; [exact Hrows|].
  destruct (negb (str_in (typeDescKey play) qualifying)); [apply IH; exact Hrows|].
  pose proof (process_play_danger_label gid home_id away_id pbp idx play st) as Hp.
  destruct (process_play player_career_stats gid home_id away_id pbp idx play st)
    as [st' [row | | e]]; apply IH; try exact Hrows.
  apply Forall_app. split; [exact Hrows|].
  constructor; [|constructor]. eapply Hp. reflexivity.
Qed.

Lemma scrape_danger_label (game_ids : list Z) (st : State) :
  Forall (fun row => is_danger_label (danger_zone row))
    (frame_rows (snd (scrape_fenwick_shots player_career_stats play_by_play game_ids st))).
Proof.
  unfold scrape_fenwick_shots.
  assert (forall rows st0,
             Forall (fun row => is_danger_label (danger_zone row)) rows ->
             Forall (fun row => is_danger_label (danger_zone row))
               (frame_rows (snd (games_loop player_career_stats play_by_play
                                   game_ids rows st0)))) as H.
  { induction game_ids as [|gid rest IH]; intros rows st0 Hrows; cbn [games_loop].
    - destruct rows; cbn; [constructor | exact Hrows].
    - destruct (play_by_play (trace st0) gid) as [game_data | e]; [|constructor].
      pose proof (plays_loop_danger_label gid (homeTeam_id game_data)
                    (awayTeam_id game_data) (plays game_data) (plays game_data) 0 rows
                    (log_call (GameCall gid (is_ok (Ok game_data))) st0) Hrows) as Hp.
      destruct (plays_loop player_career_stats gid (homeTeam_id game_data)
                  (awayTeam_id game_data) (plays game_data) 0 (plays game_data) rows
                  (log_call (GameCall gid (is_ok (Ok game_data))) st0)) as [st2 rows'].
      apply IH. exact Hp. }
  apply H. constructor.
Qed.

End EmittedRows.

(** ** FeatureProcessor *)

Lemma filter_map_fst {A B : Type} (f : A -> B) (p : A -> bool) (l : list A) :
  List.filter (fun w => p (fst w)) (map (fun r => (r, f r)) l)
  = map (fun r => (r, f r)) (List.filter p l).
Proof.
  induction l as [|a l IH]; cbn; [reflexivity|].
  destruct (p a); cbn; rewrite IH; reflexivity.
Qed.

Lemma filter_filter {A : Type} (p q : A -> bool) (l : list A) :
  List.filter q (List.filter p l) = List.filter (fun a => p a && q a) l.
Proof.
  induction l as [|a l IH]; cbn; [reflexivity|].
  destruct (p a); cbn; [destruct (q a); cbn|]; rewrite IH; reflexivity.
Qed.

Lemma danger_map_numeric (label : string) :
  is_danger_label label -> danger_map !! label = Some (numeric label).
Proof. intros [-> | [-> | ->]]; vm_compute; reflexivity. Qed.

Section ProcessorFacts.

Variable F : Type.
Variable np_sqrt : Z -> F.
Variable arctan2_degrees : Z -> Z -> F.
Variable ninety : F.
Variable round3 : F -> F.

Lemma processFenwick_closed_form (rows : list ShotRecord) :
  processFenwick F np_sqrt arctan2_degrees ninety round3 (Frame rows)
  = Ok (Frame (map (feature_of F np_sqrt arctan2_degrees ninety round3)
                 (List.filter retained rows))).
Proof.
  unfold processFenwick. do 2 f_equal.
  rewrite (filter_map_fst (fun r => series_add_str (shoots r) (goalie_catches r))
             (fun r => 3 <=? home_skaters r)).
  rewrite (filter_map_fst (fun r => series_add_str (shoots r) (goalie_catches r))
             (fun r => 3 <=? away_skaters r)).
  rewrite (filter_map_fst (fun r => series_add_str (shoots r) (goalie_catches r))
             (fun r => notnull (goalie_id r))).
  rewrite !filter_filter.
  rewrite (List.filter_ext _ retained)
    by (intros a; unfold retained; rewrite andb_assoc; reflexivity).
  unfold add_situation, add_shot_value, add_shot_angle, add_distance.
  rewrite !map_map.
  apply map_ext. intros r. unfold drop_cols, feature_of, situation_of.
  destruct (home r =? 1);
    repeat match goal with |- context [?a <? ?b] => destruct (Z.ltb_spec a b) end;
    try reflexivity; lia.
Qed.

End ProcessorFacts.

(** C8: in every row of the table [processFenwick] returns, [shot_value] is
    [numeric(danger_zone) + rebound + rush], where [numeric] sends low to 1,
    med to 2 and high to 3: for any input table whose danger labels are among
    the three, and with no condition for a table that comes from the
    extractor. *)
Theorem shot_value_formula (F : Type) (np_sqrt : Z -> F) (arctan2_degrees : Z -> Z -> F)
    (ninety : F) (round3 : F -> F) :
  (numeric "low" = 1 /\ numeric "med" = 2 /\ numeric "high" = 3)
  /\ (forall (df : DataFrame ShotRecord) (out : DataFrame (Feature.row F)) (r : Feature.row F),
         processFenwick F np_sqrt arctan2_degrees ninety round3 df = Ok out ->
         In r (frame_rows out) ->
         is_danger_label (Feature.danger_zone r) ->
         Feature.shot_value r
         = Some (numeric (Feature.danger_zone r) + Feature.rebound r + Feature.rush r))
  /\ (forall (player_career_stats : list ext_call -> Z -> result PlayerInfo)
             (play_by_play : list ext_call -> Z -> result GameData)
             (game_ids : list Z) (st : State)
             (out : DataFrame (Feature.row F)) (r : Feature.row F),
         processFenwick F np_sqrt arctan2_degrees ninety round3
           (snd (scrape_fenwick_shots player_career_stats play_by_play game_ids st)) = Ok out ->
         In r (frame_rows out) ->
         Feature.shot_value r
         = Some (numeric (Feature.danger_zone r) + Feature.rebound r + Feature.rush r)).
Proof.
  assert (forall (rows : list ShotRecord) (out : DataFrame (Feature.row F)) (r : Feature.row F),
             processFenwick F np_sqrt arctan2_degrees ninety round3 (Frame rows) = Ok out ->
             In r (frame_rows out) ->
             exists raw, In raw rows
                         /\ r = feature_of F np_sqrt arctan2_degrees ninety round3 raw) as Hsrc.
  { intros rows out r Hout Hin. rewrite processFenwick_closed_form in Hout.
    inversion Hout; subst out. cbn [frame_rows] in Hin.
    apply in_map_iff in Hin. destruct Hin as (raw & <- & Hraw).
    apply List.filter_In in Hraw. exists raw. split; [apply Hraw | reflexivity]. }
  assert (forall raw : ShotRecord,
             is_danger_label (danger_zone raw) ->
             Feature.shot_value (feature_of F np_sqrt arctan2_degrees ninety round3 raw)
             = Some (numeric (danger_zone raw) + rebound raw + rush raw)) as Hval.
  { intros raw Hlab. cbn. rewrite (danger_map_numeric _ Hlab). reflexivity. }
  split; [repeat split|]. split.
  - intros [|rows] out r Hout Hin Hlab; [discriminate Hout|].
    destruct (Hsrc rows out r Hout Hin) as (raw & _ & ->). apply Hval. exact Hlab.
  - intros pcs pbp game_ids st out r Hout Hin.
    pose proof (scrape_danger_label pcs pbp game_ids st) as Hall.
    destruct (snd (scrape_fenwick_shots pcs pbp game_ids st)) as [|rows];
      [discriminate Hout|].
    destruct (Hsrc rows out r Hout Hin) as (raw & Hraw & ->). apply Hval.
    cbn [frame_rows] in Hall. rewrite List.Forall_forall in Hall. apply Hall. exact Hraw.
Qed.

Lemma shot_value_formula_witness :
  exists r : Feature.row unit,
    processFenwick unit (fun _ => tt) (fun _ _ => tt) tt (fun a => a)
      (snd (scrape_fenwick_shots roster schedule [100] init_state)) = Ok (Frame [r])
    /\ Feature.danger_zone r = "high"
    /\ Feature.shot_value r = Some 3.
Proof.
  eexists. split; [vm_compute; reflexivity|]. split; [reflexivity|].
  refine (proj1 (proj2 (shot_value_formula unit (fun _ => tt) (fun _ _ => tt) tt (fun a => a)))
            (snd (scrape_fenwick_shots roster schedule [100] init_state))
            (Frame [_]) _ _ _ _).
  - vm_compute. reflexivity.
  - left. reflexivity.
  - right; right. reflexivity.
Defined.

(** C10 (as amended): the shot-on-glove indicator is derived from shooter
    handedness and goaltender catch-hand over every input row, before the
    rows without a goaltender id are filtered out; on a row that holds the
    placeholder the indicator is missing, no error is raised, and
    [processFenwick] returns the filtered table, in which no row with a null
    goaltender id is left. *)
Theorem processFenwick_with_placeholder_rows (F : Type) (np_sqrt : Z -> F)
    (arctan2_degrees : Z -> Z -> F) (ninety : F) (round3 : F -> F) (rows : list ShotRecord) :
  processFenwick F np_sqrt arctan2_degrees ninety round3 (Frame rows)
  = Ok (Frame (map (feature_of F np_sqrt arctan2_degrees ninety round3)
                 (List.filter retained rows)))
  /\ (forall r : ShotRecord, goalie_id r = None -> ~ In r (List.filter retained rows))
  /\ (forall r : ShotRecord,
         goalie_catches r = None ->
         Feature.shot_on_glove (feature_of F np_sqrt arctan2_degrees ninety round3 r) = None)
  /\ (forall (r : ShotRecord) (a b : string),
         shoots r = Some a -> goalie_catches r = Some b ->
         Feature.shot_on_glove (feature_of F np_sqrt arctan2_degrees ninety round3 r)
         = Some (a +:+ b)).
Proof.
  split; [apply processFenwick_closed_form|]. split; [|split].
  - intros r Hnone Hin. apply List.filter_In in Hin. destruct Hin as [_ Hret].
    unfold retained in Hret. rewrite Hnone in Hret. cbn in Hret.
    rewrite andb_false_r in Hret. discriminate Hret.
  - intros r Hnone. cbn. rewrite Hnone. destruct (shoots r); reflexivity.
  - intros r a b Ha Hb. cbn. rewrite Ha, Hb. reflexivity.
Qed.

Lemma processFenwick_with_placeholder_rows_witness :
  ~ In keeperless_row (List.filter retained [kept_row; keeperless_row])
  /\ Feature.shot_on_glove
       (feature_of unit (fun _ => tt) (fun _ _ => tt) tt (fun a => a) keeperless_row) = None
  /\ Feature.shot_on_glove
       (feature_of unit (fun _ => tt) (fun _ _ => tt) tt (fun a => a) kept_row) = Some "LL".
Proof.
  destruct (processFenwick_with_placeholder_rows unit (fun _ => tt) (fun _ _ => tt) tt
              (fun a => a) [kept_row; keeperless_row]) as (_ & Hgone & Hmiss & Hsum).
  split; [|split].
  - apply (Hgone keeperless_row). reflexivity.
  - apply (Hmiss keeperless_row). reflexivity.
  - apply (Hsum kept_row "L" "L"); reflexivity.
Defined.

(** C10, as stated, fails: a table that holds a row with the placeholder in
    its goaltender fields is processed without error; the row is filtered
    out and the other rows come back. *)
Lemma placeholder_row_does_not_raise :
  snd (scrape_fenwick_shots roster schedule [100; 103] init_state)
  = Frame [kept_row; keeperless_row]
  /\ goalie_id keeperless_row = None /\ goalie keeperless_row = None
  /\ goalie_catches keeperless_row = None /\ career_save_pct keeperless_row = None
  /\ processFenwick unit (fun _ => tt) (fun _ _ => tt) tt (fun a => a)
       (Frame [kept_row; keeperless_row])
     = Ok (Frame [feature_of unit (fun _ => tt) (fun _ _ => tt) tt (fun a => a) kept_row]).
Proof. vm_compute. repeat split. Qed.

(** * Further properties *)

Local Set Warnings "-clear-no-such-hyp".

(** ** Game ids *)

Section GameIdsFacts.

Variable teams : result (list Schedule.team).
Variable team_season_schedule : string -> Z -> result (list Schedule.game).
Variable seasons : list Z.

(** The loop adds to the set it starts from what it adds to the empty set. *)
Lemma schedule_loop_from (pairs : list (string * Z)) :
  forall s : gset Z,
    schedule_loop team_season_schedule pairs s
    = (s ∪ fst (schedule_loop team_season_schedule pairs ∅),
       snd (schedule_loop team_season_schedule pairs ∅)).
Proof.
  induction pairs as [|[abbrev season] pairs IH]; intros s; cbn [schedule_loop].
  - cbn. f_equal. set_solver.
  - destruct (team_season_schedule (remap_abbrev abbrev season) season) as [games | e].
    + rewrite (IH (s ∪ _)), (IH (∅ ∪ _)). cbn [fst snd]. f_equal. set_solver.
    + cbn. f_equal. set_solver.
Qed.

Lemma counted_ids_spec (games : list Schedule.game) (g : Z) :
  g ∈ (list_to_set (counted_ids games) : gset Z)
  <-> exists gm, In gm games /\ Schedule.gameType gm <> 1 /\ Schedule.id gm = g.
Proof.
  rewrite elem_of_list_to_set, list_elem_of_In. unfold counted_ids.
  rewrite in_map_iff. split.
  - intros (gm & Hid & Hin). apply List.filter_In in Hin. destruct Hin as [Hin Ht].
    exists gm. repeat split; try assumption.
    apply negb_true_iff, Z.eqb_neq in Ht. exact Ht.
  - intros (gm & Hin & Ht & Hid). exists gm. split; [exact Hid|].
    apply List.filter_In. split; [exact Hin|].
    apply negb_true_iff, Z.eqb_neq. exact Ht.
Qed.

Lemma schedule_loop_sound (pairs : list (string * Z)) :
  forall (s s' : gset Z) (r : result unit),
    schedule_loop team_season_schedule pairs s = (s', r) ->
    s ⊆ s' /\ (forall g, g ∈ s' -> g ∈ s \/ listed_in team_season_schedule pairs g).
Proof.
  induction pairs as [|[abbrev season] pairs IH]; intros s s' r H; cbn [schedule_loop] in H.
  - inversion H; subst. split; [set_solver | auto].
  - destruct (team_season_schedule (remap_abbrev abbrev season) season) as [games | e] eqn:E.
    + destruct (IH _ _ _ H) as [Hsub Hmem]. split; [set_solver|].
      intros g Hg. destruct (Hmem g Hg) as [Hin | (a & sn & gs & gm & Hp & Hrest)].
      * apply elem_of_union in Hin. destruct Hin as [Hin | Hin]; [left; exact Hin|].
        right. apply counted_ids_spec in Hin. destruct Hin as (gm & Hgm).
        exists abbrev, season, games, gm. split; [left; reflexivity|]. split; [exact E | exact Hgm].
      * right. exists a, sn, gs, gm. split; [right; exact Hp | exact Hrest].
    + inversion H; subst. split; [set_solver | auto].
Qed.

Lemma schedule_loop_complete (pairs : list (string * Z)) :
  forall (s s' : gset Z),
    schedule_loop team_season_schedule pairs s = (s', Ok tt) ->
    forall g, listed_in team_season_schedule pairs g -> g ∈ s'.
Proof.
  induction pairs as [|[abbrev season] pairs IH]; intros s s' H g Hl; cbn [schedule_loop] in H.
  - destruct Hl as (? & ? & ? & ? & [] & _).
  - destruct (team_season_schedule (remap_abbrev abbrev season) season) as [games | e] eqn:E;
      [|discriminate H].
    destruct Hl as (a & sn & gs & gm & [Hp | Hp] & Hans & Hgm).
    + inversion Hp; subst a sn. rewrite E in Hans. inversion Hans; subst gs.
      destruct (schedule_loop_sound pairs _ _ _ H) as [Hsub _].
      apply Hsub, elem_of_union. right. apply counted_ids_spec. exists gm. exact Hgm.
    + eapply IH; [exact H|]. exists a, sn, gs, gm. split; [exact Hp|]. split; assumption.
Qed.

End GameIdsFacts.

(** X1: whatever [get_game_ids] does, it never removes an id from the set
    it keeps, and every id in the set afterwards was there before or is the
    id of a game, not of type 1, in the schedule answered for a team of the
    league and a season of the scraper, the team "UTA" being asked for as
    "ARI" before season 20242025.  If the teams call raises, the set is
    unchanged. *)
Theorem get_game_ids_sound (teams : result (list Schedule.team))
    (team_season_schedule : string -> Z -> result (list Schedule.game))
    (seasons : list Z) (s0 : gset Z) :
  s0 ⊆ fst (get_game_ids teams team_season_schedule seasons s0)
  /\ (forall g : Z,
         g ∈ fst (get_game_ids teams team_season_schedule seasons s0) ->
         g ∈ s0
         \/ exists ts t season games gm,
              teams = Ok ts /\ In t ts /\ In season seasons
              /\ team_season_schedule (remap_abbrev (Schedule.abbr t) season) season = Ok games
              /\ In gm games /\ Schedule.gameType gm <> 1 /\ Schedule.id gm = g)
  /\ (forall e : exn,
         teams = Raise e ->
         get_game_ids teams team_season_schedule seasons s0 = (s0, Raise e)).
Proof.
  unfold get_game_ids. destruct teams as [ts | e0].
  - destruct (schedule_loop team_season_schedule
                (list_prod (map Schedule.abbr ts) seasons) s0) as [s r] eqn:E.
    destruct (schedule_loop_sound team_season_schedule _ _ _ _ E) as [Hsub Hmem].
    assert (fst (let (s1, r0) := (s, r) in
                 match r0 with Ok _ => (s1, Ok (elements s1)) | Raise e => (s1, Raise e) end)
            = s) as -> by (destruct r; reflexivity).
    split; [exact Hsub|]. split; [|intros e He; discriminate He].
    intros g Hg. destruct (Hmem g Hg) as [Hin | (a & sn & gs & gm & Hp & Hans & Hgm)];
      [left; exact Hin|].
    right. apply in_prod_iff in Hp. destruct Hp as [Ha Hsn].
    apply in_map_iff in Ha. destruct Ha as (t & <- & Ht).
    exists ts, t, sn, gs, gm. repeat split; try assumption; apply Hgm.
  - cbn. split; [set_solver|]. split; [intros g Hg; left; exact Hg|].
    intros e He. inversion He. reflexivity.
Qed.

Lemma get_game_ids_sound_witness :
  get_game_ids (Raise ProviderError) season_schedule [20232024] {[ 7 ]}
  = ({[ 7 ]}, Raise ProviderError).
Proof.
  apply (proj2 (proj2 (get_game_ids_sound (Raise ProviderError) season_schedule
                         [20232024] {[ 7 ]})) ProviderError).
  reflexivity.
Defined.

(** X2: when [get_game_ids] returns, the list it returns has no duplicates
    and holds exactly the ids of the set, and those are the ids that were in
    the set before together with every id of a game that is not of type 1 in
    a schedule answered for a team and a season; a game listed under several
    teams is returned once. *)
Theorem get_game_ids_complete (teams : result (list Schedule.team))
    (team_season_schedule : string -> Z -> result (list Schedule.game))
    (seasons : list Z) (s0 s : gset Z) (ts : list Schedule.team) (l : list Z) :
  teams = Ok ts ->
  get_game_ids teams team_season_schedule seasons s0 = (s, Ok l) ->
  NoDup l
  /\ (forall g : Z, In g l <-> g ∈ s)
  /\ (forall g : Z,
         g ∈ s <->
         g ∈ s0
         \/ exists t season games gm,
              In t ts /\ In season seasons
              /\ team_season_schedule (remap_abbrev (Schedule.abbr t) season) season = Ok games
              /\ In gm games /\ Schedule.gameType gm <> 1 /\ Schedule.id gm = g).
Proof.
  intros Hteams H. unfold get_game_ids in H. rewrite Hteams in H.
  destruct (schedule_loop team_season_schedule
              (list_prod (map Schedule.abbr ts) seasons) s0) as [s1 [[]|e]] eqn:E;
    inversion H; subst s1 l.
  split; [apply NoDup_elements|].
  split; [intros g; rewrite <- list_elem_of_In; apply elem_of_elements|].
  destruct (schedule_loop_sound team_season_schedule _ _ _ _ E) as [Hsub Hmem].
  intros g. split.
  - intros Hg. destruct (Hmem g Hg) as [Hin | (a & sn & gs & gm & Hp & Hans & Hgm)];
      [left; exact Hin|].
    right. apply in_prod_iff in Hp. destruct Hp as [Ha Hsn].
    apply in_map_iff in Ha. destruct Ha as (t & <- & Ht).
    exists t, sn, gs, gm. repeat split; try assumption; apply Hgm.
  - intros [Hin | (t & sn & gs & gm & Ht & Hsn & Hans & Hgm)]; [apply Hsub; exact Hin|].
    eapply (schedule_loop_complete team_season_schedule); [exact E|].
    exists (Schedule.abbr t), sn, gs, gm. split; [|split; assumption].
    apply in_prod_iff. split; [apply in_map; exact Ht | exact Hsn].
Qed.

Lemma get_game_ids_complete_witness :
  NoDup (elements ({[ 20; 30; 40 ]} : gset Z))
  /\ (20 ∈ ({[ 20; 30; 40 ]} : gset Z)
      <-> 20 ∈ (∅ : gset Z)
          \/ exists t season games gm,
               In t [Schedule.mkTeam "UTA"; Schedule.mkTeam "BOS"]
               /\ In season [20232024; 20242025]
               /\ season_schedule (remap_abbrev (Schedule.abbr t) season) season = Ok games
               /\ In gm games /\ Schedule.gameType gm <> 1 /\ Schedule.id gm = 20).
Proof.
  destruct (get_game_ids_complete two_teams season_schedule [20232024; 20242025] ∅
              {[ 20; 30; 40 ]} [Schedule.mkTeam "UTA"; Schedule.mkTeam "BOS"]
              (elements ({[ 20; 30; 40 ]} : gset Z)) eq_refl)
    as (Hnd & _ & Hmem).
  - vm_compute. reflexivity.
  - split; [exact Hnd | apply Hmem].
Defined.

Lemma remap_abbrev_never_old_UTA (abbrev : string) (season : Z) :
  ~ (remap_abbrev abbrev season = "UTA" /\ season < 20242025).
Proof.
  unfold remap_abbrev. intros [H Hs].
  destruct (abbrev =? "UTA")%string eqn:E; cbn in H.
  - replace (season <? 20242025) with true in H by (symmetry; apply Z.ltb_lt; exact Hs).
    discriminate H.
  - apply String.eqb_neq in E. contradiction.
Qed.

Lemma schedule_loop_ext (sched sched' : string -> Z -> result (list Schedule.game))
    (pairs : list (string * Z)) :
  (forall abbrev season,
      ~ (abbrev = "UTA" /\ season < 20242025) -> sched abbrev season = sched' abbrev season) ->
  forall s, schedule_loop sched pairs s = schedule_loop sched' pairs s.
Proof.
  intros Hext. induction pairs as [|[abbrev season] pairs IH]; intros s; cbn [schedule_loop];
    [reflexivity|].
  rewrite (Hext _ _ (remap_abbrev_never_old_UTA abbrev season)).
  destruct (sched' (remap_abbrev abbrev season) season); [apply IH | reflexivity].
Qed.

(** X3: [get_game_ids] never asks for the schedule of "UTA" in a season
    before 20242025: two schedule providers that differ only in what they
    answer for "UTA" in such seasons give the same set and the same result. *)
Theorem get_game_ids_ignores_old_UTA (teams : result (list Schedule.team))
    (sched sched' : string -> Z -> result (list Schedule.game))
    (seasons : list Z) (s0 : gset Z) :
  (forall abbrev season,
      ~ (abbrev = "UTA" /\ season < 20242025) -> sched abbrev season = sched' abbrev season) ->
  get_game_ids teams sched seasons s0 = get_game_ids teams sched' seasons s0.
Proof.
  intros Hext. unfold get_game_ids. destruct teams as [ts | e]; [|reflexivity].
  rewrite (schedule_loop_ext sched sched' _ Hext). reflexivity.
Qed.

Lemma get_game_ids_ignores_old_UTA_witness :
  get_game_ids two_teams season_schedule [20232024; 20242025] ∅
  = get_game_ids two_teams
      (fun abbrev season =>
         if (abbrev =? "UTA")%string && (season <? 20242025) then Raise KeyError
         else season_schedule abbrev season)
      [20232024; 20242025] ∅.
Proof.
  apply (get_game_ids_ignores_old_UTA two_teams season_schedule _ [20232024; 20242025] ∅).
  intros abbrev season Hne.
  destruct (abbrev =? "UTA")%string eqn:E; [|reflexivity].
  destruct (season <? 20242025) eqn:Es; [|reflexivity].
  exfalso. apply Hne. split; [apply String.eqb_eq; exact E | apply Z.ltb_lt; exact Es].
Defined.

(** X4: a second call of [get_game_ids], with the league answering as
    before, returns the same list and leaves the set as the first call left
    it. *)
Theorem get_game_ids_again (teams : result (list Schedule.team))
    (team_season_schedule : string -> Z -> result (list Schedule.game))
    (seasons : list Z) (s0 s : gset Z) (l : list Z) :
  get_game_ids teams team_season_schedule seasons s0 = (s, Ok l) ->
  get_game_ids teams team_season_schedule seasons s = (s, Ok l).
Proof.
  unfold get_game_ids. destruct teams as [ts | e]; [|discriminate].
  rewrite (schedule_loop_from team_season_schedule _ s0).
  rewrite (schedule_loop_from team_season_schedule _ s).
  destruct (schedule_loop team_season_schedule (list_prod (map Schedule.abbr ts) seasons) ∅)
    as [u [[]|e]]; cbn [fst snd]; intros H; inversion H; subst.
  assert (s0 ∪ u ∪ u = s0 ∪ u) as -> by set_solver.
  reflexivity.
Qed.

Lemma get_game_ids_again_witness :
  get_game_ids two_teams season_schedule [20232024; 20242025] {[ 20; 30; 40 ]}
  = ({[ 20; 30; 40 ]}, Ok (elements ({[ 20; 30; 40 ]} : gset Z))).
Proof.
  apply (get_game_ids_again two_teams season_schedule [20232024; 20242025] ∅).
  vm_compute. reflexivity.
Defined.

(** ** ShotEventExtractor: what an emitted row comes from *)

Lemma bind_Ret_inv {A B : Type} (m : M A) (k : A -> M B) (st st' : State) (b : B) :
  bind m k st = (st', Ret b) ->
  exists a st1, m st = (st1, Ret a) /\ k a st1 = (st', Ret b).
Proof.
  unfold bind. destruct (m st) as [st1 [a | | e]]; intros H; try discriminate H.
  exists a, st1. split; [reflexivity | exact H].
Qed.

Lemma pure_of_Ret_inv {A : Type} (r : result A) (st st' : State) (a : A) :
  pure_of r st = (st', Ret a) -> r = Ok a /\ st' = st.
Proof. unfold pure_of. destruct r; intros H; inversion H; subst; auto. Qed.

Lemma call_of_Ret_inv {A : Type} (f : State -> State * result A) (st st' : State) (a : A) :
  call_of f st = (st', Ret a) -> f st = (st', Ok a).
Proof.
  unfold call_of. destruct (f st) as [st1 [x | e]]; intros H; inversion H; subst; reflexivity.
Qed.

Lemma getitem_Ok_inv {A : Type} (o : option A) (a : A) : getitem o = Ok a -> o = Some a.
Proof. destruct o; intros H; inversion H; reflexivity. Qed.

(** The situation test does not touch the state. *)
Lemma situation_skip_state (play : Play) (home_flag away_flag : Z) (st : State) :
  fst (situation_skip play home_flag away_flag st) = st.
Proof.
  unfold situation_skip, py_or, py_and, bind, pure_of, ret.
  destruct (home_flag =? 1), (away_flag =? 1),
    (situation_char play 0) as [c0|e0], (situation_char play 3) as [c3|e3];
    cbn; try reflexivity; destruct (Ascii.eqb c0 "0"); reflexivity.
Qed.

Section Emitted.

Variable player_career_stats : list ext_call -> Z -> result PlayerInfo.

(** Everything that has held when the loop body returns a row. *)
Lemma process_play_Ret_inv (gid home_id away_id : Z) (pbp : list Play) (idx : nat)
    (play : Play) (st st' : State) (row : ShotRecord) :
  process_play player_career_stats gid home_id away_id pbp idx play st = (st', Ret row) ->
  exists det team side sid name stats st1 rb ru x y c2 hs c1 aws keeper,
    details play = Some det /\ eventOwnerTeamId det = Some team
    /\ homeTeamDefendingSide play = Some side
    /\ situation_skip play (b2z (team =? home_id)) (b2z (team =? away_id)) st = (st, Ret false)
    /\ (if (typeDescKey play =? "goal")%string
        then scoringPlayerId det else shootingPlayerId det) = Some sid
    /\ get_player_stats player_career_stats sid st = (st1, Ok (name, stats))
    /\ is_rebound play (match idx with O => None | S i => pbp !! i end) = Ok rb
    /\ is_rush play (match idx with O => None | S i => pbp !! i end) = Ok ru
    /\ xCoord det = Some x /\ yCoord det = Some y
    /\ situation_char play 2 = Ok c2 /\ py_int (String c2 EmptyString) = Ok hs
    /\ situation_char play 1 = Ok c1 /\ py_int (String c1 EmptyString) = Ok aws
    /\ goalie_lookup player_career_stats (goalieInNetId det) st1 = (st', Ret keeper)
    /\ row = mkShotRecord gid team (b2z (team =? home_id)) side
               (option_map typeDescKey (match idx with O => None | S i => pbp !! i end))
               rb ru hs aws x y sid name
               (fst (fst stats)) (snd (fst stats)) (snd stats)
               (goalieInNetId det) (fst keeper)
               (snd (fst (snd keeper))) (snd (snd keeper))
               (shotType det) (zoneCode det) (typeDescKey play) (get_danger_zone x y).
Proof.
  unfold process_play. intros H.
  apply bind_Ret_inv in H. destruct H as (det & s1 & Hdet & H).
  apply pure_of_Ret_inv in Hdet. destruct Hdet as [Hdet ->]. apply getitem_Ok_inv in Hdet.
  apply bind_Ret_inv in H. destruct H as (team & s2 & Hteam & H).
  apply pure_of_Ret_inv in Hteam. destruct Hteam as [Hteam ->]. apply getitem_Ok_inv in Hteam.
  cbv zeta in H.
  apply bind_Ret_inv in H. destruct H as (side & s3 & Hside & H).
  apply pure_of_Ret_inv in Hside. destruct Hside as [Hside ->]. apply getitem_Ok_inv in Hside.
  apply bind_Ret_inv in H. destruct H as (skip & s4 & Hskip & H).
  assert (s4 = st) as ->.
  { pose proof (situation_skip_state play (b2z (team =? home_id)) (b2z (team =? away_id)) st)
      as Hst. rewrite Hskip in Hst. exact Hst. }
  destruct skip; [discriminate H|].
  destruct (if (typeDescKey play =? "goal")%string
            then scoringPlayerId det else shootingPlayerId det) as [sid|] eqn:Hsid;
    [|discriminate H].
  apply bind_Ret_inv in H. destruct H as ([name stats] & st1 & Hget & H).
  apply call_of_Ret_inv in Hget.
  apply bind_Ret_inv in H. destruct H as (rb & s5 & Hrb & H).
  apply pure_of_Ret_inv in Hrb. destruct Hrb as [Hrb ->].
  apply bind_Ret_inv in H. destruct H as (ru & s6 & Hru & H).
  apply pure_of_Ret_inv in Hru. destruct Hru as [Hru ->].
  destruct (xCoord det) as [x|] eqn:Hx; [|discriminate H].
  destruct (yCoord det) as [y|] eqn:Hy; [|discriminate H].
  apply bind_Ret_inv in H. destruct H as (c2 & s7 & Hc2 & H).
  apply pure_of_Ret_inv in Hc2. destruct Hc2 as [Hc2 ->].
  apply bind_Ret_inv in H. destruct H as (hs & s8 & Hhs & H).
  apply pure_of_Ret_inv in Hhs. destruct Hhs as [Hhs ->].
  apply bind_Ret_inv in H. destruct H as (c1 & s9 & Hc1 & H).
  apply pure_of_Ret_inv in Hc1. destruct Hc1 as [Hc1 ->].
  apply bind_Ret_inv in H. destruct H as (aws & s10 & Haws & H).
  apply pure_of_Ret_inv in Haws. destruct Haws as [Haws ->].
  apply bind_Ret_inv in H. destruct H as ([gname gstats] & s11 & Hkeep & H).
  unfold ret in H. inversion H; subst s11 row.
  exists det, team, side, sid, name, stats, st1, rb, ru, x, y, c2, hs, c1, aws, (gname, gstats).
  repeat (split; [first [reflexivity | assumption]|]). reflexivity.
Qed.

End Emitted.

Section EmittedTable.

Variable player_career_stats : list ext_call -> Z -> result PlayerInfo.
Variable play_by_play : list ext_call -> Z -> result GameData.

(** What holds of every row the loop body returns for a qualifying event of
    a game holds of every row of that game's loop. *)
Lemma plays_loop_rows (Q : ShotRecord -> Prop) (gid home_id away_id : Z) (pbp : list Play) :
  (forall idx play st st' row,
      str_in (typeDescKey play) qualifying = true ->
      process_play player_career_stats gid home_id away_id pbp idx play st = (st', Ret row) ->
      Q row) ->
  forall (rest : list Play) (idx : nat) (rows : list ShotRecord) (st : State),
    Forall Q rows ->
    Forall Q (snd (plays_loop player_career_stats gid home_id away_id pbp idx rest rows st)).
Proof.
  intros Hbody. induction rest as [|play rest IH]; intros idx rows st Hrows;
    cbn [plays_loop]; [exact Hrows|].
  destruct (str_in (typeDescKey play) qualifying) eqn:Eq; cbn [negb];
    [|apply IH; exact Hrows].
  destruct (process_play player_career_stats gid home_id away_id pbp idx play st)
    as [st' [row | | e]] eqn:Ep; apply IH; try exact Hrows.
  apply Forall_app. split; [exact Hrows|].
  constructor; [|constructor]. eapply Hbody; eassumption.
Qed.

Lemma games_loop_rows (Q : ShotRecord -> Prop) (all_ids : list Z) :
  (forall gid home_id away_id pbp idx play st st' row,
      In gid all_ids ->
      str_in (typeDescKey play) qualifying = true ->
      process_play player_career_stats gid home_id away_id pbp idx play st = (st', Ret row) ->
      Q row) ->
  forall (game_ids : list Z) (rows : list ShotRecord) (st : State),
    incl game_ids all_ids ->
    Forall Q rows ->
    Forall Q (frame_rows (snd (games_loop player_career_stats play_by_play game_ids rows st))).
Proof.
  intros Hbody. induction game_ids as [|gid rest IH]; intros rows st Hincl Hrows;
    cbn [games_loop].
  - destruct rows; cbn; [constructor | exact Hrows].
  - destruct (play_by_play (trace st) gid) as [game_data | e]; [|constructor].
    pose proof (plays_loop_rows Q gid (homeTeam_id game_data) (awayTeam_id game_data)
                  (plays game_data)
                  (fun idx play s s' row => Hbody gid _ _ _ idx play s s' row
                                              (Hincl gid (or_introl eq_refl)))
                  (plays game_data) 0 rows
                  (log_call (GameCall gid (is_ok (Ok game_data))) st) Hrows) as Hp.
    destruct (plays_loop player_career_stats gid (homeTeam_id game_data)
                (awayTeam_id game_data) (plays game_data) 0 (plays game_data) rows
                (log_call (GameCall gid (is_ok (Ok game_data))) st)) as [st2 rows'].
    apply IH; [|exact Hp]. intros g Hg. apply Hincl. right. exact Hg.
Qed.

Lemma scrape_rows (Q : ShotRecord -> Prop) (game_ids : list Z) (st : State) :
  (forall gid home_id away_id pbp idx play s s' row,
      In gid game_ids ->
      str_in (typeDescKey play) qualifying = true ->
      process_play player_career_stats gid home_id away_id pbp idx play s = (s', Ret row) ->
      Q row) ->
  forall row,
    In row (frame_rows (snd (scrape_fenwick_shots player_career_stats play_by_play
                               game_ids st))) ->
    Q row.
Proof.
  intros Hbody. apply List.Forall_forall. unfold scrape_fenwick_shots.
  apply (games_loop_rows Q game_ids Hbody); [apply incl_refl | constructor].
Qed.

End EmittedTable.

Lemma b2z_01 (b : bool) : b2z b = 0 \/ b2z b = 1.
Proof. destruct b; cbn; auto. Qed.

Lemma py_int_one_char (c : ascii) (v : Z) :
  py_int (String c EmptyString) = Ok v -> 0 <= v <= 9.
Proof.
  destruct c as [[] [] [] [] [] [] [] []]; vm_compute; intros H; inversion H; split;
    discriminate.
Qed.

(** X5: every row of the extractor's table is of one of the three shot
    types, belongs to one of the games asked for, has a home flag of 0 or 1
    and one of the three danger labels. *)
Theorem emitted_rows_identity
    (player_career_stats : list ext_call -> Z -> result PlayerInfo)
    (play_by_play : list ext_call -> Z -> result GameData)
    (game_ids : list Z) (st : State) (row : ShotRecord) :
  In row (frame_rows (snd (scrape_fenwick_shots player_career_stats play_by_play
                             game_ids st))) ->
  In (shot_class row) qualifying
  /\ In (game_id row) game_ids
  /\ (home row = 0 \/ home row = 1)
  /\ is_danger_label (danger_zone row).
Proof.
  revert row.
  apply (scrape_rows player_career_stats play_by_play
           (fun row => In (shot_class row) qualifying /\ In (game_id row) game_ids
                       /\ (home row = 0 \/ home row = 1)
                       /\ is_danger_label (danger_zone row))).
  intros gid home_id away_id pbp idx play s s' row Hgid Hq Hp.
  apply process_play_Ret_inv in Hp.
  destruct Hp as (det & team & side & sid & name & stats & st1 & rb & ru & x & y & c2 & hs
                  & c1 & aws & keeper & _ & _ & _ & _ & _ & _ & _ & _ & _ & _ & _ & _ & _ & _
                  & _ & ->).
  cbn [shot_class game_id home danger_zone].
  split; [apply str_in_In; exact Hq|]. split; [exact Hgid|].
  split; [apply b2z_01 | apply danger_zone_label].
Qed.

Lemma emitted_rows_identity_witness :
  In (shot_class kept_row) qualifying /\ In (game_id kept_row) [100]
  /\ (home kept_row = 0 \/ home kept_row = 1) /\ is_danger_label (danger_zone kept_row).
Proof.
  apply (emitted_rows_identity roster schedule [100] init_state kept_row).
  vm_compute. left. reflexivity.
Defined.

(** X6: in every row of the extractor's table the number of home skaters
    and the number of away skaters are single decimal digits, between 0 and
    9. *)
Theorem emitted_rows_skaters_digit
    (player_career_stats : list ext_call -> Z -> result PlayerInfo)
    (play_by_play : list ext_call -> Z -> result GameData)
    (game_ids : list Z) (st : State) (row : ShotRecord) :
  In row (frame_rows (snd (scrape_fenwick_shots player_career_stats play_by_play
                             game_ids st))) ->
  0 <= home_skaters row <= 9 /\ 0 <= away_skaters row <= 9.
Proof.
  revert row.
  apply (scrape_rows player_career_stats play_by_play
           (fun row => 0 <= home_skaters row <= 9 /\ 0 <= away_skaters row <= 9)).
  intros gid home_id away_id pbp idx play s s' row Hgid Hq Hp.
  apply process_play_Ret_inv in Hp.
  destruct Hp as (det & team & side & sid & name & stats & st1 & rb & ru & x & y & c2 & hs
                  & c1 & aws & keeper & _ & _ & _ & _ & _ & _ & _ & _ & _ & _ & _ & Hhs & _
                  & Haws & _ & ->).
  cbn [home_skaters away_skaters]. split; eapply py_int_one_char; eassumption.
Qed.

Lemma emitted_rows_skaters_digit_witness :
  0 <= home_skaters kept_row <= 9 /\ 0 <= away_skaters kept_row <= 9.
Proof.
  apply (emitted_rows_skaters_digit roster schedule [100] init_state kept_row).
  vm_compute. left. reflexivity.
Defined.

Lemma is_rebound_flag (play : Play) (prev_play : option Play) (rb : Z) :
  is_rebound play prev_play = Ok rb ->
  (rb = 0 \/ rb = 1)
  /\ (rb = 1 ->
      exists prev, prev_play = Some prev
                   /\ In (typeDescKey prev) ["blocked-shot"; "missed-shot"; "shot-on-goal"]).
Proof.
  destruct prev_play as [prev|]; cbn [is_rebound].
  - destruct (time_diff_of play prev) as [d|e]; cbn [rbind]; [|discriminate].
    destruct (typeDescKey prev =? "blocked-shot")%string eqn:E1; cbn [andb].
    + apply String.eqb_eq in E1.
      destruct (d <=? 2); [|rewrite E1; cbn]; intros H; inversion H; subst;
        (split; [auto|]); intros Hrb; try discriminate Hrb;
        exists prev; (split; [reflexivity|]); rewrite E1; cbn; auto.
    + destruct ((typeDescKey prev =? "missed-shot")%string
                || (typeDescKey prev =? "shot-on-goal")%string) eqn:E2; cbn [andb].
      * destruct (d <=? 3); intros H; inversion H; subst; (split; [auto|]);
          intros Hrb; try discriminate Hrb.
        exists prev. split; [reflexivity|].
        apply orb_prop in E2. destruct E2 as [E2 | E2]; apply String.eqb_eq in E2;
          rewrite E2; cbn; auto.
      * intros H; inversion H; subst. split; [auto | discriminate].
  - intros H; inversion H; subst. split; [auto | discriminate].
Qed.

Lemma is_rush_flag (play : Play) (prev_play : option Play) (ru : Z) :
  is_rush play prev_play = Ok ru ->
  (ru = 0 \/ ru = 1)
  /\ (ru = 1 -> exists prev, prev_play = Some prev /\ ~ In (typeDescKey prev) stoppages).
Proof.
  destruct prev_play as [prev|]; cbn [is_rush];
    [|intros H; inversion H; subst; split; [auto | discriminate]].
  destruct (str_in (typeDescKey prev) stoppages) eqn:Es;
    [intros H; inversion H; subst; split; [auto | discriminate]|].
  apply str_in_not_In in Es.
  destruct (time_diff_of play prev) as [d|e]; cbn [rbind]; [|discriminate].
  destruct (4 <? d); [intros H; inversion H; subst; split; [auto | discriminate]|].
  destruct (getitem (details play)) as [det|e]; cbn [rbind]; [|discriminate].
  destruct (details_get zoneCode prev) as [z|];
    [|intros H; inversion H; subst; split; [auto | discriminate]].
  repeat match goal with
         | |- context [if ?b then _ else _] => destruct b
         end;
    intros H; inversion H; subst; (split; [auto|]);
      intros Hru; try discriminate Hru; exists prev; (split; [reflexivity | exact Es]).
Qed.

(** X7: in every row of the extractor's table the rebound and rush flags
    are 0 or 1 and agree with the [last_play] column: both are 0 when there
    is no last play, a rebound has a blocked shot, a missed shot or a shot on
    goal as last play, and a rush has a last play that is not of the
    stoppage set. *)
Theorem emitted_rows_flags
    (player_career_stats : list ext_call -> Z -> result PlayerInfo)
    (play_by_play : list ext_call -> Z -> result GameData)
    (game_ids : list Z) (st : State) (row : ShotRecord) :
  In row (frame_rows (snd (scrape_fenwick_shots player_career_stats play_by_play
                             game_ids st))) ->
  (rebound row = 0 \/ rebound row = 1)
  /\ (rush row = 0 \/ rush row = 1)
  /\ (last_play row = None -> rebound row = 0 /\ rush row = 0)
  /\ (rebound row = 1 ->
      exists t, last_play row = Some t
                /\ In t ["blocked-shot"; "missed-shot"; "shot-on-goal"])
  /\ (rush row = 1 -> exists t, last_play row = Some t /\ ~ In t stoppages).
Proof.
  revert row.
  apply (scrape_rows player_career_stats play_by_play
           (fun row =>
              (rebound row = 0 \/ rebound row = 1)
              /\ (rush row = 0 \/ rush row = 1)
              /\ (last_play row = None -> rebound row = 0 /\ rush row = 0)
              /\ (rebound row = 1 ->
                  exists t, last_play row = Some t
                            /\ In t ["blocked-shot"; "missed-shot"; "shot-on-goal"])
              /\ (rush row = 1 -> exists t, last_play row = Some t /\ ~ In t stoppages))).
  intros gid home_id away_id pbp idx play s s' row Hgid Hq Hp.
  apply process_play_Ret_inv in Hp.
  destruct Hp as (det & team & side & sid & name & stats & st1 & rb & ru & x & y & c2 & hs
                  & c1 & aws & keeper & _ & _ & _ & _ & _ & _ & Hrb & Hru & _ & _ & _ & _ & _
                  & _ & _ & ->).
  cbn [rebound rush last_play].
  destruct (is_rebound_flag _ _ _ Hrb) as [Hrb01 Hrb1].
  destruct (is_rush_flag _ _ _ Hru) as [Hru01 Hru1].
  split; [exact Hrb01|]. split; [exact Hru01|]. split; [|split].
  - intros Hnone. split.
    + destruct Hrb01 as [? | H1]; [assumption|].
      destruct (Hrb1 H1) as (p & Hp & _). rewrite Hp in Hnone. discriminate Hnone.
    + destruct Hru01 as [? | H1]; [assumption|].
      destruct (Hru1 H1) as (p & Hp & _). rewrite Hp in Hnone. discriminate Hnone.
  - intros H1. destruct (Hrb1 H1) as (p & Hp & Hin). rewrite Hp.
    exists (typeDescKey p). split; [reflexivity | exact Hin].
  - intros H1. destruct (Hru1 H1) as (p & Hp & Hin). rewrite Hp.
    exists (typeDescKey p). split; [reflexivity | exact Hin].
Qed.

Lemma emitted_rows_flags_witness :
  (rebound kept_row = 0 \/ rebound kept_row = 1)
  /\ (rush kept_row = 0 \/ rush kept_row = 1)
  /\ (last_play kept_row = None -> rebound kept_row = 0 /\ rush kept_row = 0)
  /\ (rebound kept_row = 1 ->
      exists t, last_play kept_row = Some t
                /\ In t ["blocked-shot"; "missed-shot"; "shot-on-goal"])
  /\ (rush kept_row = 1 -> exists t, last_play kept_row = Some t /\ ~ In t stoppages).
Proof.
  apply (emitted_rows_flags roster schedule [100] init_state kept_row).
  vm_compute. left. reflexivity.
Defined.

(** ** ShotEventExtractor: the table and the cache *)

Lemma keeps_all_refl (st : State) : keeps_all st st.
Proof. intros pid name stats H. exact H. Qed.

Lemma keeps_all_trans (a b c : State) : keeps_all a b -> keeps_all b c -> keeps_all a c.
Proof. intros Hab Hbc pid name stats H. apply Hbc, Hab, H. Qed.

Lemma row_cached_kept (st st' : State) (row : ShotRecord) :
  keeps_all st st' -> row_cached st row -> row_cached st' row.
Proof.
  intros Hk (Hn & Hs & Hg).
  destruct (Hk _ _ _ (conj Hn Hs)) as [Hn' Hs']. split; [exact Hn'|]. split; [exact Hs'|].
  intros g Hgid Hne. destruct (Hg g Hgid Hne) as (n & pos & Hgn & Hdn & Hds).
  destruct (Hk _ _ _ (conj Hdn Hds)) as [Hdn' Hds']. exists n, pos. auto.
Qed.

Section TableAndCache.

Variable player_career_stats : list ext_call -> Z -> result PlayerInfo.
Variable play_by_play : list ext_call -> Z -> result GameData.

Lemma get_player_stats_keeps_all (pid : Z) (st : State) :
  keeps_all st (fst (get_player_stats player_career_stats pid st)).
Proof. intros q name stats. apply get_player_stats_keeps. Qed.

Lemma process_play_row_cached (gid home_id away_id : Z) (pbp : list Play) (idx : nat)
    (play : Play) (st st' : State) (row : ShotRecord) :
  process_play player_career_stats gid home_id away_id pbp idx play st = (st', Ret row) ->
  row_cached st' row.
Proof.
  intros Hp. apply process_play_Ret_inv in Hp.
  destruct Hp as (det & team & side & sid & name & [[pos hand] pct] & st1 & rb & ru & x & y
                  & c2 & hs & c1 & aws & [gname gstats] & _ & _ & _ & _ & _ & Hget & _ & _
                  & _ & _ & _ & _ & _ & _ & Hkeep & ->).
  destruct (get_player_stats_stored _ _ _ _ _ _ Hget) as [Hn Hs].
  unfold row_cached.
  cbn [shooter_id shooter position shoots career_shooting_pct goalie_id goalie goalie_catches
       career_save_pct fst snd].
  unfold goalie_lookup in Hkeep.
  destruct (goalieInNetId det) as [g|].
  - destruct (g =? 0) eqn:Eg.
    + unfold ret in Hkeep. inversion Hkeep; subst.
      split; [exact Hn|]. split; [exact Hs|].
      intros g' Hg' Hne. inversion Hg'; subst g'. apply Z.eqb_eq in Eg. contradiction.
    + apply bind_Ret_inv in Hkeep. destruct Hkeep as ([n [[gpos ghand] gpct]] & s2 & Hcall & Hret).
      apply call_of_Ret_inv in Hcall. unfold ret in Hret. inversion Hret; subst.
      pose proof (get_player_stats_keeps_all g st1 sid name (pos, hand, pct)) as Hk.
      rewrite Hcall in Hk. destruct (Hk (conj Hn Hs)) as [Hn' Hs'].
      destruct (get_player_stats_stored _ _ _ _ _ _ Hcall) as [Hgn Hgs].
      split; [exact Hn'|]. split; [exact Hs'|].
      intros g' Hg' Hne. inversion Hg'; subst g'. exists n, gpos. cbn. auto.
  - unfold ret in Hkeep. inversion Hkeep; subst.
    split; [exact Hn|]. split; [exact Hs|]. intros g' Hg'. discriminate Hg'.
Qed.

Lemma plays_loop_rows_cached (gid home_id away_id : Z) (pbp : list Play) :
  forall (rest : list Play) (idx : nat) (rows : list ShotRecord) (st : State),
    Forall (row_cached st) rows ->
    Forall (row_cached
              (fst (plays_loop player_career_stats gid home_id away_id pbp idx rest rows st)))
      (snd (plays_loop player_career_stats gid home_id away_id pbp idx rest rows st)).
Proof.
  induction rest as [|play rest IH]; intros idx rows st Hrows; cbn [plays_loop];
    [exact Hrows|].
  destruct (negb (str_in (typeDescKey play) qualifying)); [apply IH; exact Hrows|].
  pose proof (process_play_respects keeps_all keeps_all_refl keeps_all_trans
                player_career_stats get_player_stats_keeps_all
                gid home_id away_id pbp idx play st) as Hk.
  pose proof (process_play_row_cached gid home_id away_id pbp idx play st) as Hnew.
  destruct (process_play player_career_stats gid home_id away_id pbp idx play st)
    as [st' [row | | e]]; cbn [fst] in Hk; apply IH.
  - apply Forall_app. split.
    + eapply List.Forall_impl; [|exact Hrows]. intros r. apply row_cached_kept. exact Hk.
    + constructor; [|constructor]. eapply Hnew. reflexivity.
  - eapply List.Forall_impl; [|exact Hrows]. intros r. apply row_cached_kept. exact Hk.
  - eapply List.Forall_impl; [|exact Hrows]. intros r. apply row_cached_kept. exact Hk.
Qed.

Lemma games_loop_rows_cached (game_ids : list Z) :
  forall (rows : list ShotRecord) (st : State),
    Forall (row_cached st) rows ->
    Forall (row_cached (fst (games_loop player_career_stats play_by_play game_ids rows st)))
      (frame_rows (snd (games_loop player_career_stats play_by_play game_ids rows st))).
Proof.
  induction game_ids as [|gid rest IH]; intros rows st Hrows; cbn [games_loop].
  - destruct rows; cbn; [constructor | exact Hrows].
  - destruct (play_by_play (trace st) gid) as [game_data | e]; [|constructor].
    pose proof (plays_loop_rows_cached gid (homeTeam_id game_data) (awayTeam_id game_data)
                  (plays game_data) (plays game_data) 0 rows
                  (log_call (GameCall gid (is_ok (Ok game_data))) st) Hrows) as Hp.
    destruct (plays_loop player_career_stats gid (homeTeam_id game_data)
                (awayTeam_id game_data) (plays game_data) 0 (plays game_data) rows
                (log_call (GameCall gid (is_ok (Ok game_data))) st)) as [st2 rows'].
    apply IH. exact Hp.
Qed.

Lemma scrape_rows_cached (game_ids : list Z) (st : State) (row : ShotRecord) :
  In row (frame_rows (snd (scrape_fenwick_shots player_career_stats play_by_play
                             game_ids st))) ->
  row_cached (fst (scrape_fenwick_shots player_career_stats play_by_play game_ids st)) row.
Proof.
  revert row. apply List.Forall_forall. unfold scrape_fenwick_shots.
  apply games_loop_rows_cached. constructor.
Qed.

End TableAndCache.

(** X8: after a run of the extractor the cache holds, for every row of the
    table, the shooter's name and stats as the row has them, and so for the
    goaltender of a row whose goaltender id is neither missing nor 0. *)
Theorem table_agrees_with_cache
    (player_career_stats : list ext_call -> Z -> result PlayerInfo)
    (play_by_play : list ext_call -> Z -> result GameData)
    (game_ids : list Z) (st : State) (row : ShotRecord) :
  In row (frame_rows (snd (scrape_fenwick_shots player_career_stats play_by_play
                             game_ids st))) ->
  let st' := fst (scrape_fenwick_shots player_career_stats play_by_play game_ids st) in
  player_dict st' !! shooter_id row = Some (shooter row)
  /\ player_stats_cache st' !! shooter_id row
     = Some (position row, shoots row, career_shooting_pct row)
  /\ (forall g, goalie_id row = Some g -> g <> 0 ->
        exists n pos,
          goalie row = Some n /\ player_dict st' !! g = Some n
          /\ player_stats_cache st' !! g
             = Some (pos, goalie_catches row, career_save_pct row)).
Proof. intros Hin. exact (scrape_rows_cached _ _ _ _ _ Hin). Qed.

Lemma table_agrees_with_cache_witness :
  player_dict (fst (scrape_fenwick_shots roster schedule [100] init_state)) !! 11
  = Some "Ada Shooter".
Proof.
  apply (table_agrees_with_cache roster schedule [100] init_state kept_row).
  vm_compute. left. reflexivity.
Defined.

(** X9: two rows of one table with the same shooter id carry the same
    shooter name, position, hand and career percentage, and two rows with
    the same goaltender id (not 0) carry the same goaltender name, catching
    hand and save percentage, whatever the provider answers during the
    run. *)
Theorem rows_of_one_player_agree
    (player_career_stats : list ext_call -> Z -> result PlayerInfo)
    (play_by_play : list ext_call -> Z -> result GameData)
    (game_ids : list Z) (st : State) (r1 r2 : ShotRecord) :
  In r1 (frame_rows (snd (scrape_fenwick_shots player_career_stats play_by_play
                            game_ids st))) ->
  In r2 (frame_rows (snd (scrape_fenwick_shots player_career_stats play_by_play
                            game_ids st))) ->
  (shooter_id r1 = shooter_id r2 ->
   shooter r1 = shooter r2 /\ position r1 = position r2 /\ shoots r1 = shoots r2
   /\ career_shooting_pct r1 = career_shooting_pct r2)
  /\ (forall g, goalie_id r1 = Some g -> goalie_id r2 = Some g -> g <> 0 ->
        goalie r1 = goalie r2 /\ goalie_catches r1 = goalie_catches r2
        /\ career_save_pct r1 = career_save_pct r2).
Proof.
  intros H1 H2.
  destruct (scrape_rows_cached _ _ _ _ _ H1) as (Hn1 & Hs1 & Hg1).
  destruct (scrape_rows_cached _ _ _ _ _ H2) as (Hn2 & Hs2 & Hg2).
  split.
  - intros Heq. rewrite Heq in Hn1, Hs1. rewrite Hn1 in Hn2. rewrite Hs1 in Hs2.
    inversion Hn2. inversion Hs2. auto.
  - intros g Hgid1 Hgid2 Hne.
    destruct (Hg1 g Hgid1 Hne) as (n1 & p1 & Hgn1 & Hd1 & Hc1).
    destruct (Hg2 g Hgid2 Hne) as (n2 & p2 & Hgn2 & Hd2 & Hc2).
    rewrite Hd1 in Hd2. rewrite Hc1 in Hc2. inversion Hd2. inversion Hc2.
    rewrite Hgn1, Hgn2. subst. auto.
Qed.

Lemma rows_of_one_player_agree_witness :
  shooter kept_row = shooter keeperless_row /\ position kept_row = position keeperless_row
  /\ shoots kept_row = shoots keeperless_row
  /\ career_shooting_pct kept_row = career_shooting_pct keeperless_row.
Proof.
  apply (proj1 (rows_of_one_player_agree roster schedule [100; 103] init_state
                  kept_row keeperless_row
                  ltac:(vm_compute; left; reflexivity)
                  ltac:(vm_compute; right; left; reflexivity))).
  reflexivity.
Defined.

(** ** ShotEventExtractor: the fetches of a run *)

Section Fetches.

Variable player_career_stats : list ext_call -> Z -> result PlayerInfo.
Variable play_by_play : list ext_call -> Z -> result GameData.

Lemma lookup_same_game_fetches (pid : Z) (st : State) :
  same_game_fetches st (fst (get_player_stats player_career_stats pid st)).
Proof.
  unfold same_game_fetches, get_player_stats.
  destruct (player_dict st !! pid).
  - destruct (player_stats_cache st !! pid); reflexivity.
  - destruct (player_career_stats (trace st) pid) as [info|e];
      [destruct (player_entry info) as [[name stats]|e]|]; reflexivity.
Qed.

Lemma plays_loop_same_game_fetches (gid home_id away_id : Z) (pbp rest : list Play)
    (idx : nat) (rows : list ShotRecord) (st : State) :
  same_game_fetches st
    (fst (plays_loop player_career_stats gid home_id away_id pbp idx rest rows st)).
Proof.
  apply plays_loop_respects.
  - intros s. reflexivity.
  - intros a b c Hab Hbc. unfold same_game_fetches in *. congruence.
  - apply lookup_same_game_fetches.
Qed.

Lemma games_loop_fetches (game_ids : list Z) :
  forall (rows : list ShotRecord) (st : State),
    exists fetched : list Z,
      game_fetches (trace (fst (games_loop player_career_stats play_by_play game_ids rows st)))
      = (game_fetches (trace st) ++ fetched)%list
      /\ fetched `prefix_of` game_ids
      /\ (fetch_failed (trace st) = false ->
          fetch_failed
            (trace (fst (games_loop player_career_stats play_by_play game_ids rows st)))
          = false ->
          fetched = game_ids).
Proof.
  induction game_ids as [|gid rest IH]; intros rows st; cbn [games_loop].
  - exists []. cbn [fst]. rewrite app_nil_r. split; [reflexivity|]. split; [reflexivity | auto].
  - destruct (play_by_play (trace st) gid) as [game_data | e].
    + pose proof (plays_loop_same_game_fetches gid (homeTeam_id game_data)
                    (awayTeam_id game_data) (plays game_data) (plays game_data) 0 rows
                    (log_call (GameCall gid (is_ok (Ok game_data))) st)) as Hg.
      pose proof (plays_loop_same_fetches player_career_stats gid (homeTeam_id game_data)
                    (awayTeam_id game_data) (plays game_data) (plays game_data) 0 rows
                    (log_call (GameCall gid (is_ok (Ok game_data))) st)) as Hf.
      destruct (plays_loop player_career_stats gid (homeTeam_id game_data)
                  (awayTeam_id game_data) (plays game_data) 0 (plays game_data) rows
                  (log_call (GameCall gid (is_ok (Ok game_data))) st)) as [st2 rows'].
      cbn [fst] in Hg, Hf. unfold same_game_fetches in Hg. unfold same_fetches in Hf.
      destruct (IH rows' st2) as (fetched & Heq & Hpre & Hall).
      exists (gid :: fetched). rewrite Heq, Hg. cbn [trace log_call game_fetches].
      split; [rewrite <- app_assoc; reflexivity|].
      split; [apply prefix_cons; exact Hpre|].
      intros Hst Hend. f_equal. apply Hall; [|exact Hend].
      rewrite Hf. cbn. exact Hst.
    + exists [gid]. cbn [fst trace log_call game_fetches is_ok].
      split; [reflexivity|]. split; [apply prefix_cons, prefix_nil|].
      intros _ Hend. cbn in Hend. discriminate Hend.
Qed.

Lemma game_fetches_app (a b : list ext_call) :
  game_fetches (a ++ b) = (game_fetches b ++ game_fetches a)%list.
Proof.
  induction a as [|[pid ok | g ok] a IH]; cbn [game_fetches app].
  - rewrite app_nil_r. reflexivity.
  - exact IH.
  - rewrite IH, <- app_assoc. reflexivity.
Qed.

Lemma fetch_failed_app (a b : list ext_call) :
  fetch_failed (a ++ b) = fetch_failed a || fetch_failed b.
Proof. unfold fetch_failed. apply existsb_app. Qed.

Lemma lookup_adds_player_calls (pid : Z) (st : State) :
  adds_player_calls st (fst (get_player_stats player_career_stats pid st)).
Proof.
  unfold adds_player_calls, get_player_stats.
  destruct (player_dict st !! pid).
  - destruct (player_stats_cache st !! pid); exists []; cbn; auto.
  - destruct (player_career_stats (trace st) pid) as [info|e];
      [destruct (player_entry info) as [[name stats]|e]|].
    + exists [PlayerCall pid true]. cbn. auto.
    + exists [PlayerCall pid true]. cbn. auto.
    + exists [PlayerCall pid false]. cbn. auto.
Qed.

Lemma plays_loop_adds_player_calls (gid home_id away_id : Z) (pbp rest : list Play)
    (idx : nat) (rows : list ShotRecord) (st : State) :
  adds_player_calls st
    (fst (plays_loop player_career_stats gid home_id away_id pbp idx rest rows st)).
Proof.
  apply plays_loop_respects.
  - intros s. exists []. cbn. auto.
  - intros a b c (c1 & H1 & G1 & F1) (c2 & H2 & G2 & F2).
    exists (c2 ++ c1)%list. rewrite H2, H1, app_assoc.
    split; [reflexivity|]. rewrite game_fetches_app, fetch_failed_app, G1, G2, F1, F2.
    split; reflexivity.
  - apply lookup_adds_player_calls.
Qed.

(** The calls a run of the game loop adds to the trace: the games in the
    order of the list, each followed by its player lookups; a fetch that
    raises is the last call of the run. *)
Lemma games_loop_stops (game_ids : list Z) :
  forall (rows : list ShotRecord) (st : State),
    exists calls : list ext_call,
      trace (fst (games_loop player_career_stats play_by_play game_ids rows st))
      = (calls ++ trace st)%list
      /\ game_fetches calls `prefix_of` game_ids
      /\ (fetch_failed calls = false -> game_fetches calls = game_ids)
      /\ (fetch_failed calls = true ->
          exists (g : Z) (calls' : list ext_call),
            calls = GameCall g false :: calls' /\ fetch_failed calls' = false).
Proof.
  induction game_ids as [|gid rest IH]; intros rows st; cbn [games_loop].
  - exists []. cbn [fst app game_fetches]. split; [reflexivity|]. split; [reflexivity|].
    split; [reflexivity|]. cbn. discriminate.
  - destruct (play_by_play (trace st) gid) as [game_data | e].
    + pose proof (plays_loop_adds_player_calls gid (homeTeam_id game_data)
                    (awayTeam_id game_data) (plays game_data) (plays game_data) 0 rows
                    (log_call (GameCall gid (is_ok (Ok game_data))) st)) as Hp.
      destruct (plays_loop player_career_stats gid (homeTeam_id game_data)
                  (awayTeam_id game_data) (plays game_data) 0 (plays game_data) rows
                  (log_call (GameCall gid (is_ok (Ok game_data))) st)) as [st2 rows'].
      cbn [fst] in Hp. destruct Hp as (pc & Hpc & Gpc & Fpc).
      cbn [trace log_call is_ok] in Hpc.
      destruct (IH rows' st2) as (calls & Htr & Hpre & Hall & Hstop).
      exists (calls ++ pc ++ [GameCall gid true])%list.
      assert (Hgf : game_fetches (calls ++ pc ++ [GameCall gid true])
                    = gid :: game_fetches calls).
      { rewrite !game_fetches_app, Gpc. reflexivity. }
      assert (Hff : fetch_failed (calls ++ pc ++ [GameCall gid true])
                    = fetch_failed calls).
      { rewrite !fetch_failed_app, Fpc. cbn. rewrite !orb_false_r. reflexivity. }
      rewrite Hgf, Hff. split.
      { rewrite Htr, Hpc, <- !app_assoc. reflexivity. }
      split; [apply prefix_cons; exact Hpre|].
      split; [intros Hf; f_equal; apply Hall; exact Hf|].
      intros Hf. destruct (Hstop Hf) as (g & calls' & Hc & Hc').
      exists g, (calls' ++ pc ++ [GameCall gid true])%list. subst calls.
      split; [reflexivity|].
      rewrite !fetch_failed_app, Hc', Fpc. reflexivity.
    + exists [GameCall gid false]. cbn [fst trace log_call is_ok app game_fetches].
      split; [reflexivity|]. split; [apply prefix_cons, prefix_nil|].
      split; [cbn; discriminate|].
      intros _. exists gid, []. split; reflexivity.
Qed.

(** A run fetches at most as many rows as the games it is given have
    qualifying events. *)
Lemma plays_loop_length (gid home_id away_id : Z) (pbp : list Play) :
  forall (rest : list Play) (idx : nat) (rows : list ShotRecord) (st : State),
    (length (snd (plays_loop player_career_stats gid home_id away_id pbp idx rest rows st))
     <= length rows
        + length (List.filter (fun play => str_in (typeDescKey play) qualifying) rest))%nat.
Proof.
  induction rest as [|play rest IH]; intros idx rows st; cbn [plays_loop List.filter];
    [cbn; lia|].
  destruct (str_in (typeDescKey play) qualifying); cbn [negb length].
  - destruct (process_play player_career_stats gid home_id away_id pbp idx play st)
      as [st' [row | | e]].
    + specialize (IH (S idx) (rows ++ [row])%list st'). rewrite length_app in IH.
      cbn [length] in IH. cbn [snd fst]. lia.
    + specialize (IH (S idx) rows st'). cbn [snd fst]. lia.
    + specialize (IH (S idx) rows st'). cbn [snd fst]. lia.
  - apply IH.
Qed.

End Fetches.

(** X10: a run of the extractor fetches the games in the order of the
    input list, each entry once, and none after a fetch that failed: the
    games fetched during the run are a prefix of the input list, and the
    whole list when no fetch failed; and when a fetch of the run failed,
    the failed call is the last call the run makes of either provider, it
    is the only failed fetch of the run, and its game is the last game
    fetched. *)
Theorem games_fetched_in_order
    (player_career_stats : list ext_call -> Z -> result PlayerInfo)
    (play_by_play : list ext_call -> Z -> result GameData)
    (game_ids : list Z) (st : State) :
  exists fetched : list Z,
    game_fetches
      (trace (fst (scrape_fenwick_shots player_career_stats play_by_play game_ids st)))
    = (game_fetches (trace st) ++ fetched)%list
    /\ fetched `prefix_of` game_ids
    /\ (fetch_failed (trace st) = false ->
        fetch_failed
          (trace (fst (scrape_fenwick_shots player_career_stats play_by_play game_ids st)))
        = false ->
        fetched = game_ids)
    /\ exists calls : list ext_call,
         trace (fst (scrape_fenwick_shots player_career_stats play_by_play game_ids st))
         = (calls ++ trace st)%list
         /\ game_fetches calls = fetched
         /\ (fetch_failed calls = false -> fetched = game_ids)
         /\ (fetch_failed calls = true ->
             exists (g : Z) (calls' : list ext_call),
               calls = GameCall g false :: calls'
               /\ fetch_failed calls' = false
               /\ last fetched = Some g).
Proof.
  unfold scrape_fenwick_shots.
  destruct (games_loop_stops player_career_stats play_by_play game_ids [] st)
    as (calls & Htr & Hpre & Hall & Hstop).
  exists (game_fetches calls). rewrite Htr, game_fetches_app, fetch_failed_app.
  split; [reflexivity|]. split; [exact Hpre|]. split.
  - intros _ Hf. apply Hall. apply orb_false_iff in Hf. exact (proj1 Hf).
  - exists calls. split; [reflexivity|]. split; [reflexivity|]. split; [exact Hall|].
    intros Hf. destruct (Hstop Hf) as (g & calls' & Hc & Hc').
    exists g, calls'. split; [exact Hc|]. split; [exact Hc'|].
    subst calls. cbn [game_fetches]. apply last_snoc.
Qed.

Lemma games_fetched_in_order_witness :
  game_fetches (trace (fst (scrape_fenwick_shots roster schedule [100; 101] init_state)))
  = [100; 101]
  /\ game_fetches (trace (fst (scrape_fenwick_shots roster schedule [100; 7; 101] init_state)))
     = [100; 7].
Proof.
  split.
  - destruct (games_fetched_in_order roster schedule [100; 101] init_state)
      as (fetched & Heq & _ & Hall & _).
    rewrite Heq. rewrite (Hall eq_refl ltac:(vm_compute; reflexivity)). reflexivity.
  - destruct (games_fetched_in_order roster schedule [100; 7; 101] init_state)
      as (fetched & Heq & Hpre & _ & calls & Htr & _ & _ & Hstop).
    rewrite Heq. cbn [trace init_state game_fetches app] in Htr |- *.
    rewrite app_nil_r in Htr.
    destruct (Hstop ltac:(rewrite <- Htr; vm_compute; reflexivity))
      as (g & calls' & Hc & _ & Hlast).
    rewrite Hc in Htr. vm_compute in Htr. injection Htr as Hg _. subst g.
    destruct Hpre as [k Hk].
    destruct fetched as [|a [|b [|c [|d f]]]]; cbn [app] in Hk |- *; cbn in Hlast;
      congruence.
Defined.

(** X11: the extractor's table has at most one row for each event of a
    qualifying shot type in the games it could fetch. *)
Theorem table_size_bound
    (player_career_stats : list ext_call -> Z -> result PlayerInfo)
    (fetch : Z -> result GameData) (game_ids : list Z) (st : State) :
  (length (frame_rows (snd (scrape_fenwick_shots player_career_stats
                              (fun _ gid => fetch gid) game_ids st)))
   <= list_sum (map (qualifying_events_of fetch) game_ids))%nat.
Proof.
  unfold scrape_fenwick_shots.
  assert (forall rows st0,
             (length (frame_rows (snd (games_loop player_career_stats
                                         (fun _ gid => fetch gid) game_ids rows st0)))
              <= length rows + list_sum (map (qualifying_events_of fetch) game_ids))%nat) as H.
  { induction game_ids as [|gid rest IH]; intros rows st0; cbn [games_loop map list_sum].
    - destruct rows; cbn; lia.
    - unfold qualifying_events_of at 1. cbv beta.
      destruct (fetch gid) as [game_data | e]; [|cbn; lia].
      pose proof (plays_loop_length player_career_stats gid (homeTeam_id game_data)
                    (awayTeam_id game_data) (plays game_data) (plays game_data) 0 rows
                    (log_call (GameCall gid (is_ok (Ok game_data))) st0)) as Hp.
      destruct (plays_loop player_career_stats gid (homeTeam_id game_data)
                  (awayTeam_id game_data) (plays game_data) 0 (plays game_data) rows
                  (log_call (GameCall gid (is_ok (Ok game_data))) st0)) as [st2 rows'].
      cbn [snd] in Hp. specialize (IH rows' st2). unfold qualifying_events.
      cbv beta in IH. change (list_sum (?a :: ?l)) with (a + list_sum l)%nat. lia. }
  specialize (H [] st). cbn in H. exact H.
Qed.

(** ** PlayerStatsCache: where a failure comes from *)

Lemma player_entry_raises (info : PlayerInfo) (e : exn) :
  player_entry info = Raise e -> e = KeyError.
Proof.
  unfold player_entry.
  destruct (firstName_default info), (lastName_default info), (info_position info) as [pos|],
    (shootsCatches info), (career info); cbn; try (intros H; inversion H; reflexivity);
    destruct (pos =? "G")%string; cbn; intros H; inversion H; reflexivity.
Qed.

(** X12: in a state whose two dictionaries have the same keys, a lookup
    raises only for an id that is not cached, and then either the provider
    call raised, with that exception, or the provider answered a record that
    lacks a key the lookup reads, and the exception is [KeyError]; either way
    the two dictionaries are left as they were, with the same keys. *)
Theorem failed_lookup_leaves_cache
    (player_career_stats : list ext_call -> Z -> result PlayerInfo)
    (pid : Z) (st st' : State) (e : exn) :
  cache_inv st ->
  get_player_stats player_career_stats pid st = (st', Raise e) ->
  player_dict st !! pid = None
  /\ (player_career_stats (trace st) pid = Raise e
      \/ exists info,
           player_career_stats (trace st) pid = Ok info
           /\ player_entry info = Raise KeyError /\ e = KeyError)
  /\ player_dict st' = player_dict st
  /\ player_stats_cache st' = player_stats_cache st
  /\ cache_inv st'.
Proof.
  intros Hinv Hget.
  pose proof (get_player_stats_inv player_career_stats pid st Hinv) as Hinv'.
  rewrite Hget in Hinv'. cbn [fst] in Hinv'.
  unfold get_player_stats in Hget.
  destruct (player_dict st !! pid) as [name|] eqn:En.
  - destruct (player_stats_cache st !! pid) as [stats|] eqn:Es; [discriminate Hget|].
    exfalso. assert (is_Some (player_stats_cache st !! pid)) as [x Hx]
      by (apply (Hinv pid); eauto).
    congruence.
  - destruct (player_career_stats (trace st) pid) as [info|e0].
    + destruct (player_entry info) as [[name stats]|e0] eqn:Ee; inversion Hget; subst.
      pose proof (player_entry_raises info e Ee) as ->.
      split; [reflexivity|]. split; [right; exists info; auto|].
      split; [reflexivity|]. split; [reflexivity | exact Hinv'].
    + inversion Hget; subst.
      split; [reflexivity|]. split; [left; reflexivity|].
      split; [reflexivity|]. split; [reflexivity | exact Hinv'].
Qed.

Lemma failed_lookup_leaves_cache_witness :
  (exists info,
      roster_partial (trace init_state) 7 = Ok info /\ player_entry info = Raise KeyError)
  /\ player_dict (fst (get_player_stats roster_partial 7 init_state)) = player_dict init_state
  /\ player_stats_cache (fst (get_player_stats roster_partial 7 init_state))
     = player_stats_cache init_state
  /\ roster_down (trace init_state) 7 = Raise ProviderError.
Proof.
  destruct (failed_lookup_leaves_cache roster_partial 7 init_state
              (fst (get_player_stats roster_partial 7 init_state)) KeyError
              cache_inv_init eq_refl)
    as (_ & [Hp | (info & Hi & He & _)] & Hd & Hc & _); [discriminate Hp|].
  destruct (failed_lookup_leaves_cache roster_down 7 init_state
              (fst (get_player_stats roster_down 7 init_state)) ProviderError
              cache_inv_init eq_refl) as (_ & [Hq | (info' & Hq & _)] & _);
    [|discriminate Hq].
  split; [exists info; split; assumption|].
  split; [exact Hd|]. split; [exact Hc | exact Hq].
Defined.

(** ** TimeWindow: symmetry *)

(** X13: [second_diff] does not depend on the order of its two arguments,
    whether it returns or raises, and what it returns is never negative. *)
Theorem second_diff_symmetric (t1 t2 : string) :
  second_diff t1 t2 = second_diff t2 t1
  /\ (forall d : Z, second_diff t1 t2 = Ok d -> 0 <= d).
Proof.
  unfold second_diff.
  destruct (py_int_cases (slice_0_2 t1)) as [[m1 E1] | E1]; rewrite E1;
    destruct (py_int_cases (slice_3_5 t1)) as [[s1 E2] | E2]; rewrite E2;
    destruct (py_int_cases (slice_0_2 t2)) as [[m2 E3] | E3]; rewrite E3;
    destruct (py_int_cases (slice_3_5 t2)) as [[s2 E4] | E4]; rewrite E4;
    cbn [rbind]; (split; [try reflexivity | intros d H; try discriminate H]).
  - f_equal. lia.
  - inversion H. lia.
Qed.

Lemma second_diff_symmetric_witness :
  second_diff "10:04" "09:58" = second_diff "09:58" "10:04" /\ 0 <= 6.
Proof.
  destruct (second_diff_symmetric "10:04" "09:58") as [Hsym Hpos].
  split; [exact Hsym | apply (Hpos 6); reflexivity].
Defined.

(** ** ContextClassifier: the danger zones as regions *)

Lemma danger_zone_band_wide (x y : Z) :
  69 <= Z.abs x <= 89 -> 22 < Z.abs y -> get_danger_zone x y = "low".
Proof.
  intros Hx Hy. unfold get_danger_zone.
  replace (Z.abs y <=? 6) with false by (symmetry; apply Z.leb_gt; lia).
  replace (Z.abs y <=? 22) with false by (symmetry; apply Z.leb_gt; lia).
  replace (Z.abs x <? 69) with false by (symmetry; apply Z.ltb_ge; lia).
  rewrite !andb_false_r. reflexivity.
Qed.

(** X14: the danger-zone classifier answers "high" exactly in the slot
    [69 <= |x| <= 89], [|y| <= 6], "med" exactly in the band
    [69 <= |x| <= 89], [6 < |y| <= 22] under the line [5|y| + 4|x| <= 386]
    and in the block [44 <= |x| < 69], [|y| <= 22], and "low" everywhere
    else. *)
Theorem danger_zone_regions (x y : Z) :
  (get_danger_zone x y = "high" <-> 69 <= Z.abs x <= 89 /\ Z.abs y <= 6)
  /\ (get_danger_zone x y = "med" <->
      (69 <= Z.abs x <= 89 /\ 6 < Z.abs y <= 22 /\ 5 * Z.abs y + 4 * Z.abs x <= 386)
      \/ (44 <= Z.abs x < 69 /\ Z.abs y <= 22))
  /\ (get_danger_zone x y = "low" <->
      ~ (69 <= Z.abs x <= 89 /\ Z.abs y <= 6)
      /\ ~ (69 <= Z.abs x <= 89 /\ 6 < Z.abs y <= 22 /\ 5 * Z.abs y + 4 * Z.abs x <= 386)
      /\ ~ (44 <= Z.abs x < 69 /\ Z.abs y <= 22)).
Proof.
  destruct (Z_lt_le_dec (Z.abs x) 44) as [Hx1 | Hx1].
  { rewrite (danger_zone_far x y (or_intror Hx1)). intuition (first [congruence | lia]). }
  destruct (Z_lt_le_dec (Z.abs x) 69) as [Hx2 | Hx2].
  { rewrite (danger_zone_outer x y (conj Hx1 Hx2)).
    destruct (Z.leb_spec (Z.abs y) 22) as [Hy | Hy]; intuition (first [congruence | lia]). }
  destruct (Z_lt_le_dec 89 (Z.abs x)) as [Hx3 | Hx3].
  { rewrite (danger_zone_far x y (or_introl Hx3)). intuition (first [congruence | lia]). }
  destruct (Z_lt_le_dec 6 (Z.abs y)) as [Hy1 | Hy1].
  - destruct (Z_lt_le_dec 22 (Z.abs y)) as [Hy2 | Hy2].
    + rewrite (danger_zone_band_wide x y (conj Hx2 Hx3) Hy2).
      intuition (first [congruence | lia]).
    + rewrite (danger_zone_band x y (conj Hx2 Hx3) (conj Hy1 Hy2)).
      destruct (Z.leb_spec (5 * Z.abs y + 4 * Z.abs x) 386) as [Hb | Hb];
        intuition (first [congruence | lia]).
  - rewrite (danger_zone_high x y (conj Hx2 Hx3) Hy1). intuition (first [congruence | lia]).
Qed.

Lemma danger_zone_regions_witness :
  get_danger_zone 75 (-10) = "med" /\ ~ (69 <= Z.abs 60 <= 89 /\ Z.abs 30 <= 6).
Proof.
  split.
  - apply (proj2 (proj1 (proj2 (danger_zone_regions 75 (-10))))). left. cbn. lia.
  - apply (proj1 (proj2 (proj2 (danger_zone_regions 60 30)))). vm_compute. reflexivity.
Defined.

(** X15: the danger zone of a shot does not change when a coordinate is
    negated: both ends and both sides of the rink are classified alike. *)
Theorem danger_zone_mirror (x y : Z) :
  get_danger_zone (- x) y = get_danger_zone x y
  /\ get_danger_zone x (- y) = get_danger_zone x y.
Proof. unfold get_danger_zone. rewrite !Z.abs_opp. split; reflexivity. Qed.

(** ** FeatureProcessor: filtering, situation, mirrored shots *)

Lemma filter_map_comm {A B : Type} (f : A -> B) (p : B -> bool) (l : list A) :
  List.filter p (map f l) = map f (List.filter (fun a => p (f a)) l).
Proof.
  induction l as [|a l IH]; cbn; [reflexivity|].
  destruct (p (f a)); cbn; rewrite IH; reflexivity.
Qed.

Section ProcessorMore.

Variable F : Type.
Variable np_sqrt : Z -> F.
Variable arctan2_degrees : Z -> Z -> F.
Variable ninety : F.
Variable round3 : F -> F.

(** Each row of the result comes from a retained row of the input. *)
Lemma processFenwick_source (df : DataFrame ShotRecord) (out : DataFrame (Feature.row F))
    (r : Feature.row F) :
  processFenwick F np_sqrt arctan2_degrees ninety round3 df = Ok out ->
  In r (frame_rows out) ->
  exists raw, In raw (frame_rows df) /\ retained raw = true
              /\ r = feature_of F np_sqrt arctan2_degrees ninety round3 raw.
Proof.
  destruct df as [|rows]; [discriminate|].
  rewrite processFenwick_closed_form. intros Hout Hin. inversion Hout; subst out.
  cbn [frame_rows] in *. apply in_map_iff in Hin. destruct Hin as (raw & <- & Hraw).
  apply List.filter_In in Hraw. exists raw. intuition.
Qed.

Lemma feature_of_flip_x (r : ShotRecord) :
  feature_of F np_sqrt arctan2_degrees ninety round3 (flip_x r)
  = feature_of F np_sqrt arctan2_degrees ninety round3 r.
Proof.
  unfold feature_of, flip_x, angle_of, situation_of.
  cbn [home last_play rebound rush home_skaters away_skaters position career_shooting_pct
       career_save_pct shot_type shot_class danger_zone shoots goalie_catches x_coord y_coord].
  rewrite Z.abs_opp. replace ((- x_coord r) ^ 2) with (x_coord r ^ 2) by lia. reflexivity.
Qed.

Lemma feature_of_flip_y (r : ShotRecord) :
  feature_of F np_sqrt arctan2_degrees ninety round3 (flip_y r)
  = feature_of F np_sqrt arctan2_degrees ninety round3 r.
Proof.
  unfold feature_of, flip_y, angle_of, situation_of.
  cbn [home last_play rebound rush home_skaters away_skaters position career_shooting_pct
       career_save_pct shot_type shot_class danger_zone shoots goalie_catches x_coord y_coord].
  rewrite Z.abs_opp. replace ((- y_coord r) ^ 2) with (y_coord r ^ 2) by lia. reflexivity.
Qed.

End ProcessorMore.

(** X16: [processFenwick] adds no row, and every row it returns has at
    least 3 skaters on each side. *)
Theorem processFenwick_only_filters (F : Type) (np_sqrt : Z -> F)
    (arctan2_degrees : Z -> Z -> F) (ninety : F) (round3 : F -> F)
    (df : DataFrame ShotRecord) (out : DataFrame (Feature.row F)) :
  processFenwick F np_sqrt arctan2_degrees ninety round3 df = Ok out ->
  (length (frame_rows out) <= length (frame_rows df))%nat
  /\ (forall r, In r (frame_rows out) ->
                3 <= Feature.home_skaters r /\ 3 <= Feature.away_skaters r).
Proof.
  intros Hout. split.
  - destruct df as [|rows]; [discriminate Hout|].
    rewrite processFenwick_closed_form in Hout. inversion Hout; subst out.
    cbn [frame_rows]. rewrite length_map. apply List.filter_length_le.
  - intros r Hin.
    destruct (processFenwick_source F np_sqrt arctan2_degrees ninety round3 df out r Hout Hin)
      as (raw & _ & Hret & ->).
    unfold retained in Hret. rewrite !andb_true_iff in Hret.
    destruct Hret as [[Hh Ha] _]. cbn. split; apply Z.leb_le; assumption.
Qed.

Lemma processFenwick_only_filters_witness :
  (length (frame_rows (Frame [feature_of unit (fun _ => tt) (fun _ _ => tt) tt (fun a => a)
                                kept_row]))
   <= length (frame_rows (Frame [kept_row; keeperless_row])))%nat.
Proof.
  apply (processFenwick_only_filters unit (fun _ => tt) (fun _ _ => tt) tt (fun a => a)
           (Frame [kept_row; keeperless_row])).
  vm_compute. reflexivity.
Defined.

(** X17: in every row [processFenwick] returns, the situation is "EV"
    exactly when the shooting team has as many skaters as the defending
    team, "PP" exactly when it has more, and "SH" exactly when it has
    fewer; the shooting team is the home team when [home] is 1. *)
Theorem situation_by_skaters (F : Type) (np_sqrt : Z -> F)
    (arctan2_degrees : Z -> Z -> F) (ninety : F) (round3 : F -> F)
    (df : DataFrame ShotRecord) (out : DataFrame (Feature.row F)) (r : Feature.row F) :
  processFenwick F np_sqrt arctan2_degrees ninety round3 df = Ok out ->
  In r (frame_rows out) ->
  (Feature.situation r = "EV" <-> shooting_skaters r = defending_skaters r)
  /\ (Feature.situation r = "PP" <-> shooting_skaters r > defending_skaters r)
  /\ (Feature.situation r = "SH" <-> shooting_skaters r < defending_skaters r).
Proof.
  intros Hout Hin.
  destruct (processFenwick_source F np_sqrt arctan2_degrees ninety round3 df out r Hout Hin)
    as (raw & _ & _ & ->).
  unfold shooting_skaters, defending_skaters, feature_of, situation_of.
  cbn [Feature.situation Feature.home Feature.home_skaters Feature.away_skaters].
  destruct (home raw =? 1);
    repeat match goal with |- context [?a <? ?b] => destruct (Z.ltb_spec a b) end;
    intuition (first [congruence | lia]).
Qed.

Lemma situation_by_skaters_witness :
  Feature.situation (feature_of unit (fun _ => tt) (fun _ _ => tt) tt (fun a => a) kept_row)
  = "EV".
Proof.
  apply (proj1 (situation_by_skaters unit (fun _ => tt) (fun _ _ => tt) tt (fun a => a)
                  (Frame [kept_row; keeperless_row])
                  (Frame [feature_of unit (fun _ => tt) (fun _ _ => tt) tt (fun a => a)
                            kept_row])
                  _ ltac:(vm_compute; reflexivity) (or_introl eq_refl))).
  reflexivity.
Defined.

(** X18: [processFenwick] returns the same table when the x coordinate, or
    the y coordinate, of every row is negated: distance and shot angle only
    look at the absolute values. *)
Theorem processFenwick_mirror (F : Type) (np_sqrt : Z -> F)
    (arctan2_degrees : Z -> Z -> F) (ninety : F) (round3 : F -> F) (rows : list ShotRecord) :
  processFenwick F np_sqrt arctan2_degrees ninety round3 (Frame (map flip_x rows))
  = processFenwick F np_sqrt arctan2_degrees ninety round3 (Frame rows)
  /\ processFenwick F np_sqrt arctan2_degrees ninety round3 (Frame (map flip_y rows))
     = processFenwick F np_sqrt arctan2_degrees ninety round3 (Frame rows).
Proof.
  rewrite !processFenwick_closed_form. split; do 2 f_equal.
  - rewrite filter_map_comm, map_map.
    rewrite (List.filter_ext (fun a => retained (flip_x a)) retained) by reflexivity.
    apply map_ext. intros r. apply feature_of_flip_x.
  - rewrite filter_map_comm, map_map.
    rewrite (List.filter_ext (fun a => retained (flip_y a)) retained) by reflexivity.
    apply map_ext. intros r. apply feature_of_flip_y.
Qed.

(** ** The two stages together *)

Section Pipeline.

Variable player_career_stats : list ext_call -> Z -> result PlayerInfo.
Variable play_by_play : list ext_call -> Z -> result GameData.

(** The extractor never returns a frame that has columns and no rows. *)
Lemma games_loop_shape (game_ids : list Z) :
  forall (rows : list ShotRecord) (st : State),
    snd (games_loop player_career_stats play_by_play game_ids rows st) = NoColumns
    \/ exists r rs,
         snd (games_loop player_career_stats play_by_play game_ids rows st) = Frame (r :: rs).
Proof.
  induction game_ids as [|gid rest IH]; intros rows st; cbn [games_loop].
  - destruct rows as [|r rs]; cbn; [left; reflexivity | right; eauto].
  - destruct (play_by_play (trace st) gid) as [game_data | e]; [|left; reflexivity].
    destruct (plays_loop player_career_stats gid (homeTeam_id game_data)
                (awayTeam_id game_data) (plays game_data) 0 (plays game_data) rows
                (log_call (GameCall gid (is_ok (Ok game_data))) st)) as [st2 rows'].
    apply IH.
Qed.

(** Danger label and flags of every row of the table. *)
Lemma scrape_rows_value_parts (game_ids : list Z) (st : State) (row : ShotRecord) :
  In row (frame_rows (snd (scrape_fenwick_shots player_career_stats play_by_play
                             game_ids st))) ->
  is_danger_label (danger_zone row)
  /\ (rebound row = 0 \/ rebound row = 1) /\ (rush row = 0 \/ rush row = 1).
Proof.
  revert row.
  apply (scrape_rows player_career_stats play_by_play
           (fun row => is_danger_label (danger_zone row)
                       /\ (rebound row = 0 \/ rebound row = 1)
                       /\ (rush row = 0 \/ rush row = 1))).
  intros gid home_id away_id pbp idx play s s' row Hgid Hq Hp.
  apply process_play_Ret_inv in Hp.
  destruct Hp as (det & team & side & sid & name & stats & st1 & rb & ru & x & y & c2 & hs
                  & c1 & aws & keeper & _ & _ & _ & _ & _ & _ & Hrb & Hru & _ & _ & _ & _ & _
                  & _ & _ & ->).
  cbn [danger_zone rebound rush].
  split; [apply danger_zone_label|].
  split; [apply (is_rebound_flag _ _ _ Hrb) | apply (is_rush_flag _ _ _ Hru)].
Qed.

End Pipeline.

(** X19: the extractor's table either has no columns or has at least one
    row, and [processFenwick] raises [KeyError] on a table of the extractor
    that has no rows: that is what happens after a fetch failed, and when no
    event of the games gave a row. *)
Theorem empty_table_is_not_processed
    (player_career_stats : list ext_call -> Z -> result PlayerInfo)
    (play_by_play : list ext_call -> Z -> result GameData)
    (F : Type) (np_sqrt : Z -> F) (arctan2_degrees : Z -> Z -> F) (ninety : F)
    (round3 : F -> F) (game_ids : list Z) (st : State) :
  snd (scrape_fenwick_shots player_career_stats play_by_play game_ids st) <> Frame []
  /\ (frame_rows (snd (scrape_fenwick_shots player_career_stats play_by_play game_ids st))
      = [] ->
      processFenwick F np_sqrt arctan2_degrees ninety round3
        (snd (scrape_fenwick_shots player_career_stats play_by_play game_ids st))
      = Raise KeyError)
  /\ (fetch_failed (trace st) = false ->
      fetch_failed
        (trace (fst (scrape_fenwick_shots player_career_stats play_by_play game_ids st)))
      = true ->
      processFenwick F np_sqrt arctan2_degrees ninety round3
        (snd (scrape_fenwick_shots player_career_stats play_by_play game_ids st))
      = Raise KeyError).
Proof.
  unfold scrape_fenwick_shots.
  destruct (games_loop_shape player_career_stats play_by_play game_ids [] st)
    as [Hnone | (r & rs & Hsome)].
  - rewrite Hnone. split; [discriminate|]. split; reflexivity.
  - split; [rewrite Hsome; discriminate|]. split.
    + rewrite Hsome. discriminate.
    + intros Hst Hend.
      rewrite (games_loop_failed player_career_stats play_by_play game_ids [] st Hst Hend)
        in Hsome. discriminate Hsome.
Qed.

Lemma empty_table_is_not_processed_witness :
  processFenwick unit (fun _ => tt) (fun _ _ => tt) tt (fun a => a)
    (snd (scrape_fenwick_shots roster schedule [100; 999] init_state)) = Raise KeyError
  /\ processFenwick unit (fun _ => tt) (fun _ _ => tt) tt (fun a => a)
       (snd (scrape_fenwick_shots roster schedule [102] init_state)) = Raise KeyError.
Proof.
  split.
  - apply (proj2 (proj2 (empty_table_is_not_processed roster schedule unit (fun _ => tt)
                           (fun _ _ => tt) tt (fun a => a) [100; 999] init_state)));
      vm_compute; reflexivity.
  - apply (proj1 (proj2 (empty_table_is_not_processed roster schedule unit (fun _ => tt)
                           (fun _ _ => tt) tt (fun a => a) [102] init_state))).
    vm_compute. reflexivity.
Defined.

(** X20: in the model-ready table made from a table of the extractor, the
    shot value of every row is a number from 1 to 5. *)
Theorem pipeline_shot_value_range
    (player_career_stats : list ext_call -> Z -> result PlayerInfo)
    (play_by_play : list ext_call -> Z -> result GameData)
    (F : Type) (np_sqrt : Z -> F) (arctan2_degrees : Z -> Z -> F) (ninety : F)
    (round3 : F -> F) (game_ids : list Z) (st : State)
    (out : DataFrame (Feature.row F)) (r : Feature.row F) :
  processFenwick F np_sqrt arctan2_degrees ninety round3
    (snd (scrape_fenwick_shots player_career_stats play_by_play game_ids st)) = Ok out ->
  In r (frame_rows out) ->
  exists v, Feature.shot_value r = Some v /\ 1 <= v <= 5.
Proof.
  intros Hout Hin.
  destruct (processFenwick_source F np_sqrt arctan2_degrees ninety round3 _ out r Hout Hin)
    as (raw & Hraw & _ & ->).
  destruct (scrape_rows_value_parts _ _ _ _ _ Hraw) as (Hlab & Hrb & Hru).
  cbn [Feature.shot_value feature_of].
  rewrite (danger_map_numeric _ Hlab). cbn [series_add_num option_map].
  eexists. split; [reflexivity|].
  assert (1 <= numeric (danger_zone raw) <= 3)
    by (destruct Hlab as [-> | [-> | ->]]; vm_compute; split; discriminate).
  lia.
Qed.

Lemma pipeline_shot_value_range_witness :
  exists v,
    Feature.shot_value (feature_of unit (fun _ => tt) (fun _ _ => tt) tt (fun a => a) kept_row)
    = Some v /\ 1 <= v <= 5.
Proof.
  apply (pipeline_shot_value_range roster schedule unit (fun _ => tt) (fun _ _ => tt) tt
           (fun a => a) [100] init_state
           (Frame [feature_of unit (fun _ => tt) (fun _ _ => tt) tt (fun a => a) kept_row])).
  - vm_compute. reflexivity.
  - left. reflexivity.
Defined.

(** ** ShotEventExtractor: one event *)

(** X21: the loop body returns a row only for an event that has its
    details with an owner team, a shooter id and both coordinates; the row
    then carries the event's owner team, coordinates, shot type, zone and
    type, the given game id, the scoring player as shooter for a goal and
    the shooting player otherwise, and a home flag that is 1 exactly when the
    owner is the home team. *)
Theorem emitted_row_fields
    (player_career_stats : list ext_call -> Z -> result PlayerInfo)
    (gid home_id away_id : Z) (pbp : list Play) (idx : nat)
    (play : Play) (st st' : State) (row : ShotRecord) :
  process_play player_career_stats gid home_id away_id pbp idx play st = (st', Ret row) ->
  exists det,
    details play = Some det
    /\ eventOwnerTeamId det = Some (team_id row)
    /\ xCoord det = Some (x_coord row) /\ yCoord det = Some (y_coord row)
    /\ (if (typeDescKey play =? "goal")%string
        then scoringPlayerId det else shootingPlayerId det) = Some (shooter_id row)
    /\ game_id row = gid /\ shot_class row = typeDescKey play
    /\ shot_type row = shotType det /\ zone row = zoneCode det
    /\ goalie_id row = goalieInNetId det
    /\ homeTeamDefendingSide play = Some (home_def_side row)
    /\ (home row = 1 <-> team_id row = home_id)
    /\ danger_zone row = get_danger_zone (x_coord row) (y_coord row).
Proof.
  intros Hp. apply process_play_Ret_inv in Hp.
  destruct Hp as (det & team & side & sid & name & stats & st1 & rb & ru & x & y & c2 & hs
                  & c1 & aws & keeper & Hdet & Hteam & Hside & _ & Hsid & _ & _ & _ & Hx & Hy
                  & _ & _ & _ & _ & _ & ->).
  exists det.
  cbn [team_id x_coord y_coord shooter_id game_id shot_class shot_type zone goalie_id
       home_def_side home danger_zone].
  repeat (split; [first [assumption | reflexivity]|]).
  split; [|reflexivity].
  destruct (Z.eqb_spec team home_id); cbn [b2z]; intuition (first [congruence | lia]).
Qed.

Lemma emitted_row_fields_witness :
  exists det,
    details (shot_with "1551") = Some det
    /\ eventOwnerTeamId det = Some (team_id kept_row)
    /\ xCoord det = Some (x_coord kept_row) /\ yCoord det = Some (y_coord kept_row).
Proof.
  destruct (emitted_row_fields roster 100 1 2 [shot_with "1551"] 0 (shot_with "1551")
              init_state
              (fst (process_play roster 100 1 2 [shot_with "1551"] 0 (shot_with "1551")
                      init_state))
              kept_row ltac:(vm_compute; reflexivity))
    as (det & Hdet & Hteam & Hx & Hy & _).
  exists det. auto.
Defined.

Lemma bind_pure_state {A B : Type} (r : result A) (k : A -> M B) (st : State) :
  (forall a, r = Ok a -> fst (k a st) = st) -> fst (bind (pure_of r) k st) = st.
Proof. intros Hk. unfold bind, pure_of. destruct r; [apply Hk; reflexivity | reflexivity]. Qed.

Lemma bind_skip_state {B : Type} (play : Play) (home_flag away_flag : Z)
    (k : bool -> M B) (st : State) :
  (forall b, fst (k b st) = st) ->
  fst (bind (situation_skip play home_flag away_flag) k st) = st.
Proof.
  intros Hk. unfold bind.
  pose proof (situation_skip_state play home_flag away_flag st) as Hs.
  destruct (situation_skip play home_flag away_flag st) as [s1 [b | | e]];
    cbn [fst] in Hs; subst s1; [apply Hk | reflexivity | reflexivity].
Qed.

(** X22: for an event without details, or without the shooter id its type
    asks for, the loop body returns no row and leaves the state as it is:
    no provider is called and nothing is cached. *)
Theorem no_shooter_no_lookup
    (player_career_stats : list ext_call -> Z -> result PlayerInfo)
    (gid home_id away_id : Z) (pbp : list Play) (idx : nat) (play : Play) (st : State) :
  details play = None
  \/ (exists det,
         details play = Some det
         /\ (if (typeDescKey play =? "goal")%string
             then scoringPlayerId det else shootingPlayerId det) = None) ->
  fst (process_play player_career_stats gid home_id away_id pbp idx play st) = st
  /\ forall row,
       snd (process_play player_career_stats gid home_id away_id pbp idx play st) <> Ret row.
Proof.
  intros H. split.
  - unfold process_play. destruct H as [Hnone | (det & Hdet & Hsid)].
    + rewrite Hnone. reflexivity.
    + apply bind_pure_state. intros det' Hdet'.
      rewrite Hdet in Hdet'. inversion Hdet'; subst det'.
      apply bind_pure_state. intros team _. cbv zeta.
      apply bind_pure_state. intros side _.
      apply bind_skip_state. intros [|]; [reflexivity|].
      rewrite Hsid. reflexivity.
  - intros row Hrow.
    destruct (process_play player_career_stats gid home_id away_id pbp idx play st)
      as [s1 fl] eqn:Ep. cbn [snd] in Hrow. subst fl.
    apply process_play_Ret_inv in Ep.
    destruct Ep as (det & team & side & sid & name & stats & st1 & rb & ru & x & y & c2 & hs
                    & c1 & aws & keeper & Hdet & _ & _ & _ & Hsid & _).
    destruct H as [Hnone | (det' & Hdet' & Hsid')]; [congruence|].
    rewrite Hdet in Hdet'. inversion Hdet'; subst det'.
    rewrite Hsid in Hsid'. discriminate Hsid'.
Qed.

Lemma no_shooter_no_lookup_witness :
  fst (process_play roster 100 1 2 [goal_without_scorer] 0 goal_without_scorer init_state)
  = init_state.
Proof.
  apply (proj1 (no_shooter_no_lookup roster 100 1 2 [goal_without_scorer] 0
                  goal_without_scorer init_state
                  (or_intror (ex_intro _ _ (conj eq_refl eq_refl))))).
Defined.

(** ** ShotEventExtractor: how many lookups a run makes *)

Lemma adds_weaken {A : Type} (n n' : nat) (m : M A) :
  (n <= n')%nat -> adds_calls n m -> adds_calls n' m.
Proof. intros Hle Hm st. specialize (Hm st). lia. Qed.

Lemma adds_ret {A : Type} (a : A) : adds_calls 0 (ret a).
Proof. intros st. cbn. lia. Qed.

Lemma adds_continue {A : Type} : adds_calls 0 (@continue A).
Proof. intros st. cbn. lia. Qed.

Lemma adds_pure_of {A : Type} (r : result A) : adds_calls 0 (pure_of r).
Proof. intros st. unfold pure_of. destruct r; cbn; lia. Qed.

Lemma adds_bind {A B : Type} (n k : nat) (m : M A) (f : A -> M B) :
  adds_calls n m -> (forall a, adds_calls k (f a)) -> adds_calls (n + k) (bind m f).
Proof.
  intros Hm Hf st. unfold bind. specialize (Hm st).
  destruct (m st) as [st1 [a | | e]]; cbn [fst] in *; [|lia|lia].
  specialize (Hf a st1). lia.
Qed.

Lemma adds_skip (play : Play) (home_flag away_flag : Z) :
  adds_calls 0 (situation_skip play home_flag away_flag).
Proof. intros st. rewrite situation_skip_state. lia. Qed.

Section Lookups.

Variable player_career_stats : list ext_call -> Z -> result PlayerInfo.

Lemma adds_lookup (pid : Z) :
  adds_calls 1 (call_of (get_player_stats player_career_stats pid)).
Proof.
  intros st. unfold call_of, get_player_stats.
  destruct (player_dict st !! pid).
  - destruct (player_stats_cache st !! pid); cbn; lia.
  - destruct (player_career_stats (trace st) pid) as [info|e];
      [destruct (player_entry info) as [[name stats]|e]|]; cbn; lia.
Qed.

Lemma adds_goalie (gk : option Z) : adds_calls 1 (goalie_lookup player_career_stats gk).
Proof.
  unfold goalie_lookup. destruct gk as [g|].
  - destruct (g =? 0).
    + apply (adds_weaken 0 1); [lia | apply adds_ret].
    + apply (adds_bind 1 0); [apply adds_lookup|]. intros [n s]. apply adds_ret.
  - apply (adds_weaken 0 1); [lia | apply adds_ret].
Qed.

(** The loop body looks up at most two players. *)
Lemma process_play_adds (gid home_id away_id : Z) (pbp : list Play) (idx : nat)
    (play : Play) :
  adds_calls 2 (process_play player_career_stats gid home_id away_id pbp idx play).
Proof.
  unfold process_play.
  apply (adds_bind 0 2); [apply adds_pure_of | intros det].
  apply (adds_bind 0 2); [apply adds_pure_of | intros team]. cbv zeta.
  apply (adds_bind 0 2); [apply adds_pure_of | intros side].
  apply (adds_bind 0 2); [apply adds_skip | intros skip].
  destruct skip; [apply (adds_weaken 0 2); [lia | apply adds_continue]|].
  destruct (if (typeDescKey play =? "goal")%string
            then scoringPlayerId det else shootingPlayerId det) as [sid|];
    [|apply (adds_weaken 0 2); [lia | apply adds_continue]].
  apply (adds_bind 1 1); [apply adds_lookup | intros [name stats]].
  apply (adds_bind 0 1); [apply adds_pure_of | intros rb].
  apply (adds_bind 0 1); [apply adds_pure_of | intros ru].
  destruct (xCoord det) as [x|]; [|apply (adds_weaken 0 1); [lia | apply adds_continue]].
  destruct (yCoord det) as [y|]; [|apply (adds_weaken 0 1); [lia | apply adds_continue]].
  apply (adds_bind 0 1); [apply adds_pure_of | intros c2].
  apply (adds_bind 0 1); [apply adds_pure_of | intros hs].
  apply (adds_bind 0 1); [apply adds_pure_of | intros c1].
  apply (adds_bind 0 1); [apply adds_pure_of | intros aws].
  apply (adds_bind 1 0); [apply adds_goalie | intros [gname gstats]].
  apply adds_ret.
Qed.

Lemma plays_loop_adds (gid home_id away_id : Z) (pbp : list Play) :
  forall (rest : list Play) (idx : nat) (rows : list ShotRecord) (st : State),
    (player_call_count
       (trace (fst (plays_loop player_career_stats gid home_id away_id pbp idx rest rows st)))
     <= player_call_count (trace st)
        + 2 * length (List.filter (fun play => str_in (typeDescKey play) qualifying) rest))%nat.
Proof.
  induction rest as [|play rest IH]; intros idx rows st; cbn [plays_loop List.filter];
    [cbn; lia|].
  destruct (str_in (typeDescKey play) qualifying); cbn [negb length].
  - pose proof (process_play_adds gid home_id away_id pbp idx play st) as Hp.
    destruct (process_play player_career_stats gid home_id away_id pbp idx play st)
      as [st' [row | | e]]; cbn [fst] in Hp.
    + specialize (IH (S idx) (rows ++ [row])%list st'). lia.
    + specialize (IH (S idx) rows st'). lia.
    + specialize (IH (S idx) rows st'). lia.
  - apply IH.
Qed.

End Lookups.

(** X23: a run of the extractor calls the player-stats provider at most
    twice for each event of a qualifying shot type in the games it could
    fetch, and not at all for the other events. *)
Theorem lookups_per_event_bound
    (player_career_stats : list ext_call -> Z -> result PlayerInfo)
    (fetch : Z -> result GameData) (game_ids : list Z) (st : State) :
  (player_call_count
     (trace (fst (scrape_fenwick_shots player_career_stats (fun _ gid => fetch gid)
                    game_ids st)))
   <= player_call_count (trace st)
      + 2 * list_sum (map (qualifying_events_of fetch) game_ids))%nat.
Proof.
  unfold scrape_fenwick_shots. generalize (@nil ShotRecord) as rows. revert st.
  induction game_ids as [|gid rest IH]; intros st rows; cbn [games_loop map];
    [cbn; lia|].
  change (list_sum (?a :: ?l)) with (a + list_sum l)%nat.
  unfold qualifying_events_of at 1. cbv beta.
  destruct (fetch gid) as [game_data | e]; [|cbn; lia].
  pose proof (plays_loop_adds player_career_stats gid (homeTeam_id game_data)
                (awayTeam_id game_data) (plays game_data) (plays game_data) 0 rows
                (log_call (GameCall gid (is_ok (Ok game_data))) st)) as Hp.
  destruct (plays_loop player_career_stats gid (homeTeam_id game_data)
              (awayTeam_id game_data) (plays game_data) 0 (plays game_data) rows
              (log_call (GameCall gid (is_ok (Ok game_data))) st)) as [st2 rows'].
  cbn [fst trace log_call player_call_count] in Hp.
  specialize (IH st2 rows'). cbv beta in IH. unfold qualifying_events. lia.
Qed.

(** ** ShotEventExtractor: a longer run extends a shorter one *)

Lemma frame_rows_pd {R : Type} (rows : list R) : frame_rows (pd_DataFrame rows) = rows.
Proof. destruct rows; reflexivity. Qed.

Section Incremental.

Variable player_career_stats : list ext_call -> Z -> result PlayerInfo.
Variable play_by_play : list ext_call -> Z -> result GameData.

Lemma plays_loop_prefix (gid home_id away_id : Z) (pbp : list Play) :
  forall (rest : list Play) (idx : nat) (rows : list ShotRecord) (st : State),
    rows `prefix_of`
      snd (plays_loop player_career_stats gid home_id away_id pbp idx rest rows st).
Proof.
  induction rest as [|play rest IH]; intros idx rows st; cbn [plays_loop]; [reflexivity|].
  destruct (negb (str_in (typeDescKey play) qualifying)); [apply IH|].
  destruct (process_play player_career_stats gid home_id away_id pbp idx play st)
    as [st' [row | | e]]; try apply IH.
  etransitivity; [|apply IH]. apply prefix_app_r. reflexivity.
Qed.

(** A failed fetch stays in the trace. *)
Lemma games_loop_failed_stays (game_ids : list Z) :
  forall (rows : list ShotRecord) (st : State),
    fetch_failed (trace st) = true ->
    fetch_failed
      (trace (fst (games_loop player_career_stats play_by_play game_ids rows st))) = true.
Proof.
  induction game_ids as [|gid rest IH]; intros rows st Hst; cbn [games_loop]; [exact Hst|].
  destruct (play_by_play (trace st) gid) as [game_data | e].
  - pose proof (plays_loop_same_fetches player_career_stats gid (homeTeam_id game_data)
                  (awayTeam_id game_data) (plays game_data) (plays game_data) 0 rows
                  (log_call (GameCall gid (is_ok (Ok game_data))) st)) as Hf.
    destruct (plays_loop player_career_stats gid (homeTeam_id game_data)
                (awayTeam_id game_data) (plays game_data) 0 (plays game_data) rows
                (log_call (GameCall gid (is_ok (Ok game_data))) st)) as [st2 rows'].
    cbn [fst] in Hf. unfold same_fetches in Hf. apply IH. rewrite Hf. cbn. exact Hst.
  - reflexivity.
Qed.

(** A run over [l1 ++ l2] in which no fetch fails is the run over [l1]
    followed by the run over [l2] from the rows and the state it left. *)
Lemma games_loop_app (l1 l2 : list Z) :
  forall (rows : list ShotRecord) (st : State),
    fetch_failed
      (trace (fst (games_loop player_career_stats play_by_play (l1 ++ l2) rows st))) = false ->
    exists rows1,
      snd (games_loop player_career_stats play_by_play l1 rows st) = pd_DataFrame rows1
      /\ rows `prefix_of` rows1
      /\ games_loop player_career_stats play_by_play (l1 ++ l2) rows st
         = games_loop player_career_stats play_by_play l2 rows1
             (fst (games_loop player_career_stats play_by_play l1 rows st)).
Proof.
  induction l1 as [|gid l1 IH]; intros rows st Hend.
  - exists rows. cbn. split; [reflexivity|]. split; reflexivity.
  - cbn [app games_loop] in *.
    destruct (play_by_play (trace st) gid) as [game_data | e];
      [|cbn in Hend; discriminate Hend].
    pose proof (plays_loop_prefix gid (homeTeam_id game_data) (awayTeam_id game_data)
                  (plays game_data) (plays game_data) 0 rows
                  (log_call (GameCall gid (is_ok (Ok game_data))) st)) as Hpre.
    destruct (plays_loop player_career_stats gid (homeTeam_id game_data)
                (awayTeam_id game_data) (plays game_data) 0 (plays game_data) rows
                (log_call (GameCall gid (is_ok (Ok game_data))) st)) as [st2 rows'].
    cbn [snd] in Hpre.
    destruct (IH rows' st2 Hend) as (rows1 & Hdf & Hp1 & Heq).
    exists rows1. split; [exact Hdf|]. split; [etransitivity; eassumption | exact Heq].
Qed.

End Incremental.

(** X24: when no fetch fails in a run over a list of games, the table of
    the run over a first part of the list is a prefix of the table of the
    whole run: rows come game by game in the order of the list, and later
    games do not change the rows of earlier ones. *)
Theorem longer_run_extends_table
    (player_career_stats : list ext_call -> Z -> result PlayerInfo)
    (play_by_play : list ext_call -> Z -> result GameData)
    (l1 l2 : list Z) (st : State) :
  fetch_failed
    (trace (fst (scrape_fenwick_shots player_career_stats play_by_play (l1 ++ l2) st)))
  = false ->
  frame_rows (snd (scrape_fenwick_shots player_career_stats play_by_play l1 st))
  `prefix_of`
  frame_rows (snd (scrape_fenwick_shots player_career_stats play_by_play (l1 ++ l2) st)).
Proof.
  unfold scrape_fenwick_shots. intros Hend.
  destruct (games_loop_app player_career_stats play_by_play l1 l2 [] st Hend)
    as (rows1 & Hdf & _ & Heq).
  rewrite Hdf, frame_rows_pd. rewrite Heq in Hend |- *.
  destruct (games_loop_app player_career_stats play_by_play l2 [] rows1 _
              ltac:(rewrite app_nil_r; exact Hend)) as (rows2 & Hdf2 & Hp2 & _).
  rewrite Hdf2, frame_rows_pd. exact Hp2.
Qed.

Lemma longer_run_extends_table_witness :
  frame_rows (snd (scrape_fenwick_shots roster schedule [100] init_state))
  `prefix_of`
  frame_rows (snd (scrape_fenwick_shots roster schedule ([100] ++ [103]) init_state)).
Proof.
  apply (longer_run_extends_table roster schedule [100] [103] init_state).
  vm_compute. reflexivity.
Defined.
